(** * ReliefIQ scoring pipeline: need normalisation, match, urgency, fitness

    A shallow embedding of the scoring and prediction scripts of the
    repository, and the properties of its specification settled against it.

    Numbers.  The scripts compute in numpy's [float64].  The embedding keeps
    the values that decide control flow and the degenerate cases -- [nan] and
    the two infinities, with the IEEE rules for producing and propagating
    them -- and computes finite values exactly, in the reals: rounding,
    overflow and signed zeros are abstracted.  *)

From Stdlib Require Import Reals Lra Lia List String Ascii Bool Arith NArith.
From Stdlib Require Import ZArith HexadecimalString Sorted Permutation.
Import ListNotations.

Open Scope R_scope.

(** ** Exceptions and results *)

Inductive exn : Type :=
| IndexError                      (* [.values[0]] on an empty selection *)
| KeyError (label : string)       (* a column label absent from a frame *)
| TypeError                       (* arithmetic on a text cell *)
| ValueError (msg : string).      (* text to float, shape mismatch, ... *)

Inductive result (A : Type) : Type :=
| Ok (a : A)
| Raise (e : exn).

Arguments Ok {A} a.
Arguments Raise {A} e.

Definition bind {A B : Type} (m : result A) (k : A -> result B) : result B :=
  match m with
  | Ok a => k a
  | Raise e => Raise e
  end.

Notation "x <- m ;; k" := (bind m (fun x => k))
  (at level 61, m at next level, right associativity).

Fixpoint mapM {A B : Type} (f : A -> result B) (l : list A) : result (list B) :=
  match l with
  | [] => Ok []
  | a :: l' => b <- f a ;; bs <- mapM f l' ;; Ok (b :: bs)
  end.

(** ** Python strings *)

Module PyStr.

Local Open Scope string_scope.

(** [str.lower] on ASCII letters *)
Definition lower_char (c : ascii) : ascii :=
  let n := N_of_ascii c in
  if ((65 <=? n) && (n <=? 90))%N then ascii_of_N (n + 32) else c.

Fixpoint lower (s : string) : string :=
  match s with
  | EmptyString => EmptyString
  | String c s' => String (lower_char c) (lower s')
  end.

(** The ASCII characters [str.strip] removes: the space, tab to carriage
    return, and the four separators. *)
Definition is_space (c : ascii) : bool :=
  let n := N_of_ascii c in
  ((n =? 32) || ((9 <=? n) && (n <=? 13)) || ((28 <=? n) && (n <=? 31)))%N.

Fixpoint lstrip (s : string) : string :=
  match s with
  | EmptyString => EmptyString
  | String c s' => if is_space c then lstrip s' else s
  end.

Fixpoint rev (s : string) : string :=
  match s with
  | EmptyString => EmptyString
  | String c s' => rev s' ++ String c EmptyString
  end.

Definition strip (s : string) : string := rev (lstrip (rev (lstrip s))).

(** The characters of [s] that satisfy [keep]: [re.sub] with a negated
    character class and an empty replacement. *)
Fixpoint keep_chars (keep : ascii -> bool) (s : string) : string :=
  match s with
  | EmptyString => EmptyString
  | String c s' => if keep c then String c (keep_chars keep s') else keep_chars keep s'
  end.



(** Every character of [s] satisfies [keep]. *)
Fixpoint every (keep : ascii -> bool) (s : string) : bool :=
  match s with
  | EmptyString => true
  | String c s' => keep c && every keep s'
  end.

(** The string is empty or starts with a character [strip] keeps. *)
Definition starts_clean (s : string) : Prop :=
  match s with
  | EmptyString => True
  | String c _ => is_space c = false
  end.

End PyStr.

(** ** Python dicts with string keys

    A dict keeps its keys in the order they were first inserted; an
    assignment to a key it holds replaces the value in place. *)

Module PyDict.

Definition dict (V : Type) : Type := list (string * V).

(** [k in d] *)
Definition contains {V : Type} (d : dict V) (k : string) : bool :=
  existsb (fun p => String.eqb (fst p) k) d.

(** [d.get(k)] *)
Fixpoint get {V : Type} (d : dict V) (k : string) : option V :=
  match d with
  | [] => None
  | (k', v) :: d' => if String.eqb k' k then Some v else get d' k
  end.

(** [d[k] = v] *)
Fixpoint setitem {V : Type} (d : dict V) (k : string) (v : V) : dict V :=
  match d with
  | [] => [(k, v)]
  | (k', v') :: d' =>
      if String.eqb k' k then (k', v) :: d' else (k', v') :: setitem d' k v
  end.


Definition keys {V : Type} (d : dict V) : list string := map fst d.

End PyDict.

(** ** numpy: float64 scalars and one-dimensional arrays *)

Module Np.

Inductive float64 : Type :=
| Fin (x : R)
| PInf
| NInf
| NaN.

Definition Rsign (x : R) : comparison :=
  if Rlt_dec 0 x then Gt else if Rlt_dec x 0 then Lt else Eq.

Definition fsign (a : float64) : comparison :=
  match a with
  | Fin x => Rsign x
  | PInf => Gt
  | NInf => Lt
  | NaN => Eq
  end.

Definition mul_sign (s t : comparison) : comparison :=
  match s, t with
  | Eq, _ | _, Eq => Eq
  | Gt, Gt | Lt, Lt => Gt
  | _, _ => Lt
  end.

(** An infinity of the given sign; the sign of zero stands for an invalid
    operation ([0 * inf], [0 / 0]). *)
Definition inf_of (s : comparison) : float64 :=
  match s with
  | Gt => PInf
  | Lt => NInf
  | Eq => NaN
  end.

Definition fadd (a b : float64) : float64 :=
  match a, b with
  | NaN, _ | _, NaN => NaN
  | Fin x, Fin y => Fin (x + y)
  | PInf, NInf | NInf, PInf => NaN
  | PInf, _ | _, PInf => PInf
  | NInf, _ | _, NInf => NInf
  end.

Definition fneg (a : float64) : float64 :=
  match a with
  | Fin x => Fin (- x)
  | PInf => NInf
  | NInf => PInf
  | NaN => NaN
  end.

Definition fsub (a b : float64) : float64 := fadd a (fneg b).

Definition fmul (a b : float64) : float64 :=
  match a, b with
  | NaN, _ | _, NaN => NaN
  | Fin x, Fin y => Fin (x * y)
  | _, _ => inf_of (mul_sign (fsign a) (fsign b))
  end.

(** Division follows numpy: [x / 0] is an infinity of the sign of [x], and
    [0 / 0] is [nan] (a RuntimeWarning, never an exception). *)
Definition fdiv (a b : float64) : float64 :=
  match a, b with
  | NaN, _ | _, NaN => NaN
  | Fin x, Fin y => if Req_dec_T y 0 then inf_of (Rsign x) else Fin (x / y)
  | Fin _, _ => Fin 0
  | _, Fin y => if Rlt_dec y 0 then fneg a else a
  | _, _ => NaN
  end.

Definition fsqrt (a : float64) : float64 :=
  match a with
  | Fin x => if Rlt_dec x 0 then NaN else Fin (sqrt x)
  | PInf => PInf
  | _ => NaN
  end.

(** [a == b] *)
Definition feqb (a b : float64) : bool :=
  match a, b with
  | Fin x, Fin y => if Req_dec_T x y then true else false
  | PInf, PInf | NInf, NInf => true
  | _, _ => false
  end.

(** [a < b] *)
Definition fltb (a b : float64) : bool :=
  match a, b with
  | NaN, _ | _, NaN => false
  | Fin x, Fin y => if Rlt_dec x y then true else false
  | NInf, NInf | PInf, _ | Fin _, NInf => false
  | NInf, _ | Fin _, PInf => true
  end.

(** [np.isnan] *)
Definition isnan (a : float64) : bool :=
  match a with
  | NaN => true
  | _ => false
  end.

Definition isinf (a : float64) : bool :=
  match a with
  | PInf | NInf => true
  | _ => false
  end.

Definition array := list float64.

Definition sum (a : array) : float64 := fold_right fadd (Fin 0) a.

(** [np.dot(a, b)] for one-dimensional arrays; the shapes must agree. *)
Fixpoint zip_mul (a b : array) : result array :=
  match a, b with
  | [], [] => Ok []
  | x :: a', y :: b' => r <- zip_mul a' b' ;; Ok (fmul x y :: r)
  | _, _ => Raise (ValueError "shapes not aligned")
  end.

Definition dot (a b : array) : result float64 :=
  p <- zip_mul a b ;; Ok (sum p).

(** [np.linalg.norm(a)]: the square root of [a.dot(a)]. *)
Definition norm (a : array) : float64 :=
  fsqrt (sum (map (fun x => fmul x x) a)).

(** [a.mean()]: the sum over the number of elements; [nan] for an empty
    array (0.0 / 0). *)
Definition mean (a : array) : float64 :=
  fdiv (sum a) (Fin (INR (List.length a))).

End Np.

(** ** pandas: frames read from CSV files *)

Module Pd.

Local Open Scope string_scope.

(** A cell is a number (an empty CSV field reads as [nan]) or text that does
    not parse as a number. *)
Inductive cell : Type :=
| Num (x : Np.float64)
| Str (s : string).

(** A row, indexed by column label; the labels that exist are those of the
    frame the row belongs to. *)
Definition Series := string -> cell.

Record DataFrame : Type := mkFrame {
  columns : list string;
  rows : list Series
}.

(** The row with the given labelled cells. *)
Definition row_of (cells : list (string * cell)) : Series :=
  fun c =>
    match find (fun p => String.eqb (fst p) c) cells with
    | Some p => snd p
    | None => Num Np.NaN
    end.

(** An object or float array as [.values] returns it. *)
Definition ndarray := list cell.

(** [c in df.columns] *)
Definition has_col (df : DataFrame) (c : string) : bool :=
  existsb (String.eqb c) (columns df).

(** [df[c]] *)
Definition col (df : DataFrame) (c : string) : result (list cell) :=
  if has_col df c then Ok (map (fun r => r c) (rows df)) else Raise (KeyError c).

(** [row[c]] for a row of [df] *)
Definition get (df : DataFrame) (r : Series) (c : string) : result cell :=
  if has_col df c then Ok (r c) else Raise (KeyError c).

(** [v == name] for a Python string [name] *)
Definition cell_eq_str (v : cell) (name : string) : bool :=
  match v with
  | Str s => String.eqb s name
  | Num _ => false
  end.

(** [row[cats].values] for a row of [df] *)
Definition select (df : DataFrame) (r : Series) (cats : list string) : result ndarray :=
  match find (fun c => negb (has_col df c)) cats with
  | Some c => Raise (KeyError c)
  | None => Ok (map r cats)
  end.

(** [df.loc[df[key] == name, cats].values] *)
Definition loc_eq (df : DataFrame) (key name : string) (cats : list string)
  : result (list ndarray) :=
  _ <- col df key ;;
  mapM (fun r => select df r cats)
       (filter (fun r => cell_eq_str (r key) name) (rows df)).

(** [a[0]] *)
Definition first {A : Type} (a : list A) : result A :=
  match a with
  | x :: _ => Ok x
  | [] => Raise IndexError
  end.

(** [name in df[key].values] *)
Definition isin (df : DataFrame) (key name : string) : result bool :=
  v <- col df key ;; Ok (existsb (fun c => cell_eq_str c name) v).

(** The numbers of an array in numpy arithmetic; text raises [TypeError]. *)
Definition numeric (a : ndarray) : result Np.array :=
  mapM (fun c => match c with Num x => Ok x | Str _ => Raise TypeError end) a.

(** [a.astype(float)]; text raises [ValueError]. *)
Definition astype_float (a : ndarray) : result Np.array :=
  mapM (fun c => match c with
                 | Num x => Ok x
                 | Str _ => Raise (ValueError "could not convert string to float")
                 end) a.

(** A key column read as Python strings.  The key columns of the tables
    hold names; a number there is outside the embedding, which reports it as
    [TypeError], what [', '.join] and a comparison of text with a number
    raise. *)
Definition text (v : list cell) : result (list string) :=
  mapM (fun c => match c with Str s => Ok s | Num _ => Raise TypeError end) v.

(** [Series.unique()]: first occurrences, in order of appearance. *)
Fixpoint unique (l : list string) : list string :=
  match l with
  | [] => []
  | x :: l' => x :: filter (fun y => negb (String.eqb y x)) (unique l')
  end.

Fixpoint insert_sorted (x : string) (l : list string) : list string :=
  match l with
  | [] => [x]
  | y :: l' => if String.leb x y then x :: l else y :: insert_sorted x l'
  end.

(** [sorted(l)] on strings *)
Definition sorted (l : list string) : list string :=
  fold_right insert_sorted [] l.

(** [df.drop(columns=[c])] *)
Definition drop (df : DataFrame) (c : string) : DataFrame :=
  mkFrame (filter (fun l => negb (String.eqb l c)) (columns df)) (rows df).

(** [df.rename(columns={c: c'})] *)
Definition rename (df : DataFrame) (c c' : string) : DataFrame :=
  mkFrame (map (fun l => if String.eqb l c then c' else l) (columns df))
          (map (fun (r : Series) l => if String.eqb l c' then r c else r l) (rows df)).

End Pd.

Import Np Pd.

(** The fitted regressor loaded from [outputs/model.pkl] is opaque to the
    scripts: [model.predict] on the one-row frame [[match, urgency]] is a
    parameter of the embedding, a function that returns the prediction or
    raises. *)
Definition Model := float64 -> float64 -> result float64.

(** The columns shared by the two tables, in the order of [needs.columns]:
    [[c for c in needs.columns if c in ngos.columns and c != "district"]] *)
Definition shared_cats (needs ngos : DataFrame) : list string :=
  filter (fun c => has_col ngos c && negb (String.eqb c "district")) (columns needs).

(** The urgency of a district from its need values over the shared
    columns: [N.mean()/100], the expression of [compute_fitness.py], of the
    two [predict.py], of [generate_all_scores.py] and of the web endpoint. *)
Definition mean_urgency (N : array) : float64 := fdiv (mean N) (Fin 100).

(** ** scripts/predict.py

    [nepal_relief_ai/scripts/predict.py] and
    [NOVA/data_generation/scripts/predict.py] define the same [cosine],
    [cats] and [predict_fitness]; the second adds the command line. *)

Module Predict.

Local Open Scope string_scope.

(** [np.dot(a,b)/(np.linalg.norm(a)*np.linalg.norm(b))] *)
Definition cosine (a b : ndarray) : result float64 :=
  x <- numeric a ;;
  y <- numeric b ;;
  d <- dot x y ;;
  Ok (fdiv d (fmul (norm x) (norm y))).

(** [reg_vec.mean()/100] *)
Definition urgency_of (reg_vec : ndarray) : result float64 :=
  n <- numeric reg_vec ;; Ok (mean_urgency n).

Section Script.

Variable model : Model.
Variables needs ngos : DataFrame.

Definition cats : list string := shared_cats needs ngos.

Definition predict_fitness (ngo_name region_name : string) : result float64 :=
  ngo_vec <- (v <- loc_eq ngos "NGO" ngo_name cats ;; first v) ;;
  reg_vec <- (v <- loc_eq needs "district" region_name cats ;; first v) ;;
  match_ <- cosine ngo_vec reg_vec ;;
  urgency <- urgency_of reg_vec ;;
  model match_ urgency.

(** What the command line writes to standard output. *)
Inductive message : Type :=
| NgoNotFound (ngo_name : string)
| AvailableNgos (names : string)
| DistrictNotFound (district_name : string)
| AvailableDistricts (names : string)
| PredictedFitnessScore (score : float64)
| NgoLine (ngo_name : string)
| DistrictLine (district_name : string)
| DefaultExample (score : float64)
| Usage.

(** How the process ends. *)
Inductive outcome : Type :=
| Finished (out : list message)
| SysExit (status : nat) (out : list message)
| Uncaught (e : exn) (out : list message).

Definition try_ {A : Type} (out : list message) (m : result A)
  (k : A -> outcome) : outcome :=
  match m with
  | Ok a => k a
  | Raise e => Uncaught e out
  end.

(** [', '.join(df[key].head(10).tolist())] *)
Definition head10 (df : DataFrame) (key : string) : result string :=
  v <- col df key ;; names <- text (firstn 10 v) ;; Ok (String.concat ", " names).

(** The [__main__] block, on [sys.argv]. *)
Definition main (argv : list string) : outcome :=
  match argv with
  | [_; ngo_name; district_name] =>
      try_ [] (isin ngos "NGO" ngo_name) (fun known_ngo =>
      if negb known_ngo then
        let out := [NgoNotFound ngo_name] in
        try_ out (head10 ngos "NGO") (fun names =>
        SysExit 1 (out ++ [AvailableNgos names])%list)
      else
      try_ [] (isin needs "district" district_name) (fun known_district =>
      if negb known_district then
        let out := [DistrictNotFound district_name] in
        try_ out (head10 needs "district") (fun names =>
        SysExit 1 (out ++ [AvailableDistricts names])%list)
      else
      try_ [] (predict_fitness ngo_name district_name) (fun score =>
      Finished [PredictedFitnessScore score; NgoLine ngo_name;
                DistrictLine district_name])))
  | [_] =>
      try_ [] (predict_fitness "Red Cross" "Sindhupalchok") (fun score =>
      Finished [DefaultExample score])
  | _ => SysExit 1 [Usage]
  end.

End Script.

End Predict.

(** ** Nova/nepal_relief_ai/scripts/compute_fitness.py *)

Module ComputeFitness.

Local Open Scope string_scope.

(** The class [[0-9A-Za-z &]] *)
Definition allowed (c : ascii) : bool :=
  let n := N_of_ascii c in
  (((48 <=? n) && (n <=? 57)) || ((65 <=? n) && (n <=? 90))
   || ((97 <=? n) && (n <=? 122)) || (n =? 32) || (n =? 38))%N.

(** [re.sub(r'[^0-9A-Za-z &]+','', c).strip()] *)
Definition clean_label (c : string) : string :=
  PyStr.strip (PyStr.keep_chars allowed c).

(** [clean_cols(df)]: the columns are relabelled; a cell is found under the
    new label of its column (of the first such column, should two labels
    become one). *)
Definition clean_cols (df : DataFrame) : DataFrame :=
  mkFrame (map clean_label (columns df))
          (map (fun (r : Series) l =>
                  match find (fun c => String.eqb (clean_label c) l) (columns df) with
                  | Some c => r c
                  | None => Num NaN
                  end) (rows df)).

Definition cosine (a b : array) : result float64 :=
  if feqb (norm a) (Fin 0) || feqb (norm b) (Fin 0) then Ok (Fin 0)
  else d <- dot a b ;; Ok (fdiv d (fmul (norm a) (norm b))).

Record pair : Type := mkPair {
  NGO : cell;
  district : cell;
  match_ : float64;
  urgency : float64;
  fitness_score : float64
}.

Section Script.

Variables needs ngos : DataFrame.

Definition cats : list string := shared_cats needs ngos.

(** [row[cats].values.astype(float)] *)
Definition row_vector (df : DataFrame) (row : Series) : result array :=
  v <- select df row cats ;; astype_float v.

(** One turn of the inner loop: [None] is the [continue] of a NaN score. *)
Definition score_pair (ngo : Series) (C : array) (reg : Series)
  : result (option pair) :=
  N <- row_vector needs reg ;;
  m <- cosine C N ;;
  let u := mean_urgency N in
  let score := fadd (fmul (Fin 0.7) m) (fmul (Fin 0.3) u) in
  if isnan score then Ok None
  else
    n <- get ngos ngo "NGO" ;;
    d <- get needs reg "district" ;;
    Ok (Some (mkPair n d m u score)).

Fixpoint inner (ngo : Series) (C : array) (regs : list Series) (pairs : list pair)
  : result (list pair) :=
  match regs with
  | [] => Ok pairs
  | reg :: regs' =>
      r <- score_pair ngo C reg ;;
      inner ngo C regs' (match r with Some p => (pairs ++ [p])%list | None => pairs end)
  end.

Fixpoint outer (ngo_rows : list Series) (pairs : list pair) : result (list pair) :=
  match ngo_rows with
  | [] => Ok pairs
  | ngo :: ngo_rows' =>
      C <- row_vector ngos ngo ;;
      pairs' <- inner ngo C (rows needs) pairs ;;
      outer ngo_rows' pairs'
  end.

(** The script from the overlap check on, [needs] and [ngos] being the
    frames [clean_cols] returned: the rows written to
    [outputs/ngo_region_scores.csv], or the exception that ends the run. *)
Definition run : result (list pair) :=
  match cats with
  | [] => Raise (ValueError "No overlapping categories - check CSV headers!")
  | _ => outer (rows ngos) []
  end.

End Script.

(** The script on the two frames read from the CSV files. *)
Definition script (needs_csv ngos_csv : DataFrame) : result (list pair) :=
  run (clean_cols needs_csv) (clean_cols ngos_csv).

End ComputeFitness.

(** The rows of [outputs/ngo_region_scores.csv] that one turn of the inner
    loop, and all the turns for one organisation, add. *)
Definition kept (r : result (option ComputeFitness.pair)) : list ComputeFitness.pair :=
  match r with
  | Ok (Some p) => [p]
  | _ => []
  end.

Definition kept_of_ngo (needs ngos : DataFrame) (ngo : Series) : list ComputeFitness.pair :=
  match ComputeFitness.row_vector needs ngos ngos ngo with
  | Ok C => flat_map (fun reg => kept (ComputeFitness.score_pair needs ngos ngo C reg))
                     (rows needs)
  | Raise _ => []
  end.

(** The label as the specification words it, with the match rescaled to
    [(match + 1) / 2] before weighting. *)
Definition spec_label (m u : float64) : float64 :=
  fadd (fmul (Fin 0.7) (fdiv (fadd m (Fin 1)) (Fin 2))) (fmul (Fin 0.3) u).

(** ** NOVA/data_generation/scripts/generate_all_scores.py *)

Module GenerateAllScores.

Local Open Scope string_scope.

Definition cosine (a b : ndarray) : result float64 :=
  x <- numeric a ;;
  y <- numeric b ;;
  d <- dot x y ;;
  Ok (fdiv d (fmul (norm x) (norm y))).

Record score : Type := mkScore {
  NGO : string;
  district : string;
  match_ : float64;
  urgency : float64;
  fitness_score : float64
}.

(** ["Error processing {ngo} - {district}: {str(e)}"] *)
Inductive message : Type :=
| ErrorProcessing (ngo district : string) (e : exn).

Section Script.

Variable model : Model.
Variables needs ngos : DataFrame.

Definition cats : list string := shared_cats needs ngos.

Definition calculate_match_and_urgency (ngo_name region_name : string)
  : result (float64 * float64) :=
  ngo_vec <- (v <- loc_eq ngos "NGO" ngo_name cats ;; first v) ;;
  reg_vec <- (v <- loc_eq needs "district" region_name cats ;; first v) ;;
  m <- cosine ngo_vec reg_vec ;;
  n <- numeric reg_vec ;;
  Ok (m, mean_urgency n).

Definition predict_fitness (ngo_name region_name : string) : result float64 :=
  mu <- calculate_match_and_urgency ngo_name region_name ;;
  model (fst mu) (snd mu).

(** The body of the [try] for one combination. *)
Definition try_body (ngo district : string) : result score :=
  mu <- calculate_match_and_urgency ngo district ;;
  f <- model (fst mu) (snd mu) ;;
  Ok (mkScore ngo district (fst mu) (snd mu) f).

(** The state of the loops: the [results] list and the error lines printed
    so far. *)
Definition state : Type := (list score * list message)%type.

(** [try: ... except Exception as e: print(...); continue] *)
Definition step (ngo : string) (st : state) (district : string) : state :=
  match try_body ngo district with
  | Ok r => ((fst st ++ [r])%list, snd st)
  | Raise e => (fst st, (snd st ++ [ErrorProcessing ngo district e])%list)
  end.

Definition loops (unique_ngos unique_districts : list string) : state :=
  fold_left (fun st ngo => fold_left (step ngo) unique_districts st)
            unique_ngos ([], []).

(** [generate_all_scores()] up to the frame it saves; the progress and
    summary lines are left out. *)
Definition generate_all_scores : result state :=
  unique_ngos <- (v <- col ngos "NGO" ;; t <- text v ;; Ok (sorted (unique t))) ;;
  unique_districts <-
    (v <- col needs "district" ;; t <- text v ;; Ok (sorted (unique t))) ;;
  Ok (loops unique_ngos unique_districts).

End Script.

End GenerateAllScores.

(** What one combination adds to [results], and what it prints. *)
Section Outcomes.

Import GenerateAllScores.

Variable model : Model.
Variables needs ngos : DataFrame.

Definition scored (ngo district : string) : list score :=
  match try_body model needs ngos ngo district with
  | Ok r => [r]
  | Raise _ => []
  end.

Definition reported (ngo district : string) : list message :=
  match try_body model needs ngos ngo district with
  | Ok _ => []
  | Raise e => [ErrorProcessing ngo district e]
  end.

End Outcomes.




(** ** NOVA/reliefiq-dashboard/app.py: the [predict] web endpoint *)

Module Dashboard.

Local Open Scope string_scope.

Inductive response : Type :=
| Error (msg : string) (status : nat)
| Fitness (ngo district : string) (fitness : float64).

Definition cosine (a b : array) : result float64 :=
  if feqb (norm a) (Fin 0) || feqb (norm b) (Fin 0) then Ok (Fin 0)
  else d <- dot a b ;; Ok (fdiv d (fmul (norm a) (norm b))).

(** [not s] for an optional string of the request body *)
Definition falsy (s : option string) : bool :=
  match s with
  | None | Some EmptyString => true
  | Some _ => false
  end.

Section Endpoint.

Variable model : Model.
Variables needs ngos : DataFrame.

Definition lookup (ngo district : string) (cats : list string)
  : result (array * array) :=
  ngo_vec <- (v <- loc_eq ngos "NGO" ngo cats ;; a <- first v ;; astype_float a) ;;
  reg_vec <-
    (v <- loc_eq needs "district" district cats ;; a <- first v ;; astype_float a) ;;
  Ok (ngo_vec, reg_vec).

Definition predict (body_ngo body_district : option string) : result response :=
  match body_ngo, body_district with
  | Some ngo, Some district =>
      if falsy body_ngo || falsy body_district
      then Ok (Error "Provide 'ngo' and 'district'." 400)
      else
        match shared_cats needs ngos with
        | [] => Ok (Error "No overlapping categories between needs and NGO capabilities." 500)
        | cats =>
            match lookup ngo district cats with
            | Raise IndexError => Ok (Error "Unknown NGO or district." 404)
            | Raise e => Raise e
            | Ok (ngo_vec, reg_vec) =>
                m <- cosine ngo_vec reg_vec ;;
                let u := mean_urgency reg_vec in
                pred <- model m u ;;
                Ok (Fitness ngo district pred)
            end
        end
  | _, _ => Ok (Error "Provide 'ngo' and 'district'." 400)
  end.

End Endpoint.

End Dashboard.

(** ** scikit-learn: [MinMaxScaler]

    The scaler is a library class, not code of the repository.  This is the
    computation of [MinMaxScaler(feature_range).fit_transform] on a
    numeric matrix given by its columns: [fit] takes the minimum and the
    maximum of every column, ignoring [nan]; [transform] maps [x] to
    [x * scale_ + min_].  The input check refuses an empty matrix and
    infinite entries.  A column whose range is below ten machine epsilons
    counts as constant and is scaled by 1.  The arithmetic is that of
    [Np]: exact on finite values. *)

Module Sklearn.

Definition fmin_nan (a b : float64) : float64 :=
  match a, b with
  | NaN, x | x, NaN => x
  | _, _ => if fltb b a then b else a
  end.

Definition fmax_nan (a b : float64) : float64 :=
  match a, b with
  | NaN, x | x, NaN => x
  | _, _ => if fltb a b then b else a
  end.

(** [np.nanmin], [np.nanmax] along a column; [nan] when every entry is. *)
Definition nanmin (X : array) : float64 := fold_right fmin_nan NaN X.
Definition nanmax (X : array) : float64 := fold_right fmax_nan NaN X.

(** [np.finfo(np.float64).eps], 2^-52 *)
Definition eps : R := / 4503599627370496.

(** [scale[scale < 10 * eps] = 1.0]; the comparison is false on [nan]. *)
Definition handle_zeros_in_scale (scale : float64) : float64 :=
  if fltb scale (Fin (10 * eps)) then Fin 1 else scale.

Record MinMaxScaler : Type := mkScaler {
  scale_ : float64;
  min_ : float64
}.

Definition fit_column (feature_range : R * R) (X : array) : MinMaxScaler :=
  let data_min := nanmin X in
  let data_max := nanmax X in
  let data_range := fsub data_max data_min in
  let scale := fdiv (fsub (Fin (snd feature_range)) (Fin (fst feature_range)))
                    (handle_zeros_in_scale data_range) in
  mkScaler scale (fsub (Fin (fst feature_range)) (fmul data_min scale)).

Definition transform_column (s : MinMaxScaler) (X : array) : array :=
  map (fun x => fadd (fmul x (scale_ s)) (min_ s)) X.

(** The matrix is a list of columns of one length, the number of samples. *)
Definition n_samples (X : list array) : nat :=
  match X with
  | [] => 0
  | c :: _ => List.length c
  end.

Definition fit_transform (feature_range : R * R) (X : list array)
  : result (list array) :=
  if Rle_dec (snd feature_range) (fst feature_range)
  then Raise (ValueError "Minimum of desired feature range must be smaller than maximum")
  else if Nat.eqb (n_samples X) 0
  then Raise (ValueError "Found array with 0 sample(s)")
  else if existsb (existsb isinf) X
  then Raise (ValueError "Input X contains infinity")
  else Ok (map (fun c => transform_column (fit_column feature_range c) c) X).

End Sklearn.

(** ** NOVA/data_generation/scripts/build_need_matrix.py

    The two input tables have fixed columns, which hold percentages and
    densities: rows are records of reals. *)

Module BuildNeedMatrix.

Local Open Scope string_scope.

Record damage_row : Type := mkDamage {
  district : string;
  houses_destroyed_pct : R;
  water_facilities_damaged_pct : R;
  food_insecure_households_pct : R;
  road_accessibility_score : R;
  health_facilities_damaged_pct : R;
  poverty_rate : R;
  telecom_coverage_pct : R;
  displaced_pop_pct : R;
  public_infra_damaged_pct : R;
  farmland_lost_pct : R
}.

Record pop_row : Type := mkPop {
  pop_district : string;
  pop_density : R
}.

(** [damage.merge(pop, on="district")]: the inner join, in the order of the
    left keys. *)
Definition merge (damage : list damage_row) (pop : list pop_row)
  : list (damage_row * pop_row) :=
  flat_map (fun d =>
    map (fun p => (d, p))
        (filter (fun p => String.eqb (pop_district p) (district d)) pop)) damage.

(** [Series.max()]; [nan] on an empty column. *)
Definition col_max (c : list R) : float64 :=
  match c with
  | [] => NaN
  | x :: c' => Fin (fold_right Rmax x c')
  end.

Section Frame.

Variable df : list (damage_row * pop_row).

Definition column (f : damage_row * pop_row -> float64) : array := map f df.

Definition shelter_need : array :=
  column (fun r => Fin (houses_destroyed_pct (fst r))).

Definition wash_need : array :=
  let m := col_max (map (fun r => pop_density (snd r)) df) in
  column (fun r => fmul (Fin (water_facilities_damaged_pct (fst r)))
                        (fdiv (Fin (pop_density (snd r))) m)).

Definition food_need : array :=
  column (fun r => Fin (food_insecure_households_pct (fst r))).

Definition logistics_need : array :=
  column (fun r => fsub (Fin 100) (Fin (road_accessibility_score (fst r)))).

Definition rescue_need : array :=
  column (fun r =>
    fdiv (fmul (Fin (houses_destroyed_pct (fst r)))
               (fsub (Fin 100) (Fin (road_accessibility_score (fst r)))))
         (Fin 100)).

Definition health_need : array :=
  column (fun r => Fin (health_facilities_damaged_pct (fst r))).

Definition cash_need : array :=
  column (fun r =>
    fdiv (fmul (Fin (poverty_rate (fst r))) (Fin (houses_destroyed_pct (fst r))))
         (Fin 100)).

Definition comms_need : array :=
  column (fun r => fsub (Fin 100) (Fin (telecom_coverage_pct (fst r)))).

Definition psych_need : array :=
  column (fun r => Fin (displaced_pop_pct (fst r))).

Definition infra_need : array :=
  column (fun r => Fin (public_infra_damaged_pct (fst r))).

Definition agri_need : array :=
  column (fun r => Fin (farmland_lost_pct (fst r))).

(** [df[need_cols]] before scaling, column by column. *)
Definition need_cols : list array :=
  [shelter_need; wash_need; food_need; logistics_need; rescue_need;
   health_need; cash_need; comms_need; psych_need; infra_need; agri_need].

End Frame.

(** The labels the eleven columns are renamed to. *)
Definition labels : list string :=
  ["Emergency Shelter & Housing"; "Water & Sanitation Recovery";
   "Emergency Food Distribution"; "Emergency Logistics & Transportation";
   "Search Rescue & Evacuation"; "Emergency Health Response";
   "Immediate Cash Assistance"; "Emergency Communications";
   "Psychosocial First Aid"; "Critical Infrastructure Restoration";
   "Agricultural Recovery"].

(** The need columns of [outputs/regional_needs_2015.csv], with the
    district column. *)
Record need_matrix : Type := mkNeeds {
  districts : list string;
  needs : list (string * array)
}.

Definition build_need_matrix (damage : list damage_row) (pop : list pop_row)
  : result need_matrix :=
  let df := merge damage pop in
  scaled <- Sklearn.fit_transform (0, 100) (need_cols df) ;;
  Ok (mkNeeds (map (fun r => district (fst r)) df) (combine labels scaled)).


End BuildNeedMatrix.

(** ** generate_ngo_scores.py: the urgency of a district *)

Module GenerateNgoScores.

Import BuildNeedMatrix.

(** The [urgency] computed from a row of the damage table. *)
Definition urgency (district_data : damage_row) : float64 :=
  fdiv
    (fadd (fadd (fadd (fadd (fadd
       (fmul (Fin (houses_destroyed_pct district_data)) (Fin 0.2))
       (fmul (Fin (health_facilities_damaged_pct district_data)) (Fin 0.15)))
       (fmul (Fin (water_facilities_damaged_pct district_data)) (Fin 0.15)))
       (fmul (Fin (food_insecure_households_pct district_data)) (Fin 0.2)))
       (fmul (Fin (displaced_pop_pct district_data)) (Fin 0.15)))
       (fmul (fsub (Fin 100) (Fin (road_accessibility_score district_data)))
             (Fin 0.15)))
    (Fin 100).

(** A row of [data/input/ngo_capabilities.csv] in its long format, one row
    per organisation and category; the score column is numeric (an empty
    field reads as [nan]). *)
Record capability : Type := mkCapability {
  ngo_name : string;
  category : string;
  capacity_score : float64
}.

(** One of the five blocks
    [if district_data[...] > 50: ... total_weight += 0.2], on the pair
    [(match_score, total_weight)]. *)
Definition block (ngo_capabilities : list capability) (pct : R) (label : string)
    (acc : float64 * float64) : float64 * float64 :=
  if fltb (Fin 50) (Fin pct) then
    let cap := filter (fun c => String.eqb (category c) label) ngo_capabilities in
    (match cap with
     | c :: _ =>
         if fltb (Fin 0) (capacity_score c) then fadd (fst acc) (Fin 0.2) else fst acc
     | [] => fst acc
     end,
     fadd (snd acc) (Fin 0.2))
  else acc.

(** [(match_score, total_weight)] after the five blocks. *)
Definition weigh (ngo_capabilities : list capability) (district_data : damage_row)
  : float64 * float64 :=
  let acc := (Fin 0, Fin 0) in
  let acc := block ngo_capabilities (health_facilities_damaged_pct district_data)
                   "Emergency Health Response" acc in
  let acc := block ngo_capabilities (water_facilities_damaged_pct district_data)
                   "Water & Sanitation Recovery" acc in
  let acc := block ngo_capabilities (food_insecure_households_pct district_data)
                   "Emergency Food Distribution" acc in
  let acc := block ngo_capabilities (houses_destroyed_pct district_data)
                   "Emergency Shelter & Housing" acc in
  block ngo_capabilities (public_infra_damaged_pct district_data)
        "Critical Infrastructure Restoration" acc.

(** The normalised [match_score]. *)
Definition match_score (ngo_capabilities : list capability) (district_data : damage_row)
  : float64 :=
  let acc := weigh ngo_capabilities district_data in
  if fltb (Fin 0) (snd acc) then fdiv (fst acc) (snd acc) else Fin 0.5.

Definition fitness_score (ngo_capabilities : list capability) (district_data : damage_row)
  : float64 :=
  fmul (fadd (fmul (match_score ngo_capabilities district_data) (Fin 0.6))
             (fmul (urgency district_data) (Fin 0.4)))
       (Fin 100).

(** A row of [data/input/ngo_region_scores.csv]. *)
Record score : Type := mkScore {
  NGO : string;
  score_district : string;
  match_ : float64;
  score_urgency : float64;
  score_fitness : float64
}.

Section Script.

(** Python's [round(x, 2)] on a float is left uninterpreted. *)
Variable round2 : float64 -> float64.

Variable damage_df : list damage_row.
Variable ngo_df : list capability.

Definition ngos : list string := sorted (unique (map ngo_name ngo_df)).
Definition districts : list string := sorted (unique (map district damage_df)).

(** The body of the inner loop. *)
Definition body (ngo d : string) : result score :=
  let ngo_capabilities := filter (fun c => String.eqb (ngo_name c) ngo) ngo_df in
  district_data <- first (filter (fun r => String.eqb (district r) d) damage_df) ;;
  Ok (mkScore ngo d
        (round2 (fmul (match_score ngo_capabilities district_data) (Fin 100)))
        (round2 (fmul (urgency district_data) (Fin 100)))
        (round2 (fitness_score ngo_capabilities district_data))).

(** The [results] list the script turns into the scores file. *)
Definition results : result (list score) :=
  per_ngo <- mapM (fun ngo => mapM (body ngo) districts) ngos ;;
  Ok (List.concat per_ngo).

End Script.

(** The five damage indicators of a district with the category that
    answers each, in the order of the blocks. *)
Definition indicators (district_data : damage_row) : list (R * string) :=
  [(health_facilities_damaged_pct district_data, "Emergency Health Response"%string);
   (water_facilities_damaged_pct district_data, "Water & Sanitation Recovery"%string);
   (food_insecure_households_pct district_data, "Emergency Food Distribution"%string);
   (houses_destroyed_pct district_data, "Emergency Shelter & Housing"%string);
   (public_infra_damaged_pct district_data, "Critical Infrastructure Restoration"%string)].

(** The first row of the category has a positive score. *)
Definition covers (ngo_capabilities : list capability) (label : string) : bool :=
  match filter (fun c => String.eqb (category c) label) ngo_capabilities with
  | c :: _ => fltb (Fin 0) (capacity_score c)
  | [] => false
  end.

(** The indicators above 50, and those of them the organisation covers. *)
Definition severe (district_data : damage_row) : list (R * string) :=
  filter (fun i => if Rlt_dec 50 (fst i) then true else false) (indicators district_data).

Definition covered (ngo_capabilities : list capability) (district_data : damage_row)
  : list (R * string) :=
  filter (fun i => covers ngo_capabilities (snd i)) (severe district_data).

End GenerateNgoScores.

(** ** nepal_relief_ai/scripts/train_model.py: saving the model

    [pickle.dump(model, open("outputs/model.pkl","wb"))] acts on one file.
    Its content is followed through the statement: [open] in mode ["wb"]
    creates the file or truncates it, and [dump] then appends the pickle in
    the writes its framing cuts it into. *)

Module TrainModel.

Definition bytes := list Byte.byte.

(** The content of [outputs/model.pkl]; [None] while the file does not
    exist. *)
Definition file := option bytes.

Definition open_wb (f : file) : file := Some [].

Definition write (chunk : bytes) (f : file) : file :=
  match f with
  | Some content => Some (content ++ chunk)
  | None => None
  end.

(** The contents the file goes through, oldest first, from the one before
    the statement to the one after it. *)
Fixpoint writes (chunks : list bytes) (f : file) : list file :=
  match chunks with
  | [] => []
  | c :: chunks' => write c f :: writes chunks' (write c f)
  end.

Definition dump_trace (old : file) (chunks : list bytes) : list file :=
  old :: open_wb old :: writes chunks (open_wb old).

(** [p] is an initial part of [l]. *)
Definition is_prefix (p l : bytes) : Prop := exists s, l = p ++ s.

(** The training data, from the rows [compute_fitness.py] wrote to
    [outputs/ngo_region_scores.csv]:
    [data.dropna(subset=["fitness_score"])], then [X = data[["match","urgency"]]]
    and [y = data["fitness_score"]]. *)
Definition dropna (data : list ComputeFitness.pair) : list ComputeFitness.pair :=
  filter (fun r => negb (isnan (ComputeFitness.fitness_score r))) data.

Definition X (data : list ComputeFitness.pair) : list (float64 * float64) :=
  map (fun r => (ComputeFitness.match_ r, ComputeFitness.urgency r)) data.

Definition y (data : list ComputeFitness.pair) : list float64 :=
  map ComputeFitness.fitness_score data.

Definition training_set (csv : list ComputeFitness.pair)
  : list ((float64 * float64) * float64) :=
  let data := dropna csv in combine (X data) (y data).

End TrainModel.

(** ** websiteshit/convert_to_vivaan.py

    The capability table in its long format is turned into the matrix the
    scoring scripts read: one row per organisation, one 0/1 column per
    category. *)

Module ConvertToVivaan.

Import GenerateNgoScores PyDict.

Local Open Scope string_scope.

Definition categories : list string :=
  ["Emergency Shelter & Housing"; "Water & Sanitation Recovery";
   "Emergency Food Distribution"; "Emergency Logistics & Transportation";
   "Search Rescue & Evacuation"; "Emergency Health Response";
   "Immediate Cash Assistance"; "Emergency Communications";
   "Psychosocial First Aid"; "Critical Infrastructure Restoration";
   "Agricultural Recovery"].

Definition all_ngos : list string :=
  ["Red Cross"; "World Vision"; "CARE Nepal"; "UNICEF"; "Oxfam";
   "Save the Children"; "Habitat for Humanity"; "WFP"; "FAO"].

(** [{c: 0 for c in categories}] *)
Definition blank : dict Z := map (fun c => (c, 0%Z)) categories.

(** [output[ngo]] changed in place by [f]. *)
Definition update (output : dict (dict Z)) (ngo : string) (f : dict Z -> dict Z)
  : dict (dict Z) :=
  map (fun p => if String.eqb (fst p) ngo then (fst p, f (snd p)) else p) output.

(** The body of the loop over the rows of the input. *)
Definition step (output : dict (dict Z)) (row : capability) : dict (dict Z) :=
  let ngo := PyStr.strip (ngo_name row) in
  let category := PyStr.strip (category row) in
  let score := capacity_score row in
  let output := if contains output ngo then output else setitem output ngo blank in
  update output ngo (fun caps =>
    if contains caps category
    then setitem caps category (if fltb (Fin 0) score then 1%Z else 0%Z)
    else caps).

(** A row of the output frame: the name and the values under the eleven
    category columns. *)
Definition matrix_row : Type := (string * list Z)%type.

(** [pd.DataFrame.from_dict(output, orient="index").reset_index()], renamed
    and restricted to [["NGO"] + categories], a missing value filled with 0.
    An empty [output] gives a frame without the category columns, which
    the selection refuses. *)
Definition to_frame (output : dict (dict Z)) : result (list matrix_row) :=
  match output with
  | [] => Raise (KeyError "Emergency Shelter & Housing")
  | _ =>
      Ok (map (fun p => (fst p,
                         map (fun c => match get (snd p) c with
                                       | Some v => v
                                       | None => 0%Z
                                       end) categories)) output)
  end.

(** The loop over [all_ngos]: a name the frame lacks is appended with
    zeros. *)
Definition add_missing (output_df : list matrix_row) : list matrix_row :=
  fold_left (fun df ngo =>
               if existsb (fun r => String.eqb (fst r) ngo) df then df
               else (df ++ [(ngo, map (fun _ => 0%Z) categories)])%list)
            all_ngos output_df.

(** The frame written to [data/output/ngo_capabilities_converted.csv]. *)
Definition convert (df : list capability) : result (list matrix_row) :=
  output_df <- to_frame (fold_left step df []) ;;
  Ok (add_missing output_df).

(** The value of the frame for an organisation and a category. *)
Definition value (output_df : list matrix_row) (ngo category : string) : option Z :=
  match find (fun r => String.eqb (fst r) ngo) output_df with
  | Some r =>
      match find (fun cv => String.eqb (fst cv) category) (combine categories (snd r)) with
      | Some cv => Some (snd cv)
      | None => None
      end
  | None => None
  end.

(** What the last row of the input for an organisation and a category
    says, names stripped: 1 for a positive score, else 0; 0 without such a
    row. *)
Definition last_score (df : list capability) (ngo category_ : string) : Z :=
  fold_left (fun found row =>
               if String.eqb (PyStr.strip (ngo_name row)) ngo
                  && String.eqb (PyStr.strip (category row)) category_
               then (if fltb (Fin 0) (capacity_score row) then 1%Z else 0%Z)
               else found)
            df 0%Z.

(** The state of the loop records, for every organisation met so far and
    only for those, what the last row for each category said. *)
Definition records (output : dict (dict Z)) (df : list capability) : Prop :=
  (forall ngo, In ngo (keys output) <->
     exists row, In row df /\ PyStr.strip (ngo_name row) = ngo) /\
  forall ngo caps, get output ngo = Some caps ->
    forall cat, In cat categories -> get caps cat = Some (last_score df ngo cat).

(** The state of the loop is sound: every organisation once, each with the
    eleven categories and values 0 or 1. *)
Definition binary (caps : dict Z) : Prop :=
  keys caps = categories /\ forall p, In p caps -> snd p = 0%Z \/ snd p = 1%Z.

Definition consistent (output : dict (dict Z)) : Prop :=
  NoDup (keys output) /\ forall p, In p output -> binary (snd p).

Definition zero_or_one (r : matrix_row) : Prop :=
  List.length (snd r) = List.length categories /\
  forall v, In v (snd r) -> v = 0%Z \/ v = 1%Z.

End ConvertToVivaan.

(** ** color_map_nepal.py *)

Module ColorMapNepal.

Local Open Scope string_scope.

(** What [int(x)] raises on a float that is no number. *)
Inductive int_error : Type :=
| CannotConvertNaN          (* ValueError *)
| CannotConvertInfinity.    (* OverflowError *)

(** The integer nearest to [x] towards zero. *)
Definition trunc (x : R) : Z :=
  if Rle_dec 0 x then Int_part x else (- Int_part (- x))%Z.

(** [int(x)] *)
Definition int (x : float64) : Z + int_error :=
  match x with
  | Fin r => inl (trunc r)
  | NaN => inr CannotConvertNaN
  | PInf | NInf => inr CannotConvertInfinity
  end.

(** The lower-case hexadecimal digits of a natural number. *)
Definition hex (n : Z) : string :=
  NilZero.string_of_uint (N.to_hex_uint (Z.to_N n)).

(** [f"{n:02x}"]: at least two characters, zeros filled in after the sign. *)
Definition format_02x (n : Z) : string :=
  let digits := hex (Z.abs n) in
  if (n <? 0)%Z then "-" ++ digits
  else if (String.length digits <? 2)%nat then "0" ++ digits
  else digits.

Definition value_to_color (value : float64) : string + int_error :=
  let t := fdiv (fsub value (Fin 1)) (Fin 99) in
  match int (fmul (Fin 255) (fsub (Fin 1) t)) with
  | inr e => inr e
  | inl r =>
      match int (fmul (Fin 255) t) with
      | inr e => inr e
      | inl g =>
          let b := 0%Z in
          inl ("#" ++ format_02x r ++ format_02x g ++ format_02x b)
      end
  end.

(** The red and the green channel for a finite value. *)
Definition red (value : R) : Z := trunc (255 * (1 - (value - 1) / 99)).
Definition green (value : R) : Z := trunc (255 * ((value - 1) / 99)).

End ColorMapNepal.

(** ** map_nepal.py

    The [properties] object of a GeoJSON feature is a dict of strings; the
    table of colours has a text column [district] and a text column
    [color]. *)

Module MapNepal.

Import PyDict.

Local Open Scope string_scope.


(** [geo_data["features"][0]["properties"]], then
    ["DISTRICT" if "DISTRICT" in sample_props else list(sample_props.keys())[0]] *)
Definition name_key (features : list (dict string)) : result string :=
  sample_props <- first features ;;
  if contains sample_props "DISTRICT" then Ok "DISTRICT"
  else first (keys sample_props).





End MapNepal.

(** ** Exact counterparts on lists of reals

    The vectors of the data model are finite; on them the numpy operations
    compute these sums. *)

Definition fins (l : list R) : array := map Fin l.

Definition Rsum (l : list R) : R := fold_right Rplus 0 l.

Definition Rsumsq (l : list R) : R := Rsum (map (fun x => x * x) l).

Fixpoint Rdot (a b : list R) : R :=
  match a, b with
  | x :: a', y :: b' => x * y + Rdot a' b'
  | _, _ => 0
  end.

Definition Rmean (l : list R) : R := Rsum l / INR (List.length l).

(** The least and the largest value of the column [x :: l]. *)
Fixpoint Rminl (x : R) (l : list R) : R :=
  match l with
  | [] => x
  | y :: l' => Rmin x (Rminl y l')
  end.

Fixpoint Rmaxl (x : R) (l : list R) : R :=
  match l with
  | [] => x
  | y :: l' => Rmax x (Rmaxl y l')
  end.

(** The scaled value of [v] in a column of minimum [m] and maximum [M]. *)
Definition Rscale (m M v : R) : R :=
  (v - m) * 100 / (if Rlt_dec (M - m) (10 * Sklearn.eps) then 1 else M - m).

(** A column holds one value; it holds only zeros; it reaches 0 and 100
    and stays between them. *)
Definition constant (c : array) : Prop := forall x y, In x c -> In y c -> x = y.
Definition all_zero (c : array) : Prop := forall y, In y c -> y = Fin 0.
Definition spans_0_100 (c : array) : Prop :=
  In (Fin 0) c /\ In (Fin 100) c /\
  forall y, In y c -> exists r, y = Fin r /\ 0 <= r <= 100.


(** The eleven need columns before scaling, for a frame whose largest
    population density is [p]. *)
Section RawColumns.

Import BuildNeedMatrix.

Variable df : list (damage_row * pop_row).
Variable p : R.

Definition raw_need_cols : list (list R) :=
  [map (fun r => houses_destroyed_pct (fst r)) df;
   map (fun r => water_facilities_damaged_pct (fst r) * (pop_density (snd r) / p)) df;
   map (fun r => food_insecure_households_pct (fst r)) df;
   map (fun r => 100 - road_accessibility_score (fst r)) df;
   map (fun r => houses_destroyed_pct (fst r)
                 * (100 - road_accessibility_score (fst r)) / 100) df;
   map (fun r => health_facilities_damaged_pct (fst r)) df;
   map (fun r => poverty_rate (fst r) * houses_destroyed_pct (fst r) / 100) df;
   map (fun r => 100 - telecom_coverage_pct (fst r)) df;
   map (fun r => displaced_pop_pct (fst r)) df;
   map (fun r => public_infra_damaged_pct (fst r)) df;
   map (fun r => farmland_lost_pct (fst r)) df].

End RawColumns.

(** The scaled column is the raw one under an increasing map. *)
Definition rescaled (raw scaled : array) : Prop :=
  exists f : R -> R,
    (forall v w, v <= w -> f v <= f w) /\
    Forall2 (fun a b => exists v, a = Fin v /\ b = Fin (f v)) raw scaled.

(** The column has two values at least ten machine epsilons apart: the
    scaler does not take it for constant. *)
Definition wide (c : array) : Prop :=
  exists x y, In (Fin x) c /\ In (Fin y) c /\ 10 * Sklearn.eps <= y - x.

(** The scaled column is the raw one less its minimum, times 100. *)
Definition shifted (raw scaled : array) : Prop :=
  exists m, In (Fin m) raw /\
    Forall2 (fun a b => exists v, a = Fin v /\ m <= v /\ b = Fin ((v - m) * 100))
            raw scaled.

(** What the scaler makes of a column: zeros of a constant one, a column
    that reaches 0 and 100 of a wide one, and of any other the distances to
    its minimum times 100. *)
Definition normalised (raw scaled : array) : Prop :=
  (constant raw -> all_zero scaled) /\
  (wide raw -> spans_0_100 scaled) /\
  (~ wide raw -> shifted raw scaled).

(** The labels of [cats] other than [c]. *)
Definition without (c : string) (cats : list string) : list string :=
  filter (fun l => negb (String.eqb l c)) cats.

(** ** app.py: the normalisation of names by the dashboard *)

Module App.

(** [normalize_district_name]: [str(name).strip().lower()] *)
Definition normalize_district_name (name : string) : string :=
  PyStr.lower (PyStr.strip name).




(** [left.merge(right, on='district', how='left')]: every left row, in
    order, with each right row of its district, or with none. *)
Definition merge_left {A B : Type} (key_a : A -> string) (key_b : B -> string)
    (left : list A) (right : list B) : list (A * option B) :=
  flat_map (fun a =>
              match filter (fun b => String.eqb (key_b b) (key_a a)) right with
              | [] => [(a, None)]
              | found => map (fun b => (a, Some b)) found
              end) left.

Definition merge_all_data (damage_df : list BuildNeedMatrix.damage_row)
    (pop_df : list BuildNeedMatrix.pop_row) (scores_df : list GenerateNgoScores.score)
  : list (BuildNeedMatrix.damage_row * option BuildNeedMatrix.pop_row) :=
  merge_left BuildNeedMatrix.district BuildNeedMatrix.pop_district damage_df pop_df.

Definition get_merged_data_with_ngo (damage_df : list BuildNeedMatrix.damage_row)
    (pop_df : list BuildNeedMatrix.pop_row) (scores_df : list GenerateNgoScores.score)
    (selected_ngo : string)
  : list ((BuildNeedMatrix.damage_row * option BuildNeedMatrix.pop_row)
          * option GenerateNgoScores.score) :=
  let ngo_scores :=
    filter (fun r => String.eqb (GenerateNgoScores.NGO r) selected_ngo) scores_df in
  let merged :=
    merge_left BuildNeedMatrix.district BuildNeedMatrix.pop_district damage_df pop_df in
  merge_left (fun m => BuildNeedMatrix.district (fst m)) GenerateNgoScores.score_district
             merged ngo_scores.

(** [y] comes strictly before [x] when sorting in descending order, [nan]
    last. *)
Definition before (y x : float64) : bool :=
  negb (isnan y) && (isnan x || fltb x y).

Fixpoint insert_desc (x : GenerateNgoScores.score) (l : list GenerateNgoScores.score)
  : list GenerateNgoScores.score :=
  match l with
  | [] => [x]
  | y :: l' =>
      if before (GenerateNgoScores.score_fitness y) (GenerateNgoScores.score_fitness x)
      then y :: insert_desc x l'
      else x :: l
  end.

(** [sort_values('fitness_score', ascending=False)]; rows of equal score
    keep the order of the table (pandas leaves their order open). *)
Definition sort_values_desc (l : list GenerateNgoScores.score)
  : list GenerateNgoScores.score :=
  fold_right insert_desc [] l.

Definition get_top_priority_districts (scores_df : list GenerateNgoScores.score)
    (selected_ngo : string) (n : nat) : list GenerateNgoScores.score :=
  let ngo_scores :=
    filter (fun r => String.eqb (GenerateNgoScores.NGO r) selected_ngo) scores_df in
  firstn n (sort_values_desc ngo_scores).

(** [a] may stand before [b] in a frame sorted by descending score: [a] is
    not below [b], and only [nan] follows [nan]. *)
Definition descending (a b : float64) : Prop :=
  fltb a b = false /\ (isnan a = true -> isnan b = true).

(** The order of two rows by their fitness score. *)
Definition by_score (a b : GenerateNgoScores.score) : Prop :=
  descending (GenerateNgoScores.score_fitness a) (GenerateNgoScores.score_fitness b).

End App.

(** ** Tables with a key column *)

(** The key column exists and holds text. *)
Definition keyed (df : DataFrame) (key : string) : Prop :=
  has_col df key = true /\ forall r, In r (rows df) -> exists s, r key = Str s.

(** No row of the table carries the name. *)
Definition unknown (df : DataFrame) (key name : string) : Prop :=
  forall r, In r (rows df) -> r key <> Str name.

(** ** Example inputs *)

Module Examples.

Local Open Scope string_scope.

(** An organisation without any declared capability, and a district. *)
Definition zero_caps : ndarray := [Num (Fin 0); Num (Fin 0)].
Definition some_needs : ndarray := [Num (Fin 3); Num (Fin 4)].

(** Two tables whose category labels do not meet. *)
Definition needs_apart : DataFrame :=
  mkFrame ["district"; "shelter_need"]
          [row_of [("district", Str "Sindhupalchok"); ("shelter_need", Num (Fin 80))]].

Definition ngos_apart : DataFrame :=
  mkFrame ["NGO"; "Emergency Shelter & Housing"]
          [row_of [("NGO", Str "Red Cross");
                   ("Emergency Shelter & Housing", Num (Fin 1))]].

(** One organisation and one district over one shared category. *)
Definition needs_one : DataFrame :=
  mkFrame ["district"; "Emergency Shelter & Housing"]
          [row_of [("district", Str "Sindhupalchok");
                   ("Emergency Shelter & Housing", Num (Fin 80))]].

Definition ngos_one : DataFrame :=
  mkFrame ["NGO"; "Emergency Shelter & Housing"]
          [row_of [("NGO", Str "Red Cross");
                   ("Emergency Shelter & Housing", Num (Fin 1))]].

(** A regressor that answers with the match. *)
Definition echo_model : Model := fun m _ => Ok m.

(** Two districts, one with every house destroyed; equal densities, and a
    table where the only density is zero. *)
Definition gorkha : BuildNeedMatrix.damage_row :=
  BuildNeedMatrix.mkDamage "Gorkha" 100 0 0 100 0 0 100 0 0 0.

Definition kathmandu : BuildNeedMatrix.damage_row :=
  BuildNeedMatrix.mkDamage "Kathmandu" 0 0 0 100 0 0 100 0 0 0.

Definition damage_two : list BuildNeedMatrix.damage_row := [gorkha; kathmandu].

Definition pop_two : list BuildNeedMatrix.pop_row :=
  [BuildNeedMatrix.mkPop "Gorkha" 1; BuildNeedMatrix.mkPop "Kathmandu" 1].

Definition pop_empty_land : list BuildNeedMatrix.pop_row :=
  [BuildNeedMatrix.mkPop "Gorkha" 0].

(** Two districts whose shares of destroyed houses are 1e-15 apart. *)
Definition gorkha_nearly : BuildNeedMatrix.damage_row :=
  BuildNeedMatrix.mkDamage "Gorkha" (1 / 1000000000000000) 0 0 100 0 0 100 0 0 0.

Definition damage_near : list BuildNeedMatrix.damage_row := [gorkha_nearly; kathmandu].

(** An organisation that shelters and a district that lacks food. *)
Definition needs_food : DataFrame :=
  mkFrame ["district"; "Emergency Shelter & Housing"; "Emergency Food Distribution"]
          [row_of [("district", Str "Gorkha");
                   ("Emergency Shelter & Housing", Num (Fin 0));
                   ("Emergency Food Distribution", Num (Fin 100))]].

Definition ngos_shelter : DataFrame :=
  mkFrame ["NGO"; "Emergency Shelter & Housing"; "Emergency Food Distribution"]
          [row_of [("NGO", Str "Habitat for Humanity");
                   ("Emergency Shelter & Housing", Num (Fin 1));
                   ("Emergency Food Distribution", Num (Fin 0))]].

(** The row [compute_fitness.py] writes for them. *)
Definition pair_food : ComputeFitness.pair :=
  ComputeFitness.mkPair (Str "Habitat for Humanity") (Str "Gorkha")
    (Fin 0) (Fin (1 / 2)) (Fin (3 / 20)).

(** A regressor that refuses [nan], as the input check of scikit-learn
    does, and otherwise answers with the heuristic label; an organisation
    without capabilities next to one that shelters. *)
Definition strict_model : Model :=
  fun m u =>
    if isnan m || isnan u then Raise (ValueError "Input X contains NaN.")
    else Ok (fadd (fmul (Fin 0.7) m) (fmul (Fin 0.3) u)).

Definition needs_gorkha : DataFrame :=
  mkFrame ["district"; "Emergency Shelter & Housing"; "Emergency Food Distribution"]
          [row_of [("district", Str "Gorkha");
                   ("Emergency Shelter & Housing", Num (Fin 60));
                   ("Emergency Food Distribution", Num (Fin 80))]].

Definition ngos_idle : DataFrame :=
  mkFrame ["NGO"; "Emergency Shelter & Housing"; "Emergency Food Distribution"]
          [row_of [("NGO", Str "Red Cross");
                   ("Emergency Shelter & Housing", Num (Fin 1));
                   ("Emergency Food Distribution", Num (Fin 0))];
           row_of [("NGO", Str "FAO");
                   ("Emergency Shelter & Housing", Num (Fin 0));
                   ("Emergency Food Distribution", Num (Fin 0))]].

(** The rows [compute_fitness.py] writes for the same tables. *)
Definition pairs_idle : list ComputeFitness.pair :=
  [ComputeFitness.mkPair (Str "Red Cross") (Str "Gorkha")
     (Fin (3 / 5)) (Fin (7 / 10)) (Fin (63 / 100));
   ComputeFitness.mkPair (Str "FAO") (Str "Gorkha")
     (Fin 0) (Fin (7 / 10)) (Fin (21 / 100))].


(** Two tables that share a column of text. *)
Definition needs_notes : DataFrame :=
  mkFrame ["district"; "Emergency Shelter & Housing"; "notes"]
          [row_of [("district", Str "Gorkha");
                   ("Emergency Shelter & Housing", Num (Fin 60));
                   ("notes", Str "epicentre")]].

Definition ngos_notes : DataFrame :=
  mkFrame ["NGO"; "Emergency Shelter & Housing"; "notes"]
          [row_of [("NGO", Str "Red Cross");
                   ("Emergency Shelter & Housing", Num (Fin 1));
                   ("notes", Str "since 1963")]].

(** A district whose needs are equal, each of them 50; [val_even] gives
    its need by category. *)
Definition needs_even : DataFrame :=
  mkFrame ["district"; "Emergency Shelter & Housing"; "Emergency Food Distribution"]
          [row_of [("district", Str "Gorkha");
                   ("Emergency Shelter & Housing", Num (Fin 50));
                   ("Emergency Food Distribution", Num (Fin 50))]].

Definition val_even (l : string) : R := 50.

(** The pickle of [None] and, in two writes, the pickle of [1]. *)
Definition old_pkl : TrainModel.bytes := [Byte.x80; Byte.x04; Byte.x4e; Byte.x2e].
Definition new_chunks : list TrainModel.bytes :=
  [[Byte.x80; Byte.x04]; [Byte.x4b; Byte.x01; Byte.x2e]].

(** A population table that spells the district in lower case. *)
Definition pop_elsewhere : list BuildNeedMatrix.pop_row :=
  [BuildNeedMatrix.mkPop "gorkha" 1].

(** The need matrix of the two districts. *)
Definition matrix_two : BuildNeedMatrix.need_matrix :=
  BuildNeedMatrix.mkNeeds ["Gorkha"; "Kathmandu"]
    (combine BuildNeedMatrix.labels
       (map (fun c => Sklearn.transform_column (Sklearn.fit_column (0, 100) c) c)
            (BuildNeedMatrix.need_cols (BuildNeedMatrix.merge damage_two pop_two)))).

(** A capability table in the long format: two rows for one organisation
    and category, the later one with a positive score, and blanks around the
    names. *)
Definition capabilities_long : list GenerateNgoScores.capability :=
  [GenerateNgoScores.mkCapability " Red Cross" "Emergency Health Response" (Fin 0);
   GenerateNgoScores.mkCapability "Red Cross" "Emergency Health Response " (Fin 3)].

(** The matrix [convert_to_vivaan.py] writes for it. *)
Definition matrix_long : list ConvertToVivaan.matrix_row :=
  [("Red Cross", [0; 0; 0; 0; 0; 1; 0; 0; 0; 0; 0]);
   ("World Vision", [0; 0; 0; 0; 0; 0; 0; 0; 0; 0; 0]);
   ("CARE Nepal", [0; 0; 0; 0; 0; 0; 0; 0; 0; 0; 0]);
   ("UNICEF", [0; 0; 0; 0; 0; 0; 0; 0; 0; 0; 0]);
   ("Oxfam", [0; 0; 0; 0; 0; 0; 0; 0; 0; 0; 0]);
   ("Save the Children", [0; 0; 0; 0; 0; 0; 0; 0; 0; 0; 0]);
   ("Habitat for Humanity", [0; 0; 0; 0; 0; 0; 0; 0; 0; 0; 0]);
   ("WFP", [0; 0; 0; 0; 0; 0; 0; 0; 0; 0; 0]);
   ("FAO", [0; 0; 0; 0; 0; 0; 0; 0; 0; 0; 0])]%Z.

(** A scores file with one row. *)
Definition scores_one : list GenerateNgoScores.score :=
  [GenerateNgoScores.mkScore "Red Cross" "Gorkha" (Fin 100) (Fin 20) (Fin 68)].

End Examples.

(** * Properties *)

(** ** The error monad *)

Lemma bind_ok_inv {A B : Type} (m : result A) (k : A -> result B) (b : B) :
  bind m k = Ok b -> exists a, m = Ok a /\ k a = Ok b.
Proof.
  destruct m as [a|e]; simpl; intros H; [exists a; auto | discriminate].
Qed.

Lemma mapM_ok {A B : Type} (f : A -> result B) (g : A -> B) (l : list A) :
  (forall a, In a l -> f a = Ok (g a)) -> mapM f l = Ok (map g l).
Proof.
  induction l as [|a l IH]; simpl; intros H; [reflexivity|].
  rewrite (H a (or_introl eq_refl)); simpl.
  rewrite IH by (intros; apply H; auto). reflexivity.
Qed.

Lemma mapM_length {A B : Type} (f : A -> result B) (l : list A) (v : list B) :
  mapM f l = Ok v -> List.length v = List.length l.
Proof.
  revert v; induction l as [|a l IH]; simpl; intros v H.
  - inversion H. reflexivity.
  - apply bind_ok_inv in H. destruct H as [b [_ H]].
    apply bind_ok_inv in H. destruct H as [bs [Hbs H]].
    inversion H. simpl. rewrite (IH bs Hbs). reflexivity.
Qed.

Lemma mapM_raise_inv {A B : Type} (f : A -> result B) (l : list A) (e : exn) :
  mapM f l = Raise e -> exists a, In a l /\ f a = Raise e.
Proof.
  induction l as [|a l IH]; simpl; intros H; [discriminate|].
  destruct (f a) as [b|e'] eqn:Ea; cbn [bind] in H.
  - destruct (mapM f l) as [bs|e'] eqn:El; cbn [bind] in H; [discriminate|].
    inversion H; subst e'. destruct (IH eq_refl) as [a' [Hin Ha']].
    exists a'. split; [right; exact Hin | exact Ha'].
  - inversion H; subst e'. exists a. split; [left; reflexivity | exact Ea].
Qed.

(** ** Arithmetic on finite values *)

Lemma fdiv_fin (x y : R) : y <> 0 -> fdiv (Fin x) (Fin y) = Fin (x / y).
Proof.
  intros Hy; simpl. destruct (Req_dec_T y 0); [contradiction | reflexivity].
Qed.

Lemma fdiv_zero_zero : fdiv (Fin 0) (Fin 0) = NaN.
Proof.
  simpl. destruct (Req_dec_T 0 0) as [_|H]; [|lra].
  unfold Rsign. destruct (Rlt_dec 0 0); [lra|]. reflexivity.
Qed.

Lemma feqb_fin (x y : R) : feqb (Fin x) (Fin y) = true <-> x = y.
Proof.
  simpl. destruct (Req_dec_T x y); split; intros; auto; try discriminate; contradiction.
Qed.

Lemma fsqrt_fin (x : R) : 0 <= x -> fsqrt (Fin x) = Fin (sqrt x).
Proof.
  intros Hx; simpl. destruct (Rlt_dec x 0); [lra | reflexivity].
Qed.

Lemma sum_fins (l : list R) : sum (fins l) = Fin (Rsum l).
Proof.
  unfold sum, fins.
  induction l as [|x l IH]; cbn [map fold_right Rsum]; [reflexivity|].
  rewrite IH. reflexivity.
Qed.

Lemma Rsumsq_nonneg (l : list R) : 0 <= Rsumsq l.
Proof.
  induction l as [|x l IH]; unfold Rsumsq in *; simpl; [lra | nra].
Qed.

Lemma sum_squares_fins (l : list R) :
  sum (map (fun x => fmul x x) (fins l)) = Fin (Rsumsq l).
Proof.
  unfold sum, fins, Rsumsq.
  induction l as [|x l IH]; cbn [map fold_right Rsum]; [reflexivity|].
  rewrite IH. reflexivity.
Qed.

Lemma norm_fins (l : list R) : norm (fins l) = Fin (sqrt (Rsumsq l)).
Proof.
  unfold norm. rewrite sum_squares_fins. apply fsqrt_fin, Rsumsq_nonneg.
Qed.

Lemma zip_mul_fins (a b : list R) :
  List.length a = List.length b ->
  zip_mul (fins a) (fins b) = Ok (fins (map (fun p => fst p * snd p) (combine a b))).
Proof.
  revert b; induction a as [|x a IH]; intros [|y b] Hl; simpl in *;
    try discriminate; [reflexivity|].
  rewrite IH by lia. reflexivity.
Qed.

Lemma Rdot_combine (a b : list R) :
  Rsum (map (fun p => fst p * snd p) (combine a b)) = Rdot a b.
Proof.
  revert b; induction a as [|x a IH]; intros [|y b]; simpl; try reflexivity.
  rewrite IH. reflexivity.
Qed.

Lemma dot_fins (a b : list R) :
  List.length a = List.length b -> dot (fins a) (fins b) = Ok (Fin (Rdot a b)).
Proof.
  intros Hl. unfold dot. rewrite zip_mul_fins by assumption. simpl.
  rewrite sum_fins, Rdot_combine. reflexivity.
Qed.

Lemma mean_fins (l : list R) : l <> [] -> mean (fins l) = Fin (Rmean l).
Proof.
  intros Hl. unfold mean, Rmean. rewrite sum_fins.
  unfold fins; rewrite length_map. apply fdiv_fin.
  destruct l; [contradiction|]. apply not_0_INR. simpl; lia.
Qed.

(** ** Deciding comparisons of reals in a goal *)

Ltac decide_reals :=
  repeat match goal with
  | |- context [Req_dec_T ?x ?y] => destruct (Req_dec_T x y); try lra
  | |- context [Rlt_dec ?x ?y] => destruct (Rlt_dec x y); try lra
  | |- context [Rle_dec ?x ?y] => destruct (Rle_dec x y); try lra
  end.

Lemma sqrt_val (x y : R) : 0 <= y -> x = y * y -> sqrt x = y.
Proof. intros Hy ->. apply sqrt_square, Hy. Qed.

(** ** Cauchy-Schwarz, for the range of the cosine *)

Lemma Rsumsq_lin (a b : list R) (t : R) :
  List.length a = List.length b ->
  Rsumsq (map (fun p => fst p * t + snd p) (combine a b))
  = Rsumsq a * t * t + 2 * Rdot a b * t + Rsumsq b.
Proof.
  unfold Rsumsq.
  revert b; induction a as [|x a IH]; intros [|y b] Hl; simpl in *;
    try discriminate; [ring|].
  rewrite IH by lia. ring.
Qed.

Lemma Rsumsq_zero (a : list R) : Rsumsq a = 0 -> forall b, Rdot a b = 0.
Proof.
  unfold Rsumsq.
  induction a as [|x a IH]; intros H [|y b]; simpl in *; try reflexivity.
  pose proof (Rsumsq_nonneg a) as Ha. unfold Rsumsq in Ha.
  assert (x = 0) by nra. assert (Rsum (map (fun x => x * x) a) = 0) by nra.
  rewrite IH by assumption. subst; ring.
Qed.

Lemma Rdot_comm (a b : list R) : Rdot a b = Rdot b a.
Proof.
  revert b; induction a as [|x a IH]; intros [|y b]; simpl; try reflexivity.
  rewrite IH. ring.
Qed.

Lemma cauchy_schwarz (a b : list R) :
  List.length a = List.length b ->
  Rdot a b * Rdot a b <= Rsumsq a * Rsumsq b.
Proof.
  intros Hl.
  pose proof (Rsumsq_nonneg a) as Ha.
  pose proof (Rsumsq_nonneg b) as Hb.
  destruct (Req_dec_T (Rsumsq a) 0) as [Hz|Hnz].
  - rewrite (Rsumsq_zero a Hz b), Hz. lra.
  - pose proof (Rsumsq_nonneg (map (fun p => fst p * (- Rdot a b / Rsumsq a) + snd p)
                                    (combine a b))) as Hq.
    rewrite Rsumsq_lin in Hq by assumption.
    assert (HA : 0 < Rsumsq a) by lra.
    assert (E : Rsumsq a * (- Rdot a b / Rsumsq a) * (- Rdot a b / Rsumsq a)
                + 2 * Rdot a b * (- Rdot a b / Rsumsq a) + Rsumsq b
                = (Rsumsq a * Rsumsq b - Rdot a b * Rdot a b) / Rsumsq a)
      by (field; lra).
    rewrite E in Hq.
    assert (H : 0 <= (Rsumsq a * Rsumsq b - Rdot a b * Rdot a b) / Rsumsq a * Rsumsq a)
      by (apply Rmult_le_pos; lra).
    replace ((Rsumsq a * Rsumsq b - Rdot a b * Rdot a b) / Rsumsq a * Rsumsq a)
      with (Rsumsq a * Rsumsq b - Rdot a b * Rdot a b) in H by (field; lra).
    lra.
Qed.

Lemma cosine_ratio_bounds (a b : list R) :
  List.length a = List.length b ->
  sqrt (Rsumsq a) * sqrt (Rsumsq b) <> 0 ->
  -1 <= Rdot a b / (sqrt (Rsumsq a) * sqrt (Rsumsq b)) <= 1.
Proof.
  intros Hl Hn.
  pose proof (cauchy_schwarz a b Hl) as CS.
  pose proof (Rsumsq_nonneg a) as Ha.
  pose proof (Rsumsq_nonneg b) as Hb.
  pose proof (sqrt_pos (Rsumsq a)) as Sa.
  pose proof (sqrt_pos (Rsumsq b)) as Sb.
  set (n := sqrt (Rsumsq a) * sqrt (Rsumsq b)) in *.
  assert (Hn0 : 0 < n) by (unfold n in *; nra).
  assert (Hnn : n * n = Rsumsq a * Rsumsq b).
  { unfold n. pose proof (sqrt_sqrt _ Ha). pose proof (sqrt_sqrt _ Hb). nra. }
  assert (Hd : - n <= Rdot a b <= n) by nra.
  split.
  - apply Rmult_le_reg_r with n; [assumption|].
    unfold Rdiv. rewrite Rmult_assoc, Rinv_l by lra. lra.
  - apply Rmult_le_reg_r with n; [assumption|].
    unfold Rdiv. rewrite Rmult_assoc, Rinv_l by lra. lra.
Qed.

(** ** The two cosines *)

Lemma numeric_nums (x : array) : numeric (map Num x) = Ok x.
Proof.
  unfold numeric. rewrite (mapM_ok _ (fun c => match c with Num v => v | Str _ => NaN end)).
  - rewrite map_map. simpl. rewrite map_id. reflexivity.
  - intros c Hc. apply in_map_iff in Hc. destruct Hc as [v [<- _]]. reflexivity.
Qed.

Lemma astype_float_nums (x : array) : astype_float (map Num x) = Ok x.
Proof.
  unfold astype_float.
  rewrite (mapM_ok _ (fun c => match c with Num v => v | Str _ => NaN end)).
  - rewrite map_map. simpl. rewrite map_id. reflexivity.
  - intros c Hc. apply in_map_iff in Hc. destruct Hc as [v [<- _]]. reflexivity.
Qed.

(** The unguarded quotient of [predict.py] and [generate_all_scores.py] on
    finite vectors. *)
Lemma predict_cosine_fins (a b : list R) :
  List.length a = List.length b ->
  Predict.cosine (map Num (fins a)) (map Num (fins b))
  = Ok (fdiv (Fin (Rdot a b)) (Fin (sqrt (Rsumsq a) * sqrt (Rsumsq b)))).
Proof.
  intros Hl. unfold Predict.cosine. rewrite !numeric_nums. cbn [bind].
  rewrite dot_fins by assumption. rewrite !norm_fins. reflexivity.
Qed.

Lemma generate_cosine_is_predict_cosine (a b : ndarray) :
  GenerateAllScores.cosine a b = Predict.cosine a b.
Proof. reflexivity. Qed.

(** A vector of norm zero makes the unguarded quotient [0 / 0]. *)
Lemma predict_cosine_zero_norm (a b : list R) :
  List.length a = List.length b ->
  Rsumsq a = 0 \/ Rsumsq b = 0 ->
  Predict.cosine (map Num (fins a)) (map Num (fins b)) = Ok NaN.
Proof.
  intros Hl Hz. rewrite predict_cosine_fins by assumption. f_equal.
  assert (Hd : Rdot a b = 0).
  { destruct Hz as [Hz|Hz]; [|rewrite Rdot_comm]; apply Rsumsq_zero; assumption. }
  assert (Hn : sqrt (Rsumsq a) * sqrt (Rsumsq b) = 0).
  { destruct Hz as [Hz|Hz]; rewrite Hz, sqrt_0; ring. }
  rewrite Hd, Hn. apply fdiv_zero_zero.
Qed.

(** The guard of [compute_fitness.py]: a zero norm gives exactly 0. *)
Lemma compute_cosine_zero_norm (a b : array) :
  norm a = Fin 0 \/ norm b = Fin 0 -> ComputeFitness.cosine a b = Ok (Fin 0).
Proof.
  intros H. unfold ComputeFitness.cosine.
  assert (E : feqb (norm a) (Fin 0) || feqb (norm b) (Fin 0) = true).
  { apply orb_true_iff. destruct H as [H|H]; rewrite H; [left|right];
      apply feqb_fin; reflexivity. }
  rewrite E. reflexivity.
Qed.

Lemma dashboard_cosine_zero_norm (a b : array) :
  norm a = Fin 0 \/ norm b = Fin 0 -> Dashboard.cosine a b = Ok (Fin 0).
Proof. exact (compute_cosine_zero_norm a b). Qed.

Lemma norm_zero_caps : norm (fins [0; 0]) = Fin 0.
Proof.
  rewrite norm_fins. f_equal. apply sqrt_val; [lra|].
  unfold Rsumsq; simpl; ring.
Qed.

(** C2 (code defect).  The match is meant to be exactly 0 when a vector has
    norm zero.  At an organisation with no capability, [[0, 0]], against the
    needs [[3, 4]]: the [cosine] of [predict.py] and the one of
    [generate_all_scores.py] return [nan] (the quotient 0 / 0), while
    the guarded [cosine] of [compute_fitness.py] and of the web endpoint
    return 0. *)
Theorem predict_cosine_zero_capability_is_nan :
  norm (fins [0; 0]) = Fin 0 /\
  Predict.cosine Examples.zero_caps Examples.some_needs = Ok NaN /\
  GenerateAllScores.cosine Examples.zero_caps Examples.some_needs = Ok NaN /\
  ComputeFitness.cosine (fins [0; 0]) (fins [3; 4]) = Ok (Fin 0) /\
  Dashboard.cosine (fins [0; 0]) (fins [3; 4]) = Ok (Fin 0).
Proof.
  assert (Hp : Predict.cosine Examples.zero_caps Examples.some_needs = Ok NaN).
  { change Examples.zero_caps with (map Num (fins [0; 0])).
    change Examples.some_needs with (map Num (fins [3; 4])).
    apply predict_cosine_zero_norm; [reflexivity|].
    left. unfold Rsumsq; simpl; ring. }
  repeat split.
  - apply norm_zero_caps.
  - exact Hp.
  - rewrite generate_cosine_is_predict_cosine. exact Hp.
  - apply compute_cosine_zero_norm. left. apply norm_zero_caps.
  - apply dashboard_cosine_zero_norm. left. apply norm_zero_caps.
Qed.

(** ** Looking a name up *)

Lemma shared_cats_in_needs needs ngos c :
  In c (shared_cats needs ngos) -> has_col needs c = true.
Proof.
  unfold shared_cats. intros H. apply filter_In in H. destruct H as [H _].
  unfold has_col. apply existsb_exists. exists c. split; [assumption|apply String.eqb_refl].
Qed.

Lemma shared_cats_in_ngos needs ngos c :
  In c (shared_cats needs ngos) -> has_col ngos c = true.
Proof.
  unfold shared_cats. intros H. apply filter_In in H. destruct H as [_ H].
  apply andb_true_iff in H. tauto.
Qed.

Lemma select_ok df r cats :
  (forall c, In c cats -> has_col df c = true) -> select df r cats = Ok (map r cats).
Proof.
  intros H. unfold select.
  destruct (find (fun c => negb (has_col df c)) cats) as [c|] eqn:E; [|reflexivity].
  apply find_some in E. destruct E as [Hin Hc]. rewrite (H c Hin) in Hc. discriminate.
Qed.

Lemma loc_eq_ok df key name cats :
  has_col df key = true ->
  (forall c, In c cats -> has_col df c = true) ->
  loc_eq df key name cats
  = Ok (map (fun r => map r cats) (filter (fun r => cell_eq_str (r key) name) (rows df))).
Proof.
  intros Hk Hc. unfold loc_eq, col. rewrite Hk. cbn [bind].
  apply mapM_ok. intros r _. apply select_ok, Hc.
Qed.

Lemma cell_eq_str_true v name : cell_eq_str v name = true <-> v = Str name.
Proof.
  destruct v as [x|s]; simpl; split; intros H; try discriminate.
  - apply String.eqb_eq in H. subst; reflexivity.
  - inversion H. apply String.eqb_refl.
Qed.

Lemma filter_unknown (l : list Series) key name :
  (forall r, In r l -> r key <> Str name) ->
  filter (fun r => cell_eq_str (r key) name) l = [].
Proof.
  induction l as [|r l IH]; intros H; simpl; [reflexivity|].
  destruct (cell_eq_str (r key) name) eqn:E.
  - apply cell_eq_str_true in E. exfalso. apply (H r); simpl; auto.
  - apply IH. intros r' Hr'. apply H. simpl; auto.
Qed.

Lemma isin_spec df key name b :
  isin df key name = Ok b ->
  (b = true <-> exists r, In r (rows df) /\ r key = Str name).
Proof.
  unfold isin, col. destruct (has_col df key); [|discriminate]. cbn [bind].
  intros E. inversion E as [Hb]. clear E.
  rewrite existsb_exists. split.
  - intros [c [Hc Hn]]. apply in_map_iff in Hc. destruct Hc as [r [<- Hr]].
    exists r. split; [assumption|]. apply cell_eq_str_true, Hn.
  - intros [r [Hr Hn]]. exists (r key). split.
    + apply in_map_iff. exists r; auto.
    + apply cell_eq_str_true, Hn.
Qed.

Lemma isin_ok df key name :
  has_col df key = true -> exists b, isin df key name = Ok b.
Proof.
  intros Hk. unfold isin, col. rewrite Hk. cbn [bind]. eexists; reflexivity.
Qed.

Lemma text_ok (v : list cell) :
  (forall c, In c v -> exists s, c = Str s) -> exists names, text v = Ok names.
Proof.
  unfold text. induction v as [|c v IH]; intros H; simpl.
  - exists []. reflexivity.
  - destruct (H c (or_introl eq_refl)) as [s ->].
    destruct IH as [names E]; [intros; apply H; simpl; auto|].
    cbn [bind]. rewrite E. cbn [bind]. eexists; reflexivity.
Qed.

Lemma firstn_incl {A : Type} (n : nat) (l : list A) (x : A) :
  In x (firstn n l) -> In x l.
Proof.
  revert l; induction n as [|n IH]; intros [|y l]; simpl; try tauto.
  intros [H|H]; [left; assumption | right; apply IH, H].
Qed.

Lemma head10_ok df key :
  keyed df key -> exists names, Predict.head10 df key = Ok names.
Proof.
  intros [Hk Ht]. unfold Predict.head10, col. rewrite Hk. cbn [bind].
  destruct (text_ok (firstn 10 (map (fun r => r key) (rows df)))) as [names E].
  - intros c Hc. apply firstn_incl in Hc. apply in_map_iff in Hc.
    destruct Hc as [r [<- Hr]]. apply Ht, Hr.
  - rewrite E. cbn [bind]. eexists; reflexivity.
Qed.

Lemma lookup_unknown df key name cats :
  has_col df key = true ->
  (forall c, In c cats -> has_col df c = true) ->
  unknown df key name ->
  (v <- loc_eq df key name cats ;; first v) = Raise IndexError.
Proof.
  intros Hk Hc Hu. rewrite loc_eq_ok by assumption.
  rewrite filter_unknown by exact Hu. reflexivity.
Qed.

Lemma lookup_ok_or_index_error df key name cats :
  has_col df key = true ->
  (forall c, In c cats -> has_col df c = true) ->
  (v <- loc_eq df key name cats ;; first v) = Raise IndexError \/
  exists a, (v <- loc_eq df key name cats ;; first v) = Ok a.
Proof.
  intros Hk Hc. rewrite loc_eq_ok by assumption. cbn [bind].
  destruct (filter _ _); simpl; [left; reflexivity | right; eexists; reflexivity].
Qed.

(** C5.  A query that names an organisation absent from the capability table,
    or a district absent from the need table, ends in the error of the
    unknown name and never in a fitness value: [predict_fitness] raises the
    [IndexError] of the empty selection (which the web endpoint reports as
    "Unknown NGO or district."), and the command line prints the not-found
    message and exits with status 1. *)
Theorem unknown_name_is_an_error (model : Model) (needs ngos : DataFrame)
    (ngo_name district_name prog : string) :
  keyed ngos "NGO" -> keyed needs "district" ->
  unknown ngos "NGO" ngo_name \/ unknown needs "district" district_name ->
  Predict.predict_fitness model needs ngos ngo_name district_name = Raise IndexError /\
  exists names,
    Predict.main model needs ngos [prog; ngo_name; district_name]
    = Predict.SysExit 1 [Predict.NgoNotFound ngo_name; Predict.AvailableNgos names] \/
    Predict.main model needs ngos [prog; ngo_name; district_name]
    = Predict.SysExit 1 [Predict.DistrictNotFound district_name; Predict.AvailableDistricts names].
Proof.
  intros Kn Kd Hu.
  pose proof (shared_cats_in_ngos needs ngos) as Cn.
  pose proof (shared_cats_in_needs needs ngos) as Cd.
  split.
  - unfold Predict.predict_fitness, Predict.cats.
    destruct Hu as [Hu|Hu].
    + rewrite (lookup_unknown ngos) by (try apply Kn; assumption). reflexivity.
    + destruct (lookup_ok_or_index_error ngos "NGO" ngo_name (shared_cats needs ngos))
        as [E|[a E]]; try apply Kn; try assumption; rewrite E; [reflexivity|].
      cbn [bind].
      rewrite (lookup_unknown needs) by (try apply Kd; assumption). reflexivity.
  - unfold Predict.main.
    destruct (isin_ok ngos "NGO" ngo_name (proj1 Kn)) as [b Eb]. rewrite Eb.
    cbn [Predict.try_]. pose proof (isin_spec _ _ _ _ Eb) as Sb.
    destruct b; cbn [negb].
    + destruct Hu as [Hu|Hu].
      { exfalso. destruct (proj1 Sb eq_refl) as [r [Hr Hn]]. exact (Hu r Hr Hn). }
      destruct (isin_ok needs "district" district_name (proj1 Kd)) as [b' Eb'].
      rewrite Eb'. cbn [Predict.try_]. pose proof (isin_spec _ _ _ _ Eb') as Sb'.
      destruct b'; cbn [negb].
      { exfalso. destruct (proj1 Sb' eq_refl) as [r [Hr Hn]]. exact (Hu r Hr Hn). }
      destruct (head10_ok needs "district" Kd) as [names E]. rewrite E.
      exists names. right. reflexivity.
    + destruct (head10_ok ngos "NGO" Kn) as [names E]. rewrite E.
      exists names. left. reflexivity.
Qed.

Lemma unknown_name_is_an_error_witness :
  Predict.predict_fitness Examples.echo_model Examples.needs_one Examples.ngos_one
    "UNICEF" "Sindhupalchok" = Raise IndexError /\
  exists names,
    Predict.main Examples.echo_model Examples.needs_one Examples.ngos_one
      ["predict.py"; "UNICEF"; "Sindhupalchok"]%string
    = Predict.SysExit 1 [Predict.NgoNotFound "UNICEF"; Predict.AvailableNgos names] \/
    Predict.main Examples.echo_model Examples.needs_one Examples.ngos_one
      ["predict.py"; "UNICEF"; "Sindhupalchok"]%string
    = Predict.SysExit 1 [Predict.DistrictNotFound "Sindhupalchok";
                         Predict.AvailableDistricts names].
Proof.
  apply unknown_name_is_an_error.
  - split; [reflexivity|]. intros r [<-|[]]. eexists; reflexivity.
  - split; [reflexivity|]. intros r [<-|[]]. eexists; reflexivity.
  - left. intros r [<-|[]]. discriminate.
Defined.

Lemma filter_nil_unknown (l : list Series) (key name : string) :
  filter (fun r => cell_eq_str (r key) name) l = [] ->
  forall r, In r l -> r key <> Str name.
Proof.
  intros E r Hr Hn.
  assert (H : In r (filter (fun r => cell_eq_str (r key) name) l)).
  { apply filter_In. split; [exact Hr | apply cell_eq_str_true, Hn]. }
  rewrite E in H. destruct H.
Qed.

(** A lookup raises [IndexError] only when no row carries the name. *)
Lemma lookup_index_error (df : DataFrame) (key name : string) (cats : list string) :
  (v <- loc_eq df key name cats ;; first v) = Raise IndexError ->
  unknown df key name.
Proof.
  unfold loc_eq, col. destruct (has_col df key); cbn [bind]; [|discriminate].
  destruct (mapM (fun r => select df r cats)
                 (filter (fun r => cell_eq_str (r key) name) (rows df)))
    as [v|e] eqn:Ev; cbn [bind].
  - intros Hf. destruct v as [|a v]; [|discriminate].
    apply mapM_length in Ev.
    unfold unknown. apply filter_nil_unknown.
    destruct (filter (fun r => cell_eq_str (r key) name) (rows df));
      [reflexivity|discriminate].
  - intros H. inversion H; subst e.
    apply mapM_raise_inv in Ev. destruct Ev as [r [_ Hs]].
    unfold select in Hs. destruct (find _ cats); discriminate.
Qed.

Lemma zip_mul_raise (a b : array) (e : exn) :
  zip_mul a b = Raise e -> e <> IndexError.
Proof.
  revert b; induction a as [|x a IH]; intros [|y b]; simpl; intros H;
    try discriminate; try (inversion H; discriminate).
  destruct (zip_mul a b) as [r|e'] eqn:E; cbn [bind] in H; [discriminate|].
  inversion H; subst e'. apply (IH b). exact E.
Qed.

Lemma numeric_raise (a : ndarray) (e : exn) : numeric a = Raise e -> e = TypeError.
Proof.
  intros H. apply mapM_raise_inv in H. destruct H as [c [_ Hc]].
  destruct c; inversion Hc; reflexivity.
Qed.

Lemma predict_cosine_raise (a b : ndarray) (e : exn) :
  Predict.cosine a b = Raise e -> e <> IndexError.
Proof.
  unfold Predict.cosine.
  destruct (numeric a) as [x|e1] eqn:Ea; cbn [bind];
    [|intros H; inversion H; subst; rewrite (numeric_raise _ _ Ea); discriminate].
  destruct (numeric b) as [y|e2] eqn:Eb; cbn [bind];
    [|intros H; inversion H; subst; rewrite (numeric_raise _ _ Eb); discriminate].
  unfold dot. destruct (zip_mul x y) as [p|e3] eqn:Ez; cbn [bind]; [discriminate|].
  intros H; inversion H; subst. apply (zip_mul_raise _ _ _ Ez).
Qed.

(** Conversely, as long as the model does not raise it itself,
    [IndexError] from [predict_fitness] means that one of the two names is
    unknown. *)
Lemma index_error_is_an_unknown_name (model : Model) (needs ngos : DataFrame)
    (ngo_name district_name : string) :
  (forall m u, model m u <> Raise IndexError) ->
  Predict.predict_fitness model needs ngos ngo_name district_name = Raise IndexError ->
  unknown ngos "NGO" ngo_name \/ unknown needs "district" district_name.
Proof.
  intros Hmodel. unfold Predict.predict_fitness.
  destruct (v <- loc_eq ngos "NGO" ngo_name (Predict.cats needs ngos) ;; first v)
    as [ngo_vec|e] eqn:En; cbn [bind].
  - destruct (v <- loc_eq needs "district" district_name (Predict.cats needs ngos) ;; first v)
      as [reg_vec|e] eqn:Ed; cbn [bind].
    + destruct (Predict.cosine ngo_vec reg_vec) as [m|e] eqn:Ec; cbn [bind].
      * unfold Predict.urgency_of.
        destruct (numeric reg_vec) as [n|e] eqn:Eu; cbn [bind].
        -- intros H. exfalso. exact (Hmodel _ _ H).
        -- intros H. inversion H; subst. apply numeric_raise in Eu. discriminate.
      * intros H. inversion H; subst. exfalso.
        exact (predict_cosine_raise _ _ _ Ec eq_refl).
    + intros H. inversion H; subst. right.
      apply lookup_index_error with (cats := Predict.cats needs ngos). exact Ed.
  - intros H. inversion H; subst. left.
    apply lookup_index_error with (cats := Predict.cats needs ngos). exact En.
Qed.

(** The web endpoint turns the same [IndexError] into its own error. *)
Lemma dashboard_unknown_ngo (model : Model) (needs ngos : DataFrame)
    (ngo district : string) :
  shared_cats needs ngos <> [] ->
  has_col ngos "NGO" = true ->
  unknown ngos "NGO" ngo ->
  ngo <> EmptyString -> district <> EmptyString ->
  Dashboard.predict model needs ngos (Some ngo) (Some district)
  = Ok (Dashboard.Error "Unknown NGO or district." 404).
Proof.
  intros Hc Hk Hu Hn Hd. unfold Dashboard.predict.
  destruct ngo as [|a ngo]; [contradiction|].
  destruct district as [|b district]; [contradiction|].
  cbn [Dashboard.falsy orb].
  destruct (shared_cats needs ngos) as [|c cats] eqn:E; [contradiction|].
  unfold Dashboard.lookup.
  pose proof (shared_cats_in_ngos needs ngos) as Cn. rewrite E in Cn.
  rewrite loc_eq_ok by assumption.
  rewrite filter_unknown by exact Hu. reflexivity.
Qed.

(** ** No shared category *)

Lemma predict_cosine_empty : Predict.cosine [] [] = Ok NaN.
Proof.
  change (@nil cell) with (map Num (fins [])).
  apply predict_cosine_zero_norm; [reflexivity | left; reflexivity].
Qed.

Lemma mean_urgency_empty : mean_urgency [] = NaN.
Proof.
  unfold mean_urgency, mean. simpl List.length. simpl INR.
  unfold sum; simpl fold_right. rewrite fdiv_zero_zero. reflexivity.
Qed.

Lemma calculate_without_overlap :
  GenerateAllScores.calculate_match_and_urgency Examples.needs_apart Examples.ngos_apart
    "Red Cross" "Sindhupalchok" = Ok (NaN, NaN).
Proof.
  unfold GenerateAllScores.calculate_match_and_urgency.
  change (GenerateAllScores.cats Examples.needs_apart Examples.ngos_apart) with (@nil string).
  change (v <- loc_eq Examples.ngos_apart "NGO" "Red Cross" [] ;; first v) with (Ok (@nil cell)).
  change (v <- loc_eq Examples.needs_apart "district" "Sindhupalchok" [] ;; first v)
    with (Ok (@nil cell)).
  cbn [bind]. rewrite generate_cosine_is_predict_cosine, predict_cosine_empty.
  cbn [bind numeric mapM]. rewrite mean_urgency_empty. reflexivity.
Qed.

(** C6 (code defect).  With no category shared by the two tables scoring is
    meant to fail.  On two tables whose labels do not meet,
    [compute_fitness.py] raises and the web endpoint answers with its
    error, but [predict_fitness] of [predict.py] and
    [calculate_match_and_urgency] of [generate_all_scores.py] go on: they
    compute match [nan] and urgency [nan] from empty vectors and hand both
    to the model. *)
Theorem predict_without_overlap_scores_nan (model : Model) :
  shared_cats Examples.needs_apart Examples.ngos_apart = [] /\
  GenerateAllScores.calculate_match_and_urgency Examples.needs_apart Examples.ngos_apart
    "Red Cross" "Sindhupalchok" = Ok (NaN, NaN) /\
  Predict.predict_fitness model Examples.needs_apart Examples.ngos_apart "Red Cross" "Sindhupalchok"
  = model NaN NaN /\
  ComputeFitness.run Examples.needs_apart Examples.ngos_apart
  = Raise (ValueError "No overlapping categories - check CSV headers!") /\
  Dashboard.predict model Examples.needs_apart Examples.ngos_apart (Some "Red Cross"%string)
    (Some "Sindhupalchok"%string)
  = Ok (Dashboard.Error "No overlapping categories between needs and NGO capabilities." 500).
Proof.
  split; [reflexivity|]. split; [apply calculate_without_overlap|].
  split; [|split; reflexivity].
  unfold Predict.predict_fitness.
  change (Predict.cats Examples.needs_apart Examples.ngos_apart) with (@nil string).
  change (v <- loc_eq Examples.ngos_apart "NGO" "Red Cross" [] ;; first v) with (Ok (@nil cell)).
  change (v <- loc_eq Examples.needs_apart "district" "Sindhupalchok" [] ;; first v)
    with (Ok (@nil cell)).
  cbn [bind]. rewrite predict_cosine_empty. cbn [bind].
  unfold Predict.urgency_of. cbn [numeric mapM bind]. rewrite mean_urgency_empty.
  reflexivity.
Qed.

(** ** Names are compared as they are *)

Lemma mapM_ok_inv {A B : Type} (f : A -> result B) (l : list A) (v : list B) :
  mapM f l = Ok v -> Forall2 (fun a b => f a = Ok b) l v.
Proof.
  revert v; induction l as [|a l IH]; simpl; intros v H.
  - inversion H. constructor.
  - apply bind_ok_inv in H. destruct H as [b [Hb H]].
    apply bind_ok_inv in H. destruct H as [bs [Hbs H]].
    inversion H. constructor; [assumption | apply IH, Hbs].
Qed.

Lemma select_ok_inv (df : DataFrame) (r : Series) (cats : list string) (a : ndarray) :
  select df r cats = Ok a -> a = map r cats.
Proof.
  unfold select. destruct (find _ cats); [discriminate|]. intros H; inversion H; reflexivity.
Qed.

(** A successful lookup returns the cells of a row that carries the name. *)
Lemma lookup_row (df : DataFrame) (key name : string) (cats : list string) (a : ndarray) :
  (v <- loc_eq df key name cats ;; first v) = Ok a ->
  exists r, In r (rows df) /\ r key = Str name /\ a = map r cats.
Proof.
  intros H. apply bind_ok_inv in H. destruct H as [v [Hv Hf]].
  unfold loc_eq in Hv. apply bind_ok_inv in Hv. destruct Hv as [_ [_ Hv]].
  apply mapM_ok_inv in Hv.
  remember (filter (fun r => cell_eq_str (r key) name) (rows df)) as fl eqn:E.
  destruct Hv as [|r a' l v' Hs _]; [discriminate|].
  simpl in Hf. inversion Hf; subst a'.
  assert (Hr : In r (filter (fun r => cell_eq_str (r key) name) (rows df)))
    by (rewrite <- E; left; reflexivity).
  apply filter_In in Hr. destruct Hr as [Hr Hn].
  exists r. split; [assumption|]. split; [apply cell_eq_str_true, Hn|].
  apply select_ok_inv in Hs. exact Hs.
Qed.

Lemma calculate_ok_inv (needs ngos : DataFrame) (ngo_name district_name : string)
    (m u : float64) :
  GenerateAllScores.calculate_match_and_urgency needs ngos ngo_name district_name
  = Ok (m, u) ->
  exists ngo reg N,
    In ngo (rows ngos) /\ ngo "NGO"%string = Str ngo_name /\
    In reg (rows needs) /\ reg "district"%string = Str district_name /\
    Predict.cosine (map ngo (shared_cats needs ngos)) (map reg (shared_cats needs ngos))
    = Ok m /\
    numeric (map reg (shared_cats needs ngos)) = Ok N /\
    u = mean_urgency N.
Proof.
  unfold GenerateAllScores.calculate_match_and_urgency, GenerateAllScores.cats.
  intros H.
  apply bind_ok_inv in H. destruct H as [ngo_vec [Hn H]].
  apply bind_ok_inv in H. destruct H as [reg_vec [Hd H]].
  apply bind_ok_inv in H. destruct H as [m' [Hm H]].
  apply bind_ok_inv in H. destruct H as [N [HN H]].
  inversion H; subst m' u.
  apply lookup_row in Hn. destruct Hn as [ngo [Hn1 [Hn2 ->]]].
  apply lookup_row in Hd. destruct Hd as [reg [Hd1 [Hd2 ->]]].
  exists ngo, reg, N. repeat split; assumption.
Qed.

Lemma lookup_ok_inv (df : DataFrame) (key name : string) (cats : list string)
    (a : ndarray) :
  (v <- loc_eq df key name cats ;; first v) = Ok a ->
  exists r, In r (rows df) /\ r key = Str name.
Proof.
  intros H. apply bind_ok_inv in H. destruct H as [v [Hv Hf]].
  unfold loc_eq in Hv. apply bind_ok_inv in Hv. destruct Hv as [_ [_ Hv]].
  apply mapM_length in Hv.
  destruct (filter (fun r => cell_eq_str (r key) name) (rows df)) as [|r l] eqn:E.
  - destruct v; [discriminate | discriminate].
  - assert (Hr : In r (filter (fun r => cell_eq_str (r key) name) (rows df)))
      by (rewrite E; left; reflexivity).
    apply filter_In in Hr. destruct Hr as [Hr Hn].
    exists r. split; [assumption | apply cell_eq_str_true, Hn].
Qed.

Lemma predict_fitness_factors (model : Model) (needs ngos : DataFrame)
    (ngo_name region_name : string) :
  Predict.predict_fitness model needs ngos ngo_name region_name
  = (mu <- GenerateAllScores.calculate_match_and_urgency needs ngos ngo_name region_name ;;
     model (fst mu) (snd mu)).
Proof.
  unfold Predict.predict_fitness, GenerateAllScores.calculate_match_and_urgency,
    Predict.cats, GenerateAllScores.cats, Predict.urgency_of.
  destruct (v <- loc_eq ngos "NGO" ngo_name (shared_cats needs ngos) ;; first v)
    as [ngo_vec|e]; [|reflexivity].
  destruct (v <- loc_eq needs "district" region_name (shared_cats needs ngos) ;; first v)
    as [reg_vec|e]; [|reflexivity].
  cbn [bind].
  change (GenerateAllScores.cosine ngo_vec reg_vec) with (Predict.cosine ngo_vec reg_vec).
  destruct (Predict.cosine ngo_vec reg_vec) as [m|e]; [|reflexivity].
  cbn [bind]. destruct (numeric reg_vec) as [n|e]; reflexivity.
Qed.

(** C9 (as amended).  Names are matched by equality of strings.  When
    [calculate_match_and_urgency] returns, or [predict_fitness] of
    [predict.py] or of [generate_all_scores.py] does, a row of the
    capability table carries exactly the queried organisation name and a row
    of the need table exactly the queried district name, and the match and
    the urgency are computed from the cells of such rows; for a name that no
    row carries exactly, all three raise [IndexError] (the tables having
    their key columns). *)
Theorem lookup_is_exact (model : Model) (needs ngos : DataFrame)
    (ngo_name district_name : string) :
  has_col ngos "NGO" = true -> has_col needs "district" = true ->
  (forall m u,
     GenerateAllScores.calculate_match_and_urgency needs ngos ngo_name district_name
     = Ok (m, u) ->
     exists ngo reg N,
       In ngo (rows ngos) /\ ngo "NGO"%string = Str ngo_name /\
       In reg (rows needs) /\ reg "district"%string = Str district_name /\
       GenerateAllScores.cosine (map ngo (shared_cats needs ngos))
                                (map reg (shared_cats needs ngos)) = Ok m /\
       numeric (map reg (shared_cats needs ngos)) = Ok N /\
       u = mean_urgency N) /\
  (forall score,
     Predict.predict_fitness model needs ngos ngo_name district_name = Ok score \/
     GenerateAllScores.predict_fitness model needs ngos ngo_name district_name = Ok score ->
     exists ngo reg m N,
       In ngo (rows ngos) /\ ngo "NGO"%string = Str ngo_name /\
       In reg (rows needs) /\ reg "district"%string = Str district_name /\
       Predict.cosine (map ngo (shared_cats needs ngos))
                      (map reg (shared_cats needs ngos)) = Ok m /\
       numeric (map reg (shared_cats needs ngos)) = Ok N /\
       model m (mean_urgency N) = Ok score) /\
  (unknown ngos "NGO" ngo_name \/ unknown needs "district" district_name ->
   GenerateAllScores.calculate_match_and_urgency needs ngos ngo_name district_name
   = Raise IndexError /\
   GenerateAllScores.predict_fitness model needs ngos ngo_name district_name
   = Raise IndexError /\
   Predict.predict_fitness model needs ngos ngo_name district_name = Raise IndexError).
Proof.
  intros Kn Kd.
  pose proof (shared_cats_in_ngos needs ngos) as Cn.
  pose proof (shared_cats_in_needs needs ngos) as Cd.
  assert (Hcalc : unknown ngos "NGO" ngo_name \/ unknown needs "district" district_name ->
                  GenerateAllScores.calculate_match_and_urgency needs ngos
                    ngo_name district_name = Raise IndexError).
  { intros Hu. unfold GenerateAllScores.calculate_match_and_urgency, GenerateAllScores.cats.
    destruct Hu as [Hu|Hu].
    - rewrite (lookup_unknown ngos "NGO" ngo_name _ Kn Cn Hu). reflexivity.
    - rewrite (lookup_unknown needs "district" district_name _ Kd Cd Hu).
      destruct (lookup_ok_or_index_error ngos "NGO" ngo_name (shared_cats needs ngos) Kn Cn)
        as [E|[a E]]; rewrite E; reflexivity. }
  split; [|split].
  - intros m u H. apply calculate_ok_inv in H.
    destruct H as [ngo [reg [N H]]]. exists ngo, reg, N. exact H.
  - intros score H.
    assert (H' : (mu <- GenerateAllScores.calculate_match_and_urgency needs ngos
                          ngo_name district_name ;; model (fst mu) (snd mu)) = Ok score).
    { destruct H as [H|H]; [rewrite predict_fitness_factors in H|]; exact H. }
    apply bind_ok_inv in H'. destruct H' as [[m u] [Hc Hm]]. cbn [fst snd] in Hm.
    apply calculate_ok_inv in Hc.
    destruct Hc as [ngo [reg [N [H1 [H2 [H3 [H4 [H5 [H6 ->]]]]]]]]].
    exists ngo, reg, m, N. repeat split; assumption.
  - intros Hu. specialize (Hcalc Hu).
    split; [exact Hcalc|].
    split; [unfold GenerateAllScores.predict_fitness | rewrite predict_fitness_factors];
      rewrite Hcalc; reflexivity.
Qed.

Lemma predict_one :
  Predict.predict_fitness Examples.echo_model Examples.needs_one Examples.ngos_one
    "Red Cross" "Sindhupalchok"
  = Ok (fdiv (Fin (Rdot [1] [80])) (Fin (sqrt (Rsumsq [1]) * sqrt (Rsumsq [80])))).
Proof.
  unfold Predict.predict_fitness.
  change (v <- loc_eq Examples.ngos_one "NGO" "Red Cross"
            (Predict.cats Examples.needs_one Examples.ngos_one) ;; first v)
    with (Ok (map Num (fins [1]))).
  change (v <- loc_eq Examples.needs_one "district" "Sindhupalchok"
            (Predict.cats Examples.needs_one Examples.ngos_one) ;; first v)
    with (Ok (map Num (fins [80]))).
  cbn [bind]. rewrite predict_cosine_fins by reflexivity. cbn [bind].
  unfold Predict.urgency_of. rewrite numeric_nums. reflexivity.
Qed.

Lemma lookup_is_exact_witness :
  (exists ngo reg m N,
     In ngo (rows Examples.ngos_one) /\ ngo "NGO"%string = Str "Red Cross" /\
     In reg (rows Examples.needs_one) /\ reg "district"%string = Str "Sindhupalchok" /\
     Predict.cosine (map ngo (shared_cats Examples.needs_one Examples.ngos_one))
       (map reg (shared_cats Examples.needs_one Examples.ngos_one)) = Ok m /\
     numeric (map reg (shared_cats Examples.needs_one Examples.ngos_one)) = Ok N /\
     Examples.echo_model m (mean_urgency N)
     = Ok (fdiv (Fin (Rdot [1] [80])) (Fin (sqrt (Rsumsq [1]) * sqrt (Rsumsq [80]))))) /\
  GenerateAllScores.calculate_match_and_urgency Examples.needs_one Examples.ngos_one
    "Red Cross" " sindhupalchok" = Raise IndexError /\
  GenerateAllScores.predict_fitness Examples.echo_model Examples.needs_one
    Examples.ngos_one "Red Cross" " sindhupalchok" = Raise IndexError /\
  Predict.predict_fitness Examples.echo_model Examples.needs_one Examples.ngos_one
    "Red Cross" " sindhupalchok" = Raise IndexError.
Proof.
  split.
  - apply (proj1 (proj2 (lookup_is_exact Examples.echo_model Examples.needs_one
                           Examples.ngos_one "Red Cross" "Sindhupalchok"
                           eq_refl eq_refl))).
    left. exact predict_one.
  - apply (proj2 (proj2 (lookup_is_exact Examples.echo_model Examples.needs_one
                           Examples.ngos_one "Red Cross" " sindhupalchok"
                           eq_refl eq_refl))).
    right. intros r [<-|[]]. discriminate.
Defined.

(** C9, refuted as stated.  Two names that the dashboard's
    [normalize_district_name] identifies (they differ in letter case and in
    surrounding blanks only) are different keys for the lookups: one finds
    its row, the other raises [IndexError]. *)
Lemma names_differing_in_case_or_space_are_distinct :
  App.normalize_district_name " sindhupalchok" = App.normalize_district_name "Sindhupalchok" /\
  App.normalize_district_name "RED CROSS " = App.normalize_district_name "Red Cross" /\
  (exists score,
     Predict.predict_fitness Examples.echo_model Examples.needs_one Examples.ngos_one
       "Red Cross" "Sindhupalchok" = Ok score) /\
  Predict.predict_fitness Examples.echo_model Examples.needs_one Examples.ngos_one
    "Red Cross" " sindhupalchok" = Raise IndexError /\
  Predict.predict_fitness Examples.echo_model Examples.needs_one Examples.ngos_one
    "RED CROSS " "Sindhupalchok" = Raise IndexError /\
  GenerateAllScores.calculate_match_and_urgency Examples.needs_one Examples.ngos_one
    "Red Cross" " sindhupalchok" = Raise IndexError.
Proof.
  split; [reflexivity|]. split; [reflexivity|].
  split; [eexists; apply predict_one|].
  split; [reflexivity|]. split; reflexivity.
Qed.


(** ** Saving the model *)

Section Saving.

Import TrainModel.

Lemma writes_prefix (chunks : list bytes) (done : bytes) :
  forall f, In f (Some done :: writes chunks (Some done)) ->
  exists p, f = Some p /\ is_prefix p (done ++ List.concat chunks)%list.
Proof.
  revert done; induction chunks as [|c chunks IH]; intros done f Hf.
  - destruct Hf as [<-|[]]. exists done. split; [reflexivity|].
    exists []. simpl. reflexivity.
  - destruct Hf as [<-|Hf].
    + exists done. split; [reflexivity|]. exists (List.concat (c :: chunks)). reflexivity.
    + simpl in Hf. destruct (IH (done ++ c)%list f Hf) as [p [-> [s Hs]]].
      exists p. split; [reflexivity|]. exists s. simpl. rewrite <- Hs.
      rewrite app_assoc. reflexivity.
Qed.

Lemma writes_last (chunks : list bytes) (done : bytes) :
  last (Some done :: writes chunks (Some done)) None = Some (done ++ List.concat chunks)%list.
Proof.
  revert done; induction chunks as [|c chunks IH]; intros done.
  - simpl. rewrite app_nil_r. reflexivity.
  - change (writes (c :: chunks) (Some done))
      with (Some (done ++ c)%list :: writes chunks (Some (done ++ c)%list)).
    change (last (Some done :: Some (done ++ c)%list :: writes chunks (Some (done ++ c)%list)) None)
      with (last (Some (done ++ c)%list :: writes chunks (Some (done ++ c)%list)) None).
    rewrite IH. simpl. rewrite app_assoc. reflexivity.
Qed.

(** C8 (as amended).  Saving the model overwrites the artifact in place:
    whatever the file held, it is empty right after [open], every content it
    goes through from then on is a prefix of the new pickle, and it ends as
    the whole new pickle. *)
Theorem dump_overwrites_in_place (old : file) (chunks : list bytes) :
  exists rest,
    dump_trace old chunks = old :: Some [] :: rest /\
    last (dump_trace old chunks) None = Some (List.concat chunks) /\
    forall f, In f (Some [] :: rest) -> exists p, f = Some p /\ is_prefix p (List.concat chunks).
Proof.
  exists (writes chunks (Some [])). split; [reflexivity|]. split.
  - unfold dump_trace, open_wb.
    change (last (old :: Some [] :: writes chunks (Some [])) None)
      with (last (Some [] :: writes chunks (Some [])) None).
    apply (writes_last chunks []).
  - apply (writes_prefix chunks []).
Qed.

(** C8, refuted as stated.  While a new pickle replaces an old one the file
    is seen empty, which is neither the old model nor the new one. *)
Lemma dump_exposes_truncated_file :
  ~ (forall f, In f (dump_trace (Some Examples.old_pkl) Examples.new_chunks) ->
               f = Some Examples.old_pkl \/ f = Some (List.concat Examples.new_chunks)).
Proof.
  intros H. destruct (H (Some [])) as [E|E]; [simpl; auto | discriminate | discriminate].
Qed.

End Saving.

(** ** Min-max scaling of the need columns *)

Section NeedMatrix.

Import Sklearn BuildNeedMatrix Examples.


Lemma nanmin_fins (x : R) (l : list R) : nanmin (fins (x :: l)) = Fin (Rminl x l).
Proof.
  revert x; induction l as [|y l IH]; intros x; [reflexivity|].
  change (nanmin (fins (x :: y :: l))) with (fmin_nan (Fin x) (nanmin (fins (y :: l)))).
  rewrite IH. simpl. unfold Rmin.
  destruct (Rlt_dec (Rminl y l) x), (Rle_dec x (Rminl y l)); try reflexivity; try lra;
    f_equal; lra.
Qed.

Lemma nanmax_fins (x : R) (l : list R) : nanmax (fins (x :: l)) = Fin (Rmaxl x l).
Proof.
  revert x; induction l as [|y l IH]; intros x; [reflexivity|].
  change (nanmax (fins (x :: y :: l))) with (fmax_nan (Fin x) (nanmax (fins (y :: l)))).
  rewrite IH. simpl. unfold Rmax.
  destruct (Rlt_dec x (Rmaxl y l)), (Rle_dec x (Rmaxl y l)); try reflexivity; try lra;
    f_equal; lra.
Qed.

Lemma Rminl_spec (x : R) (l : list R) :
  In (Rminl x l) (x :: l) /\ forall y, In y (x :: l) -> Rminl x l <= y.
Proof.
  revert x; induction l as [|z l IH]; intros x.
  - simpl. split; [auto|]. intros y [<-|[]]; lra.
  - destruct (IH z) as [Hin Hle]. cbn [Rminl]. unfold Rmin.
    destruct (Rle_dec x (Rminl z l)) as [H|H].
    + split; [left; reflexivity|]. intros y [<-|Hy]; [lra|].
      specialize (Hle y Hy). lra.
    + split; [right; exact Hin|]. intros y [<-|Hy]; [lra| apply Hle, Hy].
Qed.

Lemma Rmaxl_spec (x : R) (l : list R) :
  In (Rmaxl x l) (x :: l) /\ forall y, In y (x :: l) -> y <= Rmaxl x l.
Proof.
  revert x; induction l as [|z l IH]; intros x.
  - simpl. split; [auto|]. intros y [<-|[]]; lra.
  - destruct (IH z) as [Hin Hle]. cbn [Rmaxl]. unfold Rmax.
    destruct (Rle_dec x (Rmaxl z l)) as [H|H].
    + split; [right; exact Hin|]. intros y [<-|Hy]; [lra| apply Hle, Hy].
    + split; [left; reflexivity|]. intros y [<-|Hy]; [lra|].
      specialize (Hle y Hy). lra.
Qed.

Lemma eps_pos : 0 < 10 * eps.
Proof. unfold eps. lra. Qed.

Lemma scale_fins (m M : R) :
  fdiv (fsub (Fin 100) (Fin 0)) (handle_zeros_in_scale (fsub (Fin M) (Fin m)))
  = Fin (100 / (if Rlt_dec (M - m) (10 * eps) then 1 else M - m)).
Proof.
  pose proof eps_pos as He.
  unfold handle_zeros_in_scale. cbn [fsub fneg fadd fltb].
  destruct (Rlt_dec (M + - m) (10 * eps)) as [E|E],
           (Rlt_dec (M - m) (10 * eps)) as [E'|E'];
    try lra; rewrite fdiv_fin by lra; f_equal; field; lra.
Qed.

Lemma transform_fins (x : R) (l : list R) :
  transform_column (fit_column (0, 100) (fins (x :: l))) (fins (x :: l))
  = fins (map (Rscale (Rminl x l) (Rmaxl x l)) (x :: l)).
Proof.
  pose proof eps_pos as He.
  unfold fit_column, transform_column. rewrite nanmin_fins, nanmax_fins.
  cbn [scale_ min_ fst snd]. rewrite scale_fins.
  set (m := Rminl x l). set (M := Rmaxl x l).
  unfold fins. rewrite !map_map. apply map_ext. intros v.
  cbn [fsub fneg fadd fmul]. f_equal. unfold Rscale.
  destruct (Rlt_dec (M - m) (10 * eps)); field; lra.
Qed.

Lemma scaled_constant (x : R) (l : list R) :
  constant (fins (x :: l)) ->
  all_zero (fins (map (Rscale (Rminl x l) (Rmaxl x l)) (x :: l))).
Proof.
  intros Hc y Hy.
  destruct (Rminl_spec x l) as [Hm _]. destruct (Rmaxl_spec x l) as [HM _].
  assert (Heq : forall v, In v (x :: l) -> v = Rminl x l).
  { intros v Hv. assert (E : Fin v = Fin (Rminl x l)).
    { apply Hc; apply in_map; assumption. }
    inversion E; reflexivity. }
  unfold fins in Hy. apply in_map_iff in Hy. destruct Hy as [r [<- Hr]].
  apply in_map_iff in Hr. destruct Hr as [v [<- Hv]].
  f_equal. unfold Rscale. rewrite (Heq v Hv). unfold Rdiv. ring.
Qed.

Lemma in_fins (v : R) (l : list R) : In (Fin v) (fins l) -> In v l.
Proof.
  unfold fins. intros H. apply in_map_iff in H. destruct H as [u [E Hu]].
  inversion E; subst; exact Hu.
Qed.

(** A column is wide when its largest and its least value are ten machine
    epsilons apart. *)
Lemma wide_fins (x : R) (l : list R) :
  wide (fins (x :: l)) <-> 10 * eps <= Rmaxl x l - Rminl x l.
Proof.
  destruct (Rminl_spec x l) as [Hm Hle]. destruct (Rmaxl_spec x l) as [HM Hge].
  split.
  - intros [a [b [Ha [Hb Hab]]]]. apply in_fins in Ha, Hb.
    pose proof (Hle a Ha). pose proof (Hge b Hb). lra.
  - intros H. exists (Rminl x l), (Rmaxl x l).
    split; [apply in_map, Hm|]. split; [apply in_map, HM | exact H].
Qed.

Lemma scaled_spans (x : R) (l : list R) :
  wide (fins (x :: l)) ->
  spans_0_100 (fins (map (Rscale (Rminl x l) (Rmaxl x l)) (x :: l))).
Proof.
  intros Hw. apply wide_fins in Hw. pose proof eps_pos as He.
  destruct (Rminl_spec x l) as [Hm Hle]. destruct (Rmaxl_spec x l) as [HM Hge].
  set (m := Rminl x l) in *. set (M := Rmaxl x l) in *.
  assert (Hlt : m < M) by lra.
  assert (Hs : forall v, Rscale m M v = (v - m) * 100 / (M - m)).
  { intros v. unfold Rscale. destruct (Rlt_dec (M - m) (10 * eps)); [lra | reflexivity]. }
  split; [|split].
  - unfold fins. apply in_map_iff. exists (Rscale m M m). split.
    + f_equal. rewrite Hs. unfold Rdiv. ring.
    + apply in_map. exact Hm.
  - unfold fins. apply in_map_iff. exists (Rscale m M M). split.
    + f_equal. rewrite Hs. field. lra.
    + apply in_map. exact HM.
  - intros y Hy. unfold fins in Hy. apply in_map_iff in Hy.
    destruct Hy as [r [<- Hr]]. apply in_map_iff in Hr. destruct Hr as [v [<- Hv]].
    exists (Rscale m M v). split; [reflexivity|]. rewrite Hs.
    pose proof (Hle v Hv). pose proof (Hge v Hv).
    assert (0 < / (M - m)) by (apply Rinv_0_lt_compat; lra).
    split.
    + unfold Rdiv. apply Rmult_le_pos; [nra | lra].
    + apply Rmult_le_reg_r with (M - m); [lra|].
      unfold Rdiv. rewrite Rmult_assoc, Rinv_l by lra. nra.
Qed.

Lemma scaled_shifted (x : R) (l : list R) :
  ~ wide (fins (x :: l)) ->
  shifted (fins (x :: l)) (fins (map (Rscale (Rminl x l) (Rmaxl x l)) (x :: l))).
Proof.
  intros Hw. rewrite wide_fins in Hw.
  destruct (Rminl_spec x l) as [Hm Hle].
  set (m := Rminl x l) in *. set (M := Rmaxl x l) in *.
  assert (Hs : forall v, Rscale m M v = (v - m) * 100).
  { intros v. unfold Rscale. destruct (Rlt_dec (M - m) (10 * eps)); [field | lra]. }
  exists m. split; [apply in_map, Hm|].
  revert Hle. generalize (x :: l). intros c Hle.
  induction c as [|v c IH]; [constructor|].
  cbn [fins map]. constructor.
  - exists v. split; [reflexivity|]. split; [apply Hle; left; reflexivity|].
    rewrite Hs. reflexivity.
  - apply IH. intros y Hy. apply Hle. right. exact Hy.
Qed.

Lemma fdiv_100 (x : R) : fdiv (Fin x) (Fin 100) = Fin (x / 100).
Proof. apply fdiv_fin. lra. Qed.

Lemma need_cols_fins (df : list (damage_row * pop_row)) (p : R) :
  col_max (map (fun r => pop_density (snd r)) df) = Fin p -> p <> 0 ->
  need_cols df = map fins (raw_need_cols df p).
Proof.
  intros Hp Hnz.
  unfold need_cols, raw_need_cols, shelter_need, wash_need, food_need, logistics_need,
    rescue_need, health_need, cash_need, comms_need, psych_need, infra_need, agri_need,
    column, fins.
  rewrite Hp. cbn [map]. rewrite !map_map.
  repeat (apply (f_equal2 cons);
          [apply map_ext; intros r; cbn [fsub fneg fadd fmul];
           rewrite ?fdiv_100, ?(fdiv_fin _ p Hnz); cbn [fmul];
           try reflexivity; f_equal; unfold Rdiv; ring |]).
  reflexivity.
Qed.

Lemma isinf_fins (c : list R) : existsb isinf (fins c) = false.
Proof. induction c as [|x c IH]; simpl; [reflexivity | exact IH]. Qed.

Lemma isinf_cols (cols : list (list R)) :
  existsb (existsb isinf) (map fins cols) = false.
Proof.
  induction cols as [|d ds IH]; simpl; [reflexivity|].
  rewrite isinf_fins. exact IH.
Qed.

Lemma fit_transform_fins (c : list R) (cols : list (list R)) :
  c <> [] ->
  fit_transform (0, 100) (map fins (c :: cols))
  = Ok (map (fun c => transform_column (fit_column (0, 100) c) c) (map fins (c :: cols))).
Proof.
  intros Hc. unfold fit_transform. rewrite isinf_cols. cbn [fst snd].
  destruct (Rle_dec 100 0) as [H|_]; [lra|].
  destruct c as [|x c]; [contradiction|]. reflexivity.
Qed.

Lemma normalised_fins (c : list R) :
  c <> [] -> normalised (fins c) (transform_column (fit_column (0, 100) (fins c)) (fins c)).
Proof.
  destruct c as [|x l]; [contradiction|]. intros _. rewrite transform_fins.
  split; [apply scaled_constant|]. split; [apply scaled_spans | apply scaled_shifted].
Qed.

(** C1 (as amended).  Over a non-empty joined table whose largest
    population density is not zero, the script produces the eleven
    labelled need columns.  In exact arithmetic each of them, after scaling,
    has minimum 0 and maximum 100 across the districts when its raw values
    reach ten machine epsilons apart; a raw column the scaler takes for
    constant is only moved by its minimum and multiplied by 100, so that all
    the scaled values of a constant column are 0.  The rounding of
    [float64], which can move the maximum off 100, is not part of the
    embedding. *)
Theorem need_columns_span_0_100 (damage : list damage_row) (pop : list pop_row) :
  merge damage pop <> [] ->
  col_max (map (fun r => pop_density (snd r)) (merge damage pop)) <> Fin 0 ->
  exists m,
    build_need_matrix damage pop = Ok m /\
    map fst (needs m) = labels /\
    Forall2 normalised (need_cols (merge damage pop)) (map snd (needs m)).
Proof.
  intros Hne Hp. unfold build_need_matrix.
  set (df := merge damage pop) in *.
  destruct df as [|r df'] eqn:Edf; [contradiction|]. rewrite <- Edf in *.
  assert (Hp' : exists p, col_max (map (fun r => pop_density (snd r)) df) = Fin p /\ p <> 0).
  { rewrite Edf in *. cbn [map col_max] in *. eexists. split; [reflexivity|].
    intros E. apply Hp. rewrite E. reflexivity. }
  destruct Hp' as [p [Ep Hnz]].
  rewrite (need_cols_fins df p Ep Hnz).
  assert (Hcols : forall c, In c (raw_need_cols df p) -> c <> []).
  { intros c Hc. unfold raw_need_cols in Hc. rewrite Edf in Hc. cbn [map] in Hc.
    repeat (destruct Hc as [<-|Hc]; [discriminate|]). destruct Hc. }
  unfold raw_need_cols in *.
  rewrite fit_transform_fins by (apply Hcols; left; reflexivity).
  cbn [bind]. eexists. split; [reflexivity|].
  cbn [needs labels map combine fst snd]. split; [reflexivity|].
  repeat (constructor; [apply normalised_fins, Hcols; cbn [In]; tauto|]).
  constructor.
Qed.

Lemma merge_two :
  merge damage_two pop_two = [(gorkha, mkPop "Gorkha" 1); (kathmandu, mkPop "Kathmandu" 1)].
Proof. reflexivity. Qed.

Lemma col_max_two :
  col_max (map (fun r => pop_density (snd r)) (merge damage_two pop_two)) = Fin 1.
Proof.
  rewrite merge_two. cbn [map col_max fold_right snd pop_density].
  f_equal. unfold Rmax. destruct (Rle_dec 1 1); reflexivity.
Qed.

Lemma need_columns_span_0_100_witness :
  exists m,
    build_need_matrix damage_two pop_two = Ok m /\
    map fst (needs m) = labels /\
    Forall2 normalised (need_cols (merge damage_two pop_two)) (map snd (needs m)).
Proof.
  apply need_columns_span_0_100.
  - rewrite merge_two. discriminate.
  - rewrite col_max_two. intros E. inversion E. lra.
Defined.

Lemma merge_empty_land :
  merge [gorkha] pop_empty_land = [(gorkha, mkPop "Gorkha" 0)].
Proof. reflexivity. Qed.

Lemma need_cols_empty_land :
  need_cols (merge [gorkha] pop_empty_land)
  = [[Fin 100]; [NaN]; [Fin 0]; [Fin (100 + - 100)]; [Fin (100 * (100 + - 100) / 100)];
     [Fin 0]; [Fin (0 * 100 / 100)]; [Fin (100 + - 100)]; [Fin 0]; [Fin 0]; [Fin 0]].
Proof.
  rewrite merge_empty_land.
  unfold need_cols, shelter_need, wash_need, food_need, logistics_need,
    rescue_need, health_need, cash_need, comms_need, psych_need, infra_need, agri_need,
    column.
  cbn [map col_max fold_right fst snd gorkha pop_density houses_destroyed_pct
       water_facilities_damaged_pct food_insecure_households_pct road_accessibility_score
       health_facilities_damaged_pct poverty_rate telecom_coverage_pct displaced_pop_pct
       public_infra_damaged_pct farmland_lost_pct fsub fneg fadd fmul].
  rewrite fdiv_zero_zero, !fdiv_100. reflexivity.
Qed.

(** C1, refuted as stated.  For one district of population density 0 the
    raw water and sanitation column is [0 / 0], [nan]: it is constant, and
    the scaler leaves [nan], not 0. *)
Lemma zero_density_column_is_nan :
  merge [gorkha] pop_empty_land <> [] /\
  exists m,
    build_need_matrix [gorkha] pop_empty_land = Ok m /\
    nth 1 (need_cols (merge [gorkha] pop_empty_land)) [] = [NaN] /\
    nth 1 (map snd (needs m)) [] = [NaN] /\
    ~ all_zero [NaN] /\ ~ spans_0_100 [NaN] /\
    ~ Forall2 normalised (need_cols (merge [gorkha] pop_empty_land)) (map snd (needs m)).
Proof.
  assert (Hz : ~ all_zero [NaN]).
  { intros H. specialize (H NaN (or_introl eq_refl)). discriminate. }
  split; [rewrite merge_empty_land; discriminate|].
  unfold build_need_matrix. rewrite need_cols_empty_land.
  unfold fit_transform. cbn [fst snd n_samples List.length Nat.eqb existsb isinf orb].
  destruct (Rle_dec 100 0) as [H|_]; [lra|].
  cbn [bind]. eexists. split; [reflexivity|].
  cbn [needs labels map combine fst snd nth].
  split; [reflexivity|]. split; [reflexivity|]. split; [exact Hz|]. split.
  - intros [[H|[]] _]. discriminate.
  - intros H. inversion H as [|? ? ? ? _ H2]; subst.
    inversion H2 as [|? ? ? ? Hn _]; subst.
    destruct Hn as [Hc _]. apply Hz, Hc.
    intros a b [<-|[]] [<-|[]]. reflexivity.
Qed.

(** A column whose values are less than ten machine epsilons apart is
    taken for constant and not stretched: shares of destroyed houses of
    1e-15 and 0 are scaled to 1e-13 and 0, a column that is neither zero nor
    reaches 100. *)
Lemma narrow_column_is_not_stretched :
  exists m,
    build_need_matrix damage_near pop_two = Ok m /\
    nth 0 (need_cols (merge damage_near pop_two)) [] = fins [1 / 1000000000000000; 0] /\
    nth 0 (map snd (needs m)) [] = fins [1 / 10000000000000; 0] /\
    ~ constant (fins [1 / 1000000000000000; 0]) /\
    ~ wide (fins [1 / 1000000000000000; 0]) /\
    ~ spans_0_100 (fins [1 / 10000000000000; 0]).
Proof.
  assert (Hm : merge damage_near pop_two
               = [(gorkha_nearly, mkPop "Gorkha" 1); (kathmandu, mkPop "Kathmandu" 1)])
    by reflexivity.
  assert (Hc : col_max (map (fun r => pop_density (snd r)) (merge damage_near pop_two))
               = Fin 1).
  { rewrite Hm. cbn [map col_max fold_right snd pop_density].
    f_equal. unfold Rmax. destruct (Rle_dec 1 1); reflexivity. }
  unfold build_need_matrix.
  rewrite (need_cols_fins _ 1 Hc) by lra.
  rewrite Hm. unfold raw_need_cols.
  rewrite fit_transform_fins by discriminate.
  cbn [bind]. eexists. split; [reflexivity|].
  cbn [needs labels map combine fst snd nth gorkha_nearly kathmandu houses_destroyed_pct].
  split; [reflexivity|]. split.
  - rewrite transform_fins. cbn [fins map Rminl Rmaxl].
    repeat (apply (f_equal2 cons);
            [f_equal; unfold Rscale, Rmin, Rmax, eps; decide_reals; field; lra|]).
    reflexivity.
  - split; [|split].
    + intros H.
      assert (E : Fin (1 / 1000000000000000) = Fin 0)
        by (apply H; cbn [fins map In]; tauto).
      inversion E. lra.
    + intros [x [y [Hx [Hy H]]]]. unfold eps in H. cbn [fins map In] in Hx, Hy.
      destruct Hx as [Hx|[Hx|[]]], Hy as [Hy|[Hy|[]]];
        inversion Hx; inversion Hy; subst; lra.
    + intros [_ [H _]]. cbn [fins map In] in H.
      destruct H as [H|[H|[]]]; inversion H; lra.
Qed.





End NeedMatrix.

(** ** Urgency is the mean of the need values *)

Section Urgency.

Import Examples.

Lemma mean_urgency_fins (N : list R) :
  N <> [] -> mean_urgency (fins N) = Fin (Rmean N / 100).
Proof.
  intros Hne. unfold mean_urgency. rewrite mean_fins by assumption. apply fdiv_fin. lra.
Qed.

Lemma Rsum_bounds (lo hi : R) (N : list R) :
  (forall x, In x N -> lo <= x <= hi) ->
  INR (List.length N) * lo <= Rsum N <= INR (List.length N) * hi.
Proof.
  induction N as [|x N IH]; intros H.
  - simpl. lra.
  - change (List.length (x :: N)) with (S (List.length N)). rewrite S_INR.
    change (Rsum (x :: N)) with (x + Rsum N).
    pose proof (H x (or_introl eq_refl)).
    assert (forall y, In y N -> lo <= y <= hi) by (intros; apply H; right; assumption).
    specialize (IH H1). lra.
Qed.

Lemma Rmean_bounds (lo hi : R) (N : list R) :
  N <> [] -> (forall x, In x N -> lo <= x <= hi) -> lo <= Rmean N <= hi.
Proof.
  intros Hne H. pose proof (Rsum_bounds lo hi N H) as B.
  assert (Hn : 0 < INR (List.length N)).
  { destruct N; [contradiction|]. apply lt_0_INR. simpl; lia. }
  unfold Rmean. split.
  - apply Rmult_le_reg_r with (INR (List.length N)); [assumption|].
    unfold Rdiv. rewrite Rmult_assoc, Rinv_l by lra. lra.
  - apply Rmult_le_reg_r with (INR (List.length N)); [assumption|].
    unfold Rdiv. rewrite Rmult_assoc, Rinv_l by lra. lra.
Qed.


End Urgency.

(** ** The batch scorer of compute_fitness.py *)

(** [clean_cols] leaves the labels of the need matrix and the two key
    labels as they are. *)
Lemma clean_label_labels :
  map ComputeFitness.clean_label BuildNeedMatrix.labels = BuildNeedMatrix.labels /\
  ComputeFitness.clean_label "district" = "district"%string /\
  ComputeFitness.clean_label "NGO" = "NGO"%string.
Proof. repeat split; reflexivity. Qed.


Section BatchScoring.

Import ComputeFitness.

Variables needs ngos : DataFrame.

Lemma inner_ok (ngo : Series) (C : array) (regs : list Series) (pairs pairs' : list pair) :
  inner needs ngos ngo C regs pairs = Ok pairs' ->
  pairs' = (pairs ++ flat_map (fun reg => kept (score_pair needs ngos ngo C reg)) regs)%list /\
  forall reg, In reg regs -> exists r, score_pair needs ngos ngo C reg = Ok r.
Proof.
  revert pairs; induction regs as [|reg regs IH]; intros pairs H.
  - simpl in H. inversion H. simpl. rewrite app_nil_r. split; [reflexivity|]. intros ? [].
  - cbn [inner] in H. apply bind_ok_inv in H. destruct H as [r [Hr H]].
    apply IH in H. destruct H as [-> Hall]. split.
    + cbn [flat_map]. rewrite Hr. destruct r as [p|]; cbn [kept].
      * rewrite <- app_assoc. reflexivity.
      * reflexivity.
    + intros reg' [<-|Hin]; [exists r; exact Hr | apply Hall, Hin].
Qed.

Lemma outer_ok (ngo_rows : list Series) (pairs pairs' : list pair) :
  outer needs ngos ngo_rows pairs = Ok pairs' ->
  pairs' = (pairs ++ flat_map (kept_of_ngo needs ngos) ngo_rows)%list /\
  forall ngo, In ngo ngo_rows ->
    exists C, row_vector needs ngos ngos ngo = Ok C /\
      forall reg, In reg (rows needs) -> exists r, score_pair needs ngos ngo C reg = Ok r.
Proof.
  revert pairs; induction ngo_rows as [|ngo ngo_rows IH]; intros pairs H.
  - simpl in H. inversion H. simpl. rewrite app_nil_r. split; [reflexivity|]. intros ? [].
  - cbn [outer] in H. apply bind_ok_inv in H. destruct H as [C [HC H]].
    apply bind_ok_inv in H. destruct H as [mid [Hmid H]].
    apply inner_ok in Hmid. destruct Hmid as [-> Hin].
    apply IH in H. destruct H as [-> Hall]. split.
    + cbn [flat_map]. unfold kept_of_ngo at 2. rewrite HC.
      rewrite <- app_assoc. reflexivity.
    + intros ngo' [<-|Hn]; [exists C; split; assumption | apply Hall, Hn].
Qed.

Lemma run_ok (pairs : list pair) :
  run needs ngos = Ok pairs ->
  cats needs ngos <> [] /\
  pairs = flat_map (kept_of_ngo needs ngos) (rows ngos) /\
  forall ngo, In ngo (rows ngos) ->
    exists C, row_vector needs ngos ngos ngo = Ok C /\
      forall reg, In reg (rows needs) -> exists r, score_pair needs ngos ngo C reg = Ok r.
Proof.
  unfold run. destruct (cats needs ngos) as [|c cs] eqn:E; [discriminate|].
  intros H. apply outer_ok in H. destruct H as [-> Hall].
  split; [discriminate|]. split; [reflexivity | exact Hall].
Qed.

Lemma score_pair_some (ngo : Series) (C : array) (reg : Series) (p : pair) :
  score_pair needs ngos ngo C reg = Ok (Some p) ->
  exists N,
    row_vector needs ngos needs reg = Ok N /\
    cosine C N = Ok (match_ p) /\
    urgency p = mean_urgency N /\
    fitness_score p = fadd (fmul (Fin 0.7) (match_ p)) (fmul (Fin 0.3) (urgency p)) /\
    isnan (fitness_score p) = false.
Proof.
  unfold score_pair. intros H.
  apply bind_ok_inv in H. destruct H as [N [HN H]].
  apply bind_ok_inv in H. destruct H as [m [Hm H]].
  destruct (isnan (fadd (fmul (Fin 0.7) m) (fmul (Fin 0.3) (mean_urgency N)))) eqn:En;
    [discriminate|].
  apply bind_ok_inv in H. destruct H as [n [_ H]].
  apply bind_ok_inv in H. destruct H as [d [_ H]].
  inversion H; subst p. exists N. cbn [match_ urgency fitness_score].
  repeat split; assumption.
Qed.

Lemma score_pair_none (ngo : Series) (C : array) (reg : Series) :
  score_pair needs ngos ngo C reg = Ok None ->
  exists N m,
    row_vector needs ngos needs reg = Ok N /\
    cosine C N = Ok m /\
    isnan (fadd (fmul (Fin 0.7) m) (fmul (Fin 0.3) (mean_urgency N))) = true.
Proof.
  unfold score_pair. intros H.
  apply bind_ok_inv in H. destruct H as [N [HN H]].
  apply bind_ok_inv in H. destruct H as [m [Hm H]].
  destruct (isnan (fadd (fmul (Fin 0.7) m) (fmul (Fin 0.3) (mean_urgency N)))) eqn:En.
  - exists N, m. repeat split; assumption.
  - apply bind_ok_inv in H. destruct H as [n [_ H]].
    apply bind_ok_inv in H. destruct H as [d [_ H]]. discriminate.
Qed.

Lemma score_pair_names (ngo : Series) (C : array) (reg : Series) (p : pair) :
  score_pair needs ngos ngo C reg = Ok (Some p) ->
  NGO p = ngo "NGO"%string /\
  district p = reg "district"%string.
Proof.
  unfold score_pair. intros H.
  apply bind_ok_inv in H. destruct H as [N [_ H]].
  apply bind_ok_inv in H. destruct H as [m [_ H]].
  destruct (isnan _); [discriminate|].
  apply bind_ok_inv in H. destruct H as [n [Hn H]].
  apply bind_ok_inv in H. destruct H as [d [Hd H]].
  inversion H; subst p. cbn [NGO district].
  unfold get in Hn, Hd.
  destruct (has_col ngos "NGO"); [|discriminate].
  destruct (has_col needs "district"); [|discriminate].
  inversion Hn. inversion Hd. split; reflexivity.
Qed.

Lemma in_pairs (pairs : list pair) (p : pair) :
  run needs ngos = Ok pairs -> In p pairs ->
  exists ngo reg C,
    In ngo (rows ngos) /\ In reg (rows needs) /\
    row_vector needs ngos ngos ngo = Ok C /\
    score_pair needs ngos ngo C reg = Ok (Some p).
Proof.
  intros H Hp. apply run_ok in H. destruct H as [_ [-> _]].
  apply in_flat_map in Hp. destruct Hp as [ngo [Hn Hp]].
  unfold kept_of_ngo in Hp.
  destruct (row_vector needs ngos ngos ngo) as [C|e] eqn:EC; [|destruct Hp].
  apply in_flat_map in Hp. destruct Hp as [reg [Hr Hp]].
  destruct (score_pair needs ngos ngo C reg) as [[q|]|e] eqn:Es; try destruct Hp.
  - subst q. exists ngo, reg, C. repeat split; assumption.
  - destruct H.
Qed.

End BatchScoring.

(** ** The cells of a row as numbers *)

Lemma astype_float_numeric (a : ndarray) (x : array) :
  astype_float a = Ok x -> numeric a = Ok x /\ a = map Num x.
Proof.
  unfold astype_float, numeric. revert x; induction a as [|c a IH]; simpl; intros x H.
  - inversion H. split; reflexivity.
  - apply bind_ok_inv in H. destruct H as [v [Hv H]].
    apply bind_ok_inv in H. destruct H as [vs [Hvs H]]. inversion H; subst x.
    destruct c as [y|s]; [|discriminate]. inversion Hv; subst v.
    destruct (IH vs Hvs) as [E1 E2]. rewrite E1. cbn [bind].
    split; [reflexivity | simpl; congruence].
Qed.

Lemma bind_assoc {A B C : Type} (m : result A) (f : A -> result B) (g : B -> result C) :
  (a <- m ;; b <- f a ;; g b) = (b <- (a <- m ;; f a) ;; g b).
Proof. destruct m; reflexivity. Qed.


Lemma map_Num_inj (x y : array) : map Num x = map Num y -> x = y.
Proof.
  revert y; induction x as [|a x IH]; intros [|b y] H; try discriminate; [reflexivity|].
  inversion H. f_equal. apply IH. assumption.
Qed.

Section Labels.

Import Examples.

Lemma compute_cosine_fins (a b : list R) :
  List.length a = List.length b ->
  ComputeFitness.cosine (fins a) (fins b)
  = Ok (Fin (if Req_dec_T (sqrt (Rsumsq a) * sqrt (Rsumsq b)) 0 then 0
             else Rdot a b / (sqrt (Rsumsq a) * sqrt (Rsumsq b)))).
Proof.
  intros Hl. unfold ComputeFitness.cosine. rewrite !norm_fins. cbn [feqb].
  destruct (Req_dec_T (sqrt (Rsumsq a)) 0) as [Ea|Ea];
    destruct (Req_dec_T (sqrt (Rsumsq b)) 0) as [Eb|Eb];
    destruct (Req_dec_T (sqrt (Rsumsq a) * sqrt (Rsumsq b)) 0) as [E|E];
    cbn [orb]; try reflexivity; try (exfalso; apply E; rewrite ?Ea, ?Eb; ring).
  - exfalso. apply Rmult_integral in E. tauto.
  - rewrite dot_fins by assumption. cbn [bind fmul]. rewrite fdiv_fin by assumption.
    reflexivity.
Qed.

Lemma compute_cosine_range (a b : list R) :
  List.length a = List.length b ->
  exists m, ComputeFitness.cosine (fins a) (fins b) = Ok (Fin m) /\ -1 <= m <= 1 /\
            ((forall x, In x a -> 0 <= x) -> (forall x, In x b -> 0 <= x) -> 0 <= m).
Proof.
  intros Hl. rewrite compute_cosine_fins by assumption. eexists. split; [reflexivity|].
  destruct (Req_dec_T (sqrt (Rsumsq a) * sqrt (Rsumsq b)) 0) as [E|E].
  - split; [lra|]. intros; lra.
  - split; [apply cosine_ratio_bounds; assumption|].
    intros Ha Hb.
    assert (Hd : 0 <= Rdot a b).
    { clear E. revert b Hl Hb. induction a as [|x a IH]; intros [|y b] Hl Hb;
        simpl in *; try lra.
      assert (0 <= x) by (apply Ha; auto). assert (0 <= y) by (apply Hb; auto).
      assert (0 <= Rdot a b) by (apply IH; auto). nra. }
    pose proof (sqrt_pos (Rsumsq a)). pose proof (sqrt_pos (Rsumsq b)).
    apply Rmult_le_pos; [assumption|]. apply Rlt_le, Rinv_0_lt_compat. nra.
Qed.

Lemma finite_cells (P : R -> Prop) (row : Series) (cats : list string) :
  (forall c, In c cats -> exists x, row c = Num (Fin x) /\ P x) ->
  exists xs, map row cats = map Num (fins xs) /\
             List.length xs = List.length cats /\ forall x, In x xs -> P x.
Proof.
  induction cats as [|c cats IH]; intros H.
  - exists []. simpl. repeat split. intros x [].
  - destruct (H c (or_introl eq_refl)) as [x [Hx Px]].
    destruct IH as [xs [E [Hl HP]]]; [intros; apply H; right; assumption|].
    exists (x :: xs). simpl. rewrite Hx, E. repeat split.
    + rewrite Hl. reflexivity.
    + intros y [<-|Hy]; [exact Px | apply HP, Hy].
Qed.

Lemma row_vector_fins (needs ngos df : DataFrame) (row : Series) (xs : list R) :
  (forall c, In c (shared_cats needs ngos) -> has_col df c = true) ->
  map row (shared_cats needs ngos) = map Num (fins xs) ->
  ComputeFitness.row_vector needs ngos df row = Ok (fins xs).
Proof.
  intros Hc E. unfold ComputeFitness.row_vector, ComputeFitness.cats.
  rewrite select_ok by assumption. cbn [bind]. rewrite E. apply astype_float_nums.
Qed.

Lemma row_vector_cells (needs ngos df : DataFrame) (row : Series) (v : array) :
  ComputeFitness.row_vector needs ngos df row = Ok v ->
  map row (shared_cats needs ngos) = map Num v.
Proof.
  unfold ComputeFitness.row_vector, ComputeFitness.cats. intros H.
  apply bind_ok_inv in H. destruct H as [a [Ha H]].
  apply select_ok_inv in Ha. subst a.
  apply astype_float_numeric in H. destruct H as [_ H]. exact H.
Qed.

(** C4 (as amended).  Every row written by [compute_fitness.py] stands for
    a row of the capability table and a row of the need table, carries
    their names, and has the label 0.7 * match + 0.3 * urgency, where match
    is what [cosine] returns for the two rows over the shared categories
    (the cosine itself, and 0 when a norm is 0), not rescaled, and urgency
    is the mean need over 100.  For finite tables with need values in
    [0, 100] and non-negative capabilities, in exact arithmetic, match and
    urgency lie in [0, 1] and so does the label: it is on the unit scale,
    not on a scale of 100. *)
Theorem label_is_weighted_raw_match (needs ngos : DataFrame)
    (pairs : list ComputeFitness.pair) (p : ComputeFitness.pair) :
  ComputeFitness.run needs ngos = Ok pairs ->
  In p pairs ->
  exists ngo reg C N,
    In ngo (rows ngos) /\ In reg (rows needs) /\
    ComputeFitness.NGO p = ngo "NGO"%string /\
    ComputeFitness.district p = reg "district"%string /\
    map ngo (shared_cats needs ngos) = map Num C /\
    map reg (shared_cats needs ngos) = map Num N /\
    ComputeFitness.cosine C N = Ok (ComputeFitness.match_ p) /\
    ComputeFitness.urgency p = mean_urgency N /\
    ComputeFitness.fitness_score p
    = fadd (fmul (Fin 0.7) (ComputeFitness.match_ p))
           (fmul (Fin 0.3) (ComputeFitness.urgency p)) /\
    ((forall x, In x N -> exists v, x = Fin v /\ 0 <= v <= 100) ->
     (forall x, In x C -> exists v, x = Fin v /\ 0 <= v) ->
     exists a b m,
       C = fins a /\ N = fins b /\
       m = (if Req_dec_T (sqrt (Rsumsq a) * sqrt (Rsumsq b)) 0 then 0
            else Rdot a b / (sqrt (Rsumsq a) * sqrt (Rsumsq b))) /\
       ComputeFitness.match_ p = Fin m /\
       ComputeFitness.urgency p = Fin (Rmean b / 100) /\
       ComputeFitness.fitness_score p = Fin (0.7 * m + 0.3 * (Rmean b / 100)) /\
       0 <= m <= 1 /\ 0 <= Rmean b / 100 <= 1 /\
       0 <= 0.7 * m + 0.3 * (Rmean b / 100) <= 1).
Proof.
  intros Hrun Hp.
  destruct (in_pairs needs ngos pairs p Hrun Hp) as [ngo [reg [C [Hn [Hr [HC Hs]]]]]].
  destruct (score_pair_names _ _ _ _ _ _ Hs) as [Hname Hdist].
  apply score_pair_some in Hs. destruct Hs as [N [HN [Hm [Hu [Hf _]]]]].
  pose proof (row_vector_cells _ _ _ _ _ HC) as EC.
  pose proof (row_vector_cells _ _ _ _ _ HN) as EN.
  exists ngo, reg, C, N.
  split; [exact Hn|]. split; [exact Hr|]. split; [exact Hname|]. split; [exact Hdist|].
  split; [exact EC|]. split; [exact EN|]. split; [exact Hm|]. split; [exact Hu|].
  split; [exact Hf|].
  intros HfN HfC.
  assert (Hfin : forall (P : R -> Prop) (v : array),
            (forall x, In x v -> exists r, x = Fin r /\ P r) ->
            exists l, v = fins l /\ forall r, In r l -> P r).
  { intros P v. induction v as [|x v IH]; intros H.
    - exists []. split; [reflexivity|]. intros r [].
    - destruct (H x (or_introl eq_refl)) as [r [-> Pr]].
      destruct IH as [l [-> Pl]]; [intros y Hy; apply H; right; exact Hy|].
      exists (r :: l). split; [reflexivity|].
      intros y [<-|Hy]; [exact Pr | apply Pl, Hy]. }
  destruct (Hfin _ N HfN) as [b [-> Pb]]. destruct (Hfin _ C HfC) as [a [-> Pa]].
  assert (Hl : List.length a = List.length b).
  { apply (f_equal (@List.length cell)) in EC. apply (f_equal (@List.length cell)) in EN.
    unfold fins in EC, EN. rewrite !length_map in EC, EN. congruence. }
  pose proof (compute_cosine_fins a b Hl) as Ec.
  destruct (compute_cosine_range a b Hl) as [m [Em [Bm Pm]]].
  assert (Hne : b <> []).
  { apply run_ok in Hrun. destruct Hrun as [Hcats _]. unfold ComputeFitness.cats in Hcats.
    destruct b; [|discriminate]. destruct (shared_cats needs ngos); [contradiction|discriminate]. }
  pose proof (mean_urgency_fins b Hne) as Eu.
  pose proof (Rmean_bounds 0 100 b Hne Pb) as Bu.
  assert (0 <= m) by (apply Pm; [exact Pa | intros x Hx; apply Pb, Hx]).
  assert (Hm' : ComputeFitness.match_ p = Fin m) by congruence.
  exists a, b, m.
  split; [reflexivity|]. split; [reflexivity|].
  split; [rewrite Ec in Em; injection Em as Em; symmetry; exact Em|].
  split; [exact Hm'|]. split; [congruence|].
  split; [rewrite Hf, Hu, Eu, Hm'; reflexivity|].
  repeat split; lra.
Qed.

Lemma sqrt_caps : sqrt (Rsumsq [1; 0]) = 1.
Proof. apply sqrt_val; [lra|]. unfold Rsumsq; simpl; ring. Qed.

Lemma sqrt_food : sqrt (Rsumsq [0; 100]) = 100.
Proof. apply sqrt_val; [lra|]. unfold Rsumsq; simpl; ring. Qed.

Lemma run_food : ComputeFitness.run needs_food ngos_shelter = Ok [pair_food].
Proof.
  unfold ComputeFitness.run.
  change (ComputeFitness.cats needs_food ngos_shelter)
    with ["Emergency Shelter & Housing"; "Emergency Food Distribution"]%string.
  cbn [rows ngos_shelter needs_food ComputeFitness.outer ComputeFitness.inner].
  change (ComputeFitness.row_vector needs_food ngos_shelter _ _)
    with (astype_float (map Num (fins [1; 0]))) at 1.
  rewrite astype_float_nums. cbn [bind].
  unfold ComputeFitness.score_pair.
  change (ComputeFitness.row_vector needs_food ngos_shelter _ _)
    with (astype_float (map Num (fins [0; 100]))).
  rewrite astype_float_nums. cbn [bind].
  rewrite compute_cosine_fins by reflexivity.
  rewrite sqrt_caps, sqrt_food.
  destruct (Req_dec_T (1 * 100) 0) as [E|_]; [lra|].
  cbn [bind]. rewrite mean_urgency_fins by discriminate.
  replace (Rdot [1; 0] [0; 100] / (1 * 100)) with 0 by (simpl; lra).
  replace (Rmean [0; 100] / 100) with (1 / 2) by (unfold Rmean; simpl; lra).
  cbn [fmul fadd isnan].
  replace (0.7 * 0 + 0.3 * (1 / 2)) with (3 / 20) by lra.
  reflexivity.
Qed.

Lemma label_is_weighted_raw_match_witness :
  exists a b m,
    [Fin 1; Fin 0] = fins a /\ [Fin 0; Fin 100] = fins b /\
    m = (if Req_dec_T (sqrt (Rsumsq a) * sqrt (Rsumsq b)) 0 then 0
         else Rdot a b / (sqrt (Rsumsq a) * sqrt (Rsumsq b))) /\
    ComputeFitness.match_ pair_food = Fin m /\
    ComputeFitness.urgency pair_food = Fin (Rmean b / 100) /\
    ComputeFitness.fitness_score pair_food = Fin (0.7 * m + 0.3 * (Rmean b / 100)) /\
    0 <= m <= 1 /\ 0 <= Rmean b / 100 <= 1 /\
    0 <= 0.7 * m + 0.3 * (Rmean b / 100) <= 1.
Proof.
  destruct (label_is_weighted_raw_match needs_food ngos_shelter [pair_food] pair_food
              run_food (or_introl eq_refl))
    as [ngo [reg [C [N [Hn [Hr [_ [_ [EC [EN [_ [_ [_ Hfin]]]]]]]]]]]]].
  destruct Hn as [<-|[]]. destruct Hr as [<-|[]].
  apply (map_Num_inj [Fin 1; Fin 0]) in EC. apply (map_Num_inj [Fin 0; Fin 100]) in EN.
  subst C N. apply Hfin.
  - intros x [<-|[<-|[]]]; eexists; (split; [reflexivity | lra]).
  - intros x [<-|[<-|[]]]; eexists; (split; [reflexivity | lra]).
Defined.

(** C4, refuted as stated.  For an organisation that only shelters and a
    district that only lacks food the match is 0 and the urgency 1/2: the
    script records the label 0.15, the rescaled formula gives 0.5. *)
Lemma label_is_not_rescaled :
  ComputeFitness.run needs_food ngos_shelter = Ok [pair_food] /\
  ComputeFitness.fitness_score pair_food = Fin (3 / 20) /\
  spec_label (ComputeFitness.match_ pair_food) (ComputeFitness.urgency pair_food)
  = Fin (1 / 2) /\
  ComputeFitness.fitness_score pair_food
  <> spec_label (ComputeFitness.match_ pair_food) (ComputeFitness.urgency pair_food).
Proof.
  assert (E : spec_label (ComputeFitness.match_ pair_food)
                (ComputeFitness.urgency pair_food) = Fin (1 / 2)).
  { unfold spec_label. cbn [pair_food ComputeFitness.match_ ComputeFitness.urgency fadd].
    rewrite fdiv_fin by lra. cbn [fmul fadd]. f_equal. lra. }
  split; [exact run_food|]. split; [reflexivity|]. split; [exact E|].
  rewrite E. cbn [pair_food ComputeFitness.fitness_score]. intros H. inversion H. lra.
Qed.

End Labels.

(** ** The loops of generate_all_scores.py *)

Section GenerateLoops.

Import GenerateAllScores.

Variable model : Model.
Variables needs ngos : DataFrame.

Lemma inner_fold (ngo : string) (districts : list string) (st : state) :
  fold_left (step model needs ngos ngo) districts st
  = ((fst st ++ flat_map (scored model needs ngos ngo) districts)%list,
     (snd st ++ flat_map (reported model needs ngos ngo) districts)%list).
Proof.
  revert st; induction districts as [|d ds IH]; intros [rs ms].
  - simpl. rewrite !app_nil_r. reflexivity.
  - cbn [fold_left flat_map]. rewrite IH. unfold step, scored at 2, reported at 2.
    destruct (try_body model needs ngos ngo d) as [r|e]; cbn [fst snd];
      rewrite <- ?app_assoc; reflexivity.
Qed.

Lemma loops_spec (unique_ngos unique_districts : list string) :
  loops model needs ngos unique_ngos unique_districts
  = (flat_map (fun ngo => flat_map (scored model needs ngos ngo) unique_districts)
              unique_ngos,
     flat_map (fun ngo => flat_map (reported model needs ngos ngo) unique_districts)
              unique_ngos).
Proof.
  unfold loops.
  assert (G : forall st,
    fold_left (fun st ngo => fold_left (step model needs ngos ngo) unique_districts st)
              unique_ngos st
    = ((fst st ++ flat_map (fun ngo => flat_map (scored model needs ngos ngo)
                                                unique_districts) unique_ngos)%list,
       (snd st ++ flat_map (fun ngo => flat_map (reported model needs ngos ngo)
                                                unique_districts) unique_ngos)%list)).
  { induction unique_ngos as [|n ns IH]; intros [rs ms].
    - simpl. rewrite !app_nil_r. reflexivity.
    - cbn [fold_left flat_map]. rewrite inner_fold, IH. cbn [fst snd].
      rewrite <- !app_assoc. reflexivity. }
  rewrite G. reflexivity.
Qed.

End GenerateLoops.

Section ErrorPolicy.

Import Examples.

(** An exception in any turn of the loops ends the run. *)
Lemma any_error_ends_compute_fitness (needs ngos : DataFrame) (ngo reg : Series)
    (C : array) (e : exn) :
  In ngo (rows ngos) -> In reg (rows needs) ->
  ComputeFitness.row_vector needs ngos ngos ngo = Ok C ->
  ComputeFitness.score_pair needs ngos ngo C reg = Raise e ->
  exists e', ComputeFitness.run needs ngos = Raise e'.
Proof.
  intros Hn Hr HC He.
  destruct (ComputeFitness.run needs ngos) as [pairs|e'] eqn:Hrun;
    [|exists e'; reflexivity].
  exfalso. apply run_ok in Hrun. destruct Hrun as [_ [_ Hall]].
  destruct (Hall ngo Hn) as [C' [HC' Hregs]].
  rewrite HC in HC'. inversion HC'; subst C'.
  destruct (Hregs reg Hr) as [r Hs]. rewrite He in Hs. discriminate.
Qed.

(** Text in a shared column: [astype(float)] ends [compute_fitness.py],
    while [generate_all_scores.py] reports the combination and goes on. *)
Lemma text_cell_ends_compute_fitness :
  ComputeFitness.run needs_notes ngos_notes
  = Raise (ValueError "could not convert string to float") /\
  GenerateAllScores.generate_all_scores echo_model needs_notes ngos_notes
  = Ok ([], [GenerateAllScores.ErrorProcessing "Red Cross" "Gorkha" TypeError]).
Proof.
  split; reflexivity.
Qed.

(** C7 (as amended).  When [compute_fitness.py] completes, no turn of its
    loops raised (an exception in any turn ends the run), the rows written
    are exactly those of the turns whose label is not [nan], a dropped turn
    is one whose label is [nan], and a vector of norm zero gives match 0.
    The loops of [generate_all_scores.py] never stop: a combination whose
    scoring raises is reported on standard output and left out of the
    results. *)
Theorem batch_error_policy (model : Model) (needs ngos : DataFrame)
    (pairs : list ComputeFitness.pair) (unique_ngos unique_districts : list string) :
  ComputeFitness.run needs ngos = Ok pairs ->
  (forall ngo, In ngo (rows ngos) ->
     exists C, ComputeFitness.row_vector needs ngos ngos ngo = Ok C /\
       forall reg, In reg (rows needs) ->
         exists r, ComputeFitness.score_pair needs ngos ngo C reg = Ok r /\
           (r = None ->
            exists N m, ComputeFitness.row_vector needs ngos needs reg = Ok N /\
              ComputeFitness.cosine C N = Ok m /\
              isnan (fadd (fmul (Fin 0.7) m) (fmul (Fin 0.3) (mean_urgency N))) = true)) /\
  pairs = flat_map (kept_of_ngo needs ngos) (rows ngos) /\
  (forall C N, norm C = Fin 0 \/ norm N = Fin 0 ->
     ComputeFitness.cosine C N = Ok (Fin 0)) /\
  GenerateAllScores.loops model needs ngos unique_ngos unique_districts
  = (flat_map (fun ngo => flat_map (scored model needs ngos ngo) unique_districts)
              unique_ngos,
     flat_map (fun ngo => flat_map (reported model needs ngos ngo) unique_districts)
              unique_ngos).
Proof.
  intros Hrun. apply run_ok in Hrun. destruct Hrun as [_ [Hp Hall]].
  split; [|split; [exact Hp | split; [exact compute_cosine_zero_norm | apply loops_spec]]].
  intros ngo Hn. destruct (Hall ngo Hn) as [C [HC Hregs]].
  exists C. split; [exact HC|]. intros reg Hr.
  destruct (Hregs reg Hr) as [r Hs]. exists r. split; [exact Hs|].
  intros ->. apply score_pair_none with (ngo := ngo). exact Hs.
Qed.

Lemma batch_error_policy_witness :
  [pair_food] = flat_map (kept_of_ngo needs_food ngos_shelter) (rows ngos_shelter).
Proof.
  exact (proj1 (proj2 (batch_error_policy Examples.echo_model needs_food ngos_shelter
                         [pair_food] ["Habitat for Humanity"%string] ["Gorkha"%string]
                         run_food))).
Defined.

Lemma sqrt_gorkha : sqrt (Rsumsq [60; 80]) = 100.
Proof. apply sqrt_val; [lra|]. unfold Rsumsq; simpl; ring. Qed.

Lemma sqrt_idle : sqrt (Rsumsq [0; 0]) = 0.
Proof. apply sqrt_val; [lra|]. unfold Rsumsq; simpl; ring. Qed.

Lemma run_idle : ComputeFitness.run needs_gorkha ngos_idle = Ok pairs_idle.
Proof.
  unfold ComputeFitness.run.
  change (ComputeFitness.cats needs_gorkha ngos_idle)
    with ["Emergency Shelter & Housing"; "Emergency Food Distribution"]%string.
  cbn [rows ngos_idle needs_gorkha ComputeFitness.outer ComputeFitness.inner].
  change (ComputeFitness.row_vector needs_gorkha ngos_idle ngos_idle _)
    with (astype_float (map Num (fins [1; 0]))) at 1.
  rewrite astype_float_nums. cbn [bind].
  unfold ComputeFitness.score_pair at 1.
  change (ComputeFitness.row_vector needs_gorkha ngos_idle needs_gorkha _)
    with (astype_float (map Num (fins [60; 80]))) at 1.
  rewrite astype_float_nums. cbn [bind].
  rewrite compute_cosine_fins by reflexivity.
  rewrite sqrt_caps, sqrt_gorkha.
  destruct (Req_dec_T (1 * 100) 0) as [E|_]; [lra|].
  cbn [bind]. rewrite mean_urgency_fins by discriminate.
  replace (Rdot [1; 0] [60; 80] / (1 * 100)) with (3 / 5) by (simpl; lra).
  replace (Rmean [60; 80] / 100) with (7 / 10) by (unfold Rmean; simpl; lra).
  cbn [fmul fadd isnan].
  replace (0.7 * (3 / 5) + 0.3 * (7 / 10)) with (63 / 100) by lra.
  change (get ngos_idle _ "NGO") with (Ok (Str "Red Cross")).
  change (get needs_gorkha _ "district") with (Ok (Str "Gorkha")).
  cbn [bind app].
  change (ComputeFitness.row_vector needs_gorkha ngos_idle ngos_idle _)
    with (astype_float (map Num (fins [0; 0]))) at 1.
  rewrite astype_float_nums. cbn [bind].
  unfold ComputeFitness.score_pair.
  change (ComputeFitness.row_vector needs_gorkha ngos_idle needs_gorkha _)
    with (astype_float (map Num (fins [60; 80]))) at 1.
  rewrite astype_float_nums. cbn [bind].
  rewrite compute_cosine_fins by reflexivity.
  rewrite sqrt_idle, sqrt_gorkha.
  destruct (Req_dec_T (0 * 100) 0) as [_|E]; [|lra].
  cbn [bind]. rewrite mean_urgency_fins by discriminate.
  replace (Rmean [60; 80] / 100) with (7 / 10) by (unfold Rmean; simpl; lra).
  cbn [fmul fadd isnan].
  replace (0.7 * 0 + 0.3 * (7 / 10)) with (21 / 100) by lra.
  reflexivity.
Qed.

Lemma try_body_idle :
  GenerateAllScores.try_body strict_model needs_gorkha ngos_idle "FAO" "Gorkha"
  = Raise (ValueError "Input X contains NaN.").
Proof.
  unfold GenerateAllScores.try_body, GenerateAllScores.calculate_match_and_urgency.
  change (v <- loc_eq ngos_idle "NGO" "FAO"
            (GenerateAllScores.cats needs_gorkha ngos_idle) ;; first v)
    with (Ok (map Num (fins [0; 0]))).
  change (v <- loc_eq needs_gorkha "district" "Gorkha"
            (GenerateAllScores.cats needs_gorkha ngos_idle) ;; first v)
    with (Ok (map Num (fins [60; 80]))).
  cbn [bind].
  change (GenerateAllScores.cosine (map Num (fins [0; 0])) (map Num (fins [60; 80])))
    with (Predict.cosine (map Num (fins [0; 0])) (map Num (fins [60; 80]))).
  rewrite predict_cosine_zero_norm; [|reflexivity|left; unfold Rsumsq; simpl; ring].
  cbn [bind]. rewrite numeric_nums. reflexivity.
Qed.

Lemma try_body_red_cross :
  GenerateAllScores.try_body strict_model needs_gorkha ngos_idle "Red Cross" "Gorkha"
  = Ok (GenerateAllScores.mkScore "Red Cross" "Gorkha"
          (Fin (3 / 5)) (Fin (7 / 10)) (Fin (63 / 100))).
Proof.
  unfold GenerateAllScores.try_body, GenerateAllScores.calculate_match_and_urgency.
  change (v <- loc_eq ngos_idle "NGO" "Red Cross"
            (GenerateAllScores.cats needs_gorkha ngos_idle) ;; first v)
    with (Ok (map Num (fins [1; 0]))).
  change (v <- loc_eq needs_gorkha "district" "Gorkha"
            (GenerateAllScores.cats needs_gorkha ngos_idle) ;; first v)
    with (Ok (map Num (fins [60; 80]))).
  cbn [bind].
  change (GenerateAllScores.cosine (map Num (fins [1; 0])) (map Num (fins [60; 80])))
    with (Predict.cosine (map Num (fins [1; 0])) (map Num (fins [60; 80]))).
  rewrite predict_cosine_fins by reflexivity. rewrite sqrt_caps, sqrt_gorkha.
  rewrite fdiv_fin by lra.
  cbn [bind]. rewrite numeric_nums. cbn [bind].
  rewrite mean_urgency_fins by discriminate.
  replace (Rdot [1; 0] [60; 80] / (1 * 100)) with (3 / 5) by (simpl; lra).
  replace (Rmean [60; 80] / 100) with (7 / 10) by (unfold Rmean; simpl; lra).
  cbn [fst snd strict_model isnan orb fmul fadd bind].
  replace (0.7 * (3 / 5) + 0.3 * (7 / 10)) with (63 / 100) by lra.
  reflexivity.
Qed.

(** C7, refuted as stated.  With a model that refuses [nan], the
    organisation without capabilities makes [model.predict] raise
    [ValueError] for its combination; [generate_all_scores.py] catches it,
    prints it, leaves the row out and returns the other row.  No label was
    [nan] here: on the same tables [compute_fitness.py] keeps that
    combination, with match 0 and label 0.21. *)
Lemma swallowed_model_error :
  GenerateAllScores.try_body strict_model needs_gorkha ngos_idle "FAO" "Gorkha"
  = Raise (ValueError "Input X contains NaN.") /\
  GenerateAllScores.generate_all_scores strict_model needs_gorkha ngos_idle
  = Ok ([GenerateAllScores.mkScore "Red Cross" "Gorkha"
           (Fin (3 / 5)) (Fin (7 / 10)) (Fin (63 / 100))],
        [GenerateAllScores.ErrorProcessing "FAO" "Gorkha"
           (ValueError "Input X contains NaN.")]) /\
  ComputeFitness.run needs_gorkha ngos_idle = Ok pairs_idle.
Proof.
  split; [exact try_body_idle|]. split; [|exact run_idle].
  unfold GenerateAllScores.generate_all_scores.
  change (v <- col ngos_idle "NGO" ;; t <- text v ;; Ok (sorted (unique t)))
    with (Ok ["FAO"; "Red Cross"]%string).
  change (v <- col needs_gorkha "district" ;; t <- text v ;; Ok (sorted (unique t)))
    with (Ok ["Gorkha"]%string).
  cbn [bind]. rewrite loops_spec. cbn [flat_map]. unfold scored, reported.
  rewrite try_body_idle, try_body_red_cross. reflexivity.
Qed.

End ErrorPolicy.

(** ** Urgency on every scoring path *)

Section UrgencyOfEveryPath.

Import Examples.
Local Open Scope string_scope.





End UrgencyOfEveryPath.

(** ** Columns of the capability table *)

Section CapabilityColumns.

Import Examples.

Lemma has_col_drop (df : DataFrame) (c l : string) :
  has_col (drop df c) l = has_col df l && negb (String.eqb l c).
Proof.
  unfold has_col, drop. cbn [columns].
  induction (columns df) as [|x cols IH]; [reflexivity|].
  cbn [filter existsb]. destruct (String.eqb x c) eqn:Exc; cbn [negb].
  - rewrite IH. apply String.eqb_eq in Exc. subst x.
    destruct (String.eqb l c) eqn:Elc; cbn [negb orb andb].
    + rewrite andb_false_r. reflexivity.
    + reflexivity.
  - cbn [existsb]. rewrite IH.
    destruct (String.eqb l x) eqn:Elx; cbn [orb]; [|reflexivity].
    apply String.eqb_eq in Elx. subst x. rewrite Exc. reflexivity.
Qed.

Lemma shared_cats_drop (needs ngos : DataFrame) (c : string) :
  shared_cats needs (drop ngos c) = without c (shared_cats needs ngos).
Proof.
  unfold shared_cats, without.
  induction (columns needs) as [|x cols IH]; [reflexivity|].
  cbn [filter]. rewrite has_col_drop.
  destruct (has_col ngos x); cbn [andb].
  - destruct (String.eqb x c) eqn:Exc; cbn [negb andb].
    + destruct (negb (String.eqb x "district")); cbn [filter]; rewrite ?Exc; exact IH.
    + destruct (negb (String.eqb x "district")); cbn [filter]; rewrite ?Exc; cbn [negb];
        rewrite IH; reflexivity.
  - exact IH.
Qed.

Lemma has_col_rename (df : DataFrame) (c c' l : string) :
  l <> c' -> has_col (rename df c c') l = has_col df l && negb (String.eqb l c).
Proof.
  intros Hl. unfold has_col, rename. cbn [columns].
  induction (columns df) as [|x cols IH]; [reflexivity|].
  cbn [map existsb]. rewrite IH.
  destruct (String.eqb x c) eqn:Exc.
  - apply String.eqb_eq in Exc. subst x.
    assert (E : String.eqb l c' = false) by (apply String.eqb_neq; exact Hl).
    rewrite E. destruct (String.eqb l c); cbn [orb negb andb].
    + rewrite andb_false_r. reflexivity.
    + reflexivity.
  - destruct (String.eqb l x) eqn:Elx; cbn [orb]; [|reflexivity].
    apply String.eqb_eq in Elx. subst x. rewrite Exc. reflexivity.
Qed.

Lemma shared_cats_rename (needs ngos : DataFrame) (c c' : string) :
  ~ In c' (columns needs) ->
  shared_cats needs (rename ngos c c') = shared_cats needs (drop ngos c).
Proof.
  intros Hc'. unfold shared_cats. apply filter_ext_in. intros l Hl.
  rewrite has_col_drop, has_col_rename; [reflexivity|].
  intros ->. contradiction.
Qed.

Lemma Rsum_without (val : string -> R) (c : string) (cats : list string) :
  NoDup cats -> In c cats ->
  Rsum (map val cats) = val c + Rsum (map val (without c cats)) /\
  List.length cats = S (List.length (without c cats)).
Proof.
  unfold without. induction cats as [|x cats IH]; intros Hnd Hin; [destruct Hin|].
  inversion Hnd as [|? ? Hx Hnd']; subst.
  cbn [filter map]. destruct (String.eqb x c) eqn:Exc; cbn [negb].
  - apply String.eqb_eq in Exc. subst x.
    assert (E : filter (fun l => negb (String.eqb l c)) cats = cats).
    { clear IH Hin Hnd Hnd'. induction cats as [|y cats IH]; [reflexivity|].
      cbn [filter]. destruct (String.eqb y c) eqn:Eyc.
      - apply String.eqb_eq in Eyc. subst y. exfalso. apply Hx. left; reflexivity.
      - cbn [negb]. rewrite IH; [reflexivity|]. intros H. apply Hx. right; exact H. }
    rewrite E. split; reflexivity.
  - destruct Hin as [->|Hin]; [rewrite String.eqb_refl in Exc; discriminate|].
    destruct (IH Hnd' Hin) as [Hs Hl]. cbn [map Rsum fold_right List.length].
    change (fold_right Rplus 0 (map val cats)) with (Rsum (map val cats)).
    change (fold_right Rplus 0 (map val (filter (fun l => negb (String.eqb l c)) cats)))
      with (Rsum (map val (filter (fun l => negb (String.eqb l c)) cats))).
    rewrite Hs, Hl. split; [ring | reflexivity].
Qed.

Lemma shared_cats_NoDup (needs ngos : DataFrame) :
  NoDup (columns needs) -> NoDup (shared_cats needs ngos).
Proof. intros H. unfold shared_cats. apply NoDup_filter, H. Qed.

Lemma mean_changes (x S : R) (n : nat) :
  (0 < n)%nat ->
  ((x + S) / INR (Datatypes.S n) = S / INR n <-> x = S / INR n).
Proof.
  intros Hn. assert (0 < INR n) by (apply lt_0_INR; exact Hn).
  rewrite S_INR. split; intros E.
  - assert (E1 : (x + S) / (INR n + 1) * (INR n + 1) * INR n
                 = S / INR n * INR n * (INR n + 1)) by (rewrite E; ring).
    replace ((x + S) / (INR n + 1) * (INR n + 1) * INR n) with ((x + S) * INR n) in E1
      by (field; lra).
    replace (S / INR n * INR n * (INR n + 1)) with (S * (INR n + 1)) in E1 by (field; lra).
    apply Rmult_eq_reg_r with (INR n); [|lra].
    replace (S / INR n * INR n) with S by (field; lra). lra.
  - subst x. field. lra.
Qed.

Lemma map_cells (reg : Series) (val : string -> R) (cats : list string) :
  (forall l, In l cats -> reg l = Num (Fin (val l))) ->
  map reg cats = map Num (fins (map val cats)).
Proof.
  intros H. unfold fins. rewrite !map_map. apply map_ext_in. exact H.
Qed.

Lemma in_without (c l : string) (cats : list string) :
  In l (without c cats) -> In l cats.
Proof. unfold without. intros H. apply filter_In in H. tauto. Qed.

(** C10 (as amended).  [calculate_match_and_urgency] and [predict_fitness]
    take both match and urgency over the columns shared by the two tables,
    the district key excluded: the match is the cosine of the two rows over
    those columns and the urgency the mean of the district's needs over them,
    divided by 100.  Removing a shared column [c] from the capability table,
    or renaming it to a label the need table lacks, removes it from those
    columns, so that the urgency of a district becomes the mean of its
    remaining need values over 100; in exact arithmetic it is unchanged
    exactly when some column remains and the need in [c] equals the mean of
    the remaining needs. *)
Theorem urgency_follows_shared_columns (model : Model) (needs ngos ngos' : DataFrame)
    (c c' : string) (ngo_name district_name : string) (val : string -> R) :
  NoDup (columns needs) ->
  In c (shared_cats needs ngos) ->
  ngos' = drop ngos c \/ (ngos' = rename ngos c c' /\ ~ In c' (columns needs)) ->
  (forall reg, In reg (rows needs) -> reg "district"%string = Str district_name ->
     forall l, In l (shared_cats needs ngos) -> reg l = Num (Fin (val l))) ->
  shared_cats needs ngos' = without c (shared_cats needs ngos) /\
  (forall t, t = ngos \/ t = ngos' ->
     (forall m u,
        GenerateAllScores.calculate_match_and_urgency needs t ngo_name district_name
        = Ok (m, u) ->
        (exists ngo reg,
           In ngo (rows t) /\ ngo "NGO"%string = Str ngo_name /\
           In reg (rows needs) /\ reg "district"%string = Str district_name /\
           GenerateAllScores.cosine (map ngo (shared_cats needs t))
                                    (map reg (shared_cats needs t)) = Ok m) /\
        u = mean_urgency (fins (map val (shared_cats needs t)))) /\
     (forall score,
        Predict.predict_fitness model needs t ngo_name district_name = Ok score ->
        exists ngo reg m,
          In ngo (rows t) /\ ngo "NGO"%string = Str ngo_name /\
          In reg (rows needs) /\ reg "district"%string = Str district_name /\
          Predict.cosine (map ngo (shared_cats needs t))
                         (map reg (shared_cats needs t)) = Ok m /\
          model m (mean_urgency (fins (map val (shared_cats needs t)))) = Ok score)) /\
  (forall m u m' u',
     GenerateAllScores.calculate_match_and_urgency needs ngos ngo_name district_name
     = Ok (m, u) ->
     GenerateAllScores.calculate_match_and_urgency needs ngos' ngo_name district_name
     = Ok (m', u') ->
     u = Fin (Rmean (map val (shared_cats needs ngos)) / 100) /\
     u' = mean_urgency (fins (map val (without c (shared_cats needs ngos)))) /\
     (u' = u <->
      without c (shared_cats needs ngos) <> [] /\
      val c = Rmean (map val (without c (shared_cats needs ngos))))).
Proof.
  intros Hnd Hc Hngos' Hval.
  assert (Hd : shared_cats needs ngos' = without c (shared_cats needs ngos)).
  { destruct Hngos' as [->|[-> Hc']].
    - apply shared_cats_drop.
    - rewrite shared_cats_rename by exact Hc'. apply shared_cats_drop. }
  assert (Hcells : forall t, t = ngos \/ t = ngos' ->
            forall reg, In reg (rows needs) -> reg "district"%string = Str district_name ->
            map reg (shared_cats needs t) = map Num (fins (map val (shared_cats needs t)))).
  { intros t Ht reg Hr Hn. apply map_cells. intros l Hl. apply (Hval reg Hr Hn).
    destruct Ht as [->| ->]; [exact Hl|]. rewrite Hd in Hl. exact (in_without c l _ Hl). }
  assert (Hcalc : forall t, t = ngos \/ t = ngos' -> forall m u,
            GenerateAllScores.calculate_match_and_urgency needs t ngo_name district_name
            = Ok (m, u) ->
            (exists ngo reg,
               In ngo (rows t) /\ ngo "NGO"%string = Str ngo_name /\
               In reg (rows needs) /\ reg "district"%string = Str district_name /\
               Predict.cosine (map ngo (shared_cats needs t))
                              (map reg (shared_cats needs t)) = Ok m) /\
            u = mean_urgency (fins (map val (shared_cats needs t)))).
  { intros t Ht m u H. apply calculate_ok_inv in H.
    destruct H as [ngo [reg [N [H1 [H2 [H3 [H4 [H5 [H6 ->]]]]]]]]].
    rewrite (Hcells t Ht reg H3 H4), numeric_nums in H6. inversion H6; subst N.
    split; [|reflexivity]. exists ngo, reg. repeat split; assumption. }
  split; [exact Hd|]. split.
  - intros t Ht. split; [exact (Hcalc t Ht)|].
    intros score H. rewrite predict_fitness_factors in H.
    apply bind_ok_inv in H. destruct H as [[m u] [Hmu Hm]]. cbn [fst snd] in Hm.
    destruct (Hcalc t Ht m u Hmu) as [[ngo [reg [H1 [H2 [H3 [H4 H5]]]]]] ->].
    exists ngo, reg, m. repeat split; assumption.
  - intros m u m' u' Hu Hu'.
    destruct (Hcalc ngos (or_introl eq_refl) m u Hu) as [_ ->].
    destruct (Hcalc ngos' (or_intror eq_refl) m' u' Hu') as [_ ->].
    rewrite Hd. set (cats := shared_cats needs ngos) in *.
    assert (Hne : map val cats <> []) by (destruct cats; [destruct Hc | discriminate]).
    split; [apply mean_urgency_fins, Hne|]. split; [reflexivity|].
    rewrite (mean_urgency_fins _ Hne).
    destruct (Rsum_without val c cats (shared_cats_NoDup needs ngos Hnd) Hc) as [Hs Hl].
    destruct (without c cats) as [|y rest] eqn:Ew.
    + cbn [map fins]. rewrite mean_urgency_empty. split; [discriminate|].
      intros [H _]. contradiction.
    + rewrite mean_urgency_fins by discriminate.
      assert (Hm : Rmean (map val cats) = Rmean (map val (y :: rest))
                   <-> val c = Rmean (map val (y :: rest))).
      { unfold Rmean. rewrite Hs, !length_map, Hl. apply mean_changes. simpl; lia. }
      split.
      * intros E. split; [discriminate|]. apply Hm. injection E as E'.
        change (val y :: map val rest) with (map val (y :: rest)) in E'. lra.
      * intros [_ E]. apply Hm in E. rewrite E. reflexivity.
Qed.

Lemma calculate_even (ngos : DataFrame) (a b : list R) :
  (v <- loc_eq ngos "NGO" "Habitat for Humanity" (shared_cats needs_even ngos) ;; first v)
  = Ok (map Num (fins a)) ->
  (v <- loc_eq needs_even "district" "Gorkha" (shared_cats needs_even ngos) ;; first v)
  = Ok (map Num (fins b)) ->
  List.length a = List.length b ->
  GenerateAllScores.calculate_match_and_urgency needs_even ngos
    "Habitat for Humanity" "Gorkha"
  = Ok (fdiv (Fin (Rdot a b)) (Fin (sqrt (Rsumsq a) * sqrt (Rsumsq b))),
        mean_urgency (fins b)).
Proof.
  intros Ha Hb Hl.
  unfold GenerateAllScores.calculate_match_and_urgency, GenerateAllScores.cats.
  rewrite Ha, Hb. cbn [bind].
  change (GenerateAllScores.cosine (map Num (fins a)) (map Num (fins b)))
    with (Predict.cosine (map Num (fins a)) (map Num (fins b))).
  rewrite predict_cosine_fins by assumption. cbn [bind].
  rewrite numeric_nums. reflexivity.
Qed.

Lemma calculate_even_full :
  GenerateAllScores.calculate_match_and_urgency needs_even ngos_shelter
    "Habitat for Humanity" "Gorkha"
  = Ok (fdiv (Fin (Rdot [1; 0] [50; 50]))
             (Fin (sqrt (Rsumsq [1; 0]) * sqrt (Rsumsq [50; 50]))),
        mean_urgency (fins [50; 50])).
Proof. apply calculate_even; reflexivity. Qed.

Lemma calculate_even_dropped :
  GenerateAllScores.calculate_match_and_urgency needs_even
    (drop ngos_shelter "Emergency Food Distribution") "Habitat for Humanity" "Gorkha"
  = Ok (fdiv (Fin (Rdot [1] [50])) (Fin (sqrt (Rsumsq [1]) * sqrt (Rsumsq [50]))),
        mean_urgency (fins [50])).
Proof. apply calculate_even; reflexivity. Qed.

(** C10, refuted as stated.  For a district whose two needs are both 50,
    removing the food column from the capability table leaves its urgency at
    1/2. *)
Lemma removing_a_column_may_keep_urgency :
  In "Emergency Food Distribution"%string (shared_cats needs_even ngos_shelter) /\
  exists m m' u,
    GenerateAllScores.calculate_match_and_urgency needs_even ngos_shelter
      "Habitat for Humanity" "Gorkha" = Ok (m, u) /\
    GenerateAllScores.calculate_match_and_urgency needs_even
      (drop ngos_shelter "Emergency Food Distribution") "Habitat for Humanity" "Gorkha"
    = Ok (m', u) /\
    u = Fin (1 / 2).
Proof.
  split; [right; left; reflexivity|].
  do 2 eexists. exists (Fin (1 / 2)).
  rewrite calculate_even_full, calculate_even_dropped.
  rewrite !mean_urgency_fins by discriminate.
  replace (Rmean [50; 50] / 100) with (1 / 2) by (unfold Rmean; simpl; lra).
  replace (Rmean [50] / 100) with (1 / 2) by (unfold Rmean; simpl; lra).
  repeat split; reflexivity.
Qed.

Lemma calculate_even_renamed :
  GenerateAllScores.calculate_match_and_urgency needs_even
    (rename ngos_shelter "Emergency Food Distribution" "Nutrition")
    "Habitat for Humanity" "Gorkha"
  = Ok (fdiv (Fin (Rdot [1] [50])) (Fin (sqrt (Rsumsq [1]) * sqrt (Rsumsq [50]))),
        mean_urgency (fins [50])).
Proof. apply calculate_even; reflexivity. Qed.

Lemma predict_even_renamed :
  Predict.predict_fitness echo_model needs_even
    (rename ngos_shelter "Emergency Food Distribution" "Nutrition")
    "Habitat for Humanity" "Gorkha"
  = Ok (fdiv (Fin (Rdot [1] [50])) (Fin (sqrt (Rsumsq [1]) * sqrt (Rsumsq [50])))).
Proof. rewrite predict_fitness_factors, calculate_even_renamed. reflexivity. Qed.

Lemma urgency_follows_shared_columns_witness :
  shared_cats needs_even (rename ngos_shelter "Emergency Food Distribution" "Nutrition")
  = without "Emergency Food Distribution" (shared_cats needs_even ngos_shelter) /\
  (exists ngo reg m,
     In ngo (rows (rename ngos_shelter "Emergency Food Distribution" "Nutrition")) /\
     ngo "NGO"%string = Str "Habitat for Humanity" /\
     In reg (rows needs_even) /\ reg "district"%string = Str "Gorkha" /\
     Predict.cosine
       (map ngo (shared_cats needs_even
                   (rename ngos_shelter "Emergency Food Distribution" "Nutrition")))
       (map reg (shared_cats needs_even
                   (rename ngos_shelter "Emergency Food Distribution" "Nutrition")))
     = Ok m /\
     echo_model m
       (mean_urgency
          (fins (map val_even
                   (shared_cats needs_even
                      (rename ngos_shelter "Emergency Food Distribution" "Nutrition")))))
     = Ok (fdiv (Fin (Rdot [1] [50])) (Fin (sqrt (Rsumsq [1]) * sqrt (Rsumsq [50]))))) /\
  mean_urgency (fins [50; 50])
  = Fin (Rmean (map val_even (shared_cats needs_even ngos_shelter)) / 100) /\
  mean_urgency (fins [50])
  = mean_urgency (fins (map val_even (without "Emergency Food Distribution"
                                        (shared_cats needs_even ngos_shelter)))) /\
  (mean_urgency (fins [50]) = mean_urgency (fins [50; 50]) <->
   without "Emergency Food Distribution" (shared_cats needs_even ngos_shelter) <> [] /\
   val_even "Emergency Food Distribution"
   = Rmean (map val_even (without "Emergency Food Distribution"
                            (shared_cats needs_even ngos_shelter)))).
Proof.
  destruct (urgency_follows_shared_columns echo_model needs_even ngos_shelter
              (rename ngos_shelter "Emergency Food Distribution" "Nutrition")
              "Emergency Food Distribution" "Nutrition" "Habitat for Humanity" "Gorkha"
              val_even) as [Hd [Hpath Hboth]].
  - repeat constructor; simpl; intuition discriminate.
  - right; left; reflexivity.
  - right. split; [reflexivity | simpl; intuition discriminate].
  - intros reg [<-|[]] _ l [<-|[<-|[]]]; reflexivity.
  - split; [exact Hd|]. split.
    + exact (proj2 (Hpath _ (or_intror eq_refl)) _ predict_even_renamed).
    + exact (Hboth _ _ _ _ calculate_even_full calculate_even_renamed).
Defined.

End CapabilityColumns.

(** * Further properties of the scripts *)

(** ** The loops of generate_all_scores.py account for every combination *)

Section Accounting.

Import GenerateAllScores.

Variable model : Model.
Variables needs ngos : DataFrame.

Lemma one_outcome (ngo d : string) :
  (List.length (scored model needs ngos ngo d)
   + List.length (reported model needs ngos ngo d) = 1)%nat.
Proof.
  unfold scored, reported. destruct (try_body model needs ngos ngo d); reflexivity.
Qed.

Lemma outcomes_of_ngo (ngo : string) (ds : list string) :
  (List.length (flat_map (scored model needs ngos ngo) ds)
   + List.length (flat_map (reported model needs ngos ngo) ds) = List.length ds)%nat.
Proof.
  induction ds as [|d ds IH]; [reflexivity|].
  cbn [flat_map]. rewrite !length_app. pose proof (one_outcome ngo d). simpl. lia.
Qed.

(** X1.  The loops of [generate_all_scores] account for every combination
    of an organisation and a district they run over: the rows kept and the
    error lines printed add up to the number of combinations, and each
    combination has its row in the results when its scoring returned, or its
    error line when its scoring raised. *)
Theorem every_combination_is_scored_or_reported
    (unique_ngos unique_districts : list string) :
  (List.length (fst (loops model needs ngos unique_ngos unique_districts))
   + List.length (snd (loops model needs ngos unique_ngos unique_districts))
   = List.length unique_ngos * List.length unique_districts)%nat /\
  forall ngo d, In ngo unique_ngos -> In d unique_districts ->
    (exists r, try_body model needs ngos ngo d = Ok r /\
               In r (fst (loops model needs ngos unique_ngos unique_districts))) \/
    (exists e, try_body model needs ngos ngo d = Raise e /\
               In (ErrorProcessing ngo d e)
                  (snd (loops model needs ngos unique_ngos unique_districts))).
Proof.
  rewrite loops_spec. cbn [fst snd]. split.
  - induction unique_ngos as [|n ns IH]; [reflexivity|].
    cbn [flat_map]. rewrite !length_app.
    pose proof (outcomes_of_ngo n unique_districts). simpl. lia.
  - intros ngo d Hn Hd.
    destruct (try_body model needs ngos ngo d) as [r|e] eqn:E; [left; exists r|right; exists e];
      (split; [reflexivity|]); apply in_flat_map; exists ngo; (split; [exact Hn|]);
      apply in_flat_map; exists d; (split; [exact Hd|]).
    + unfold scored. rewrite E. left; reflexivity.
    + unfold reported. rewrite E. left; reflexivity.
Qed.

End Accounting.

(** ** The rows and the error lines of generate_all_scores.py *)

Lemma in_insert_sorted (x y : string) (l : list string) :
  In y (insert_sorted x l) <-> y = x \/ In y l.
Proof.
  induction l as [|z l IH]; simpl.
  - split; intros [H|H]; auto; destruct H.
  - destruct (String.leb x z); simpl.
    + split; intros [H|H]; auto.
    + rewrite IH. split; intros H; intuition.
Qed.

Lemma in_sorted (y : string) (l : list string) : In y (sorted l) <-> In y l.
Proof.
  unfold sorted. induction l as [|x l IH]; simpl; [tauto|].
  rewrite in_insert_sorted, IH. split; intros [H|H]; auto.
Qed.

Lemma in_unique (y : string) (l : list string) : In y (unique l) <-> In y l.
Proof.
  induction l as [|x l IH]; simpl; [tauto|].
  rewrite filter_In, IH. split.
  - intros [H|[H _]]; auto.
  - intros [H|H]; auto.
    destruct (String.eqb y x) eqn:E.
    + apply String.eqb_eq in E. left. symmetry. exact E.
    + right. split; [exact H|]. reflexivity.
Qed.

Lemma text_in (v : list cell) (t : list string) (s : string) :
  text v = Ok t -> In s t -> In (Str s) v.
Proof.
  unfold text. intros H. apply mapM_ok_inv in H.
  induction H as [|c s' v t Hc _ IH]; intros Hs; [destruct Hs|].
  destruct Hs as [<-|Hs]; [left | right; apply IH, Hs].
  destruct c; inversion Hc; reflexivity.
Qed.

(** The names the loops of [generate_all_scores] run over are carried by
    rows of the table. *)
Lemma unique_names_are_known (df : DataFrame) (key : string) (names : list string)
    (name : string) :
  (v <- col df key ;; t <- text v ;; Ok (sorted (unique t))) = Ok names ->
  In name names ->
  has_col df key = true /\ exists r, In r (rows df) /\ r key = Str name.
Proof.
  intros H Hin. apply bind_ok_inv in H. destruct H as [v [Hv H]].
  apply bind_ok_inv in H. destruct H as [t [Ht H]]. inversion H; subst names.
  apply (proj1 (in_sorted _ _)) in Hin. apply (proj1 (in_unique _ _)) in Hin.
  unfold col in Hv. destruct (has_col df key); [|discriminate].
  inversion Hv; subst v. split; [reflexivity|].
  apply (text_in _ _ _ Ht) in Hin. apply in_map_iff in Hin.
  destruct Hin as [r [E Hr]]. exists r. split; assumption.
Qed.

Lemma zip_mul_same_length (a b : array) :
  List.length a = List.length b -> exists p, zip_mul a b = Ok p.
Proof.
  revert b; induction a as [|x a IH]; intros [|y b] Hl; simpl in *; try discriminate.
  - eexists; reflexivity.
  - destruct (IH b) as [p E]; [lia|]. rewrite E. eexists; reflexivity.
Qed.

Lemma numeric_length (a : ndarray) (x : array) :
  numeric a = Ok x -> List.length x = List.length a.
Proof. apply mapM_length. Qed.

(** On vectors of one length the quotient of [predict.py] raises nothing but
    the [TypeError] of a text cell. *)
Lemma predict_cosine_type_error (a b : ndarray) (e : exn) :
  List.length a = List.length b ->
  Predict.cosine a b = Raise e -> e = TypeError.
Proof.
  intros Hl. unfold Predict.cosine.
  destruct (numeric a) as [x|e1] eqn:Ea; cbn [bind];
    [|intros H; inversion H; subst; apply (numeric_raise _ _ Ea)].
  destruct (numeric b) as [y|e2] eqn:Eb; cbn [bind];
    [|intros H; inversion H; subst; apply (numeric_raise _ _ Eb)].
  destruct (zip_mul_same_length x y) as [p Ep].
  { rewrite (numeric_length _ _ Ea), (numeric_length _ _ Eb). exact Hl. }
  unfold dot. rewrite Ep. cbn [bind]. discriminate.
Qed.

Lemma lookup_known (df : DataFrame) (key name : string) (cats : list string) :
  has_col df key = true ->
  (forall c, In c cats -> has_col df c = true) ->
  (exists r, In r (rows df) /\ r key = Str name) ->
  exists r, In r (rows df) /\ r key = Str name /\
    (v <- loc_eq df key name cats ;; first v) = Ok (map r cats).
Proof.
  intros Hk Hc [r0 [Hr0 Hn0]]. rewrite loc_eq_ok by assumption. cbn [bind].
  destruct (filter (fun r => cell_eq_str (r key) name) (rows df)) as [|r l] eqn:E.
  - exfalso. apply (filter_nil_unknown _ _ _ E r0 Hr0 Hn0).
  - assert (Hr : In r (filter (fun r => cell_eq_str (r key) name) (rows df)))
      by (rewrite E; left; reflexivity).
    apply filter_In in Hr. destruct Hr as [Hr Hn]. apply cell_eq_str_true in Hn.
    exists r. repeat split; assumption.
Qed.

(** With both names carried by rows, [calculate_match_and_urgency] raises
    nothing but [TypeError]. *)
Lemma calculate_known_raises_type_error (needs ngos : DataFrame) (ngo d : string) (e : exn) :
  has_col ngos "NGO" = true -> has_col needs "district" = true ->
  (exists r, In r (rows ngos) /\ r "NGO"%string = Str ngo) ->
  (exists r, In r (rows needs) /\ r "district"%string = Str d) ->
  GenerateAllScores.calculate_match_and_urgency needs ngos ngo d = Raise e ->
  e = TypeError.
Proof.
  intros Hkn Hkd Hn Hd. unfold GenerateAllScores.calculate_match_and_urgency,
    GenerateAllScores.cats.
  destruct (lookup_known ngos "NGO" ngo (shared_cats needs ngos) Hkn
              (shared_cats_in_ngos needs ngos) Hn) as [rn [_ [_ En]]].
  destruct (lookup_known needs "district" d (shared_cats needs ngos) Hkd
              (shared_cats_in_needs needs ngos) Hd) as [rd [_ [_ Ed]]].
  rewrite En, Ed. cbn [bind].
  change (GenerateAllScores.cosine ?a ?b) with (Predict.cosine a b).
  destruct (Predict.cosine _ _) as [m|e1] eqn:Ec; cbn [bind].
  - destruct (numeric (map rd (shared_cats needs ngos))) as [n|e2] eqn:Eu; cbn [bind];
      [discriminate|].
    intros H; inversion H; subst. apply (numeric_raise _ _ Eu).
  - intros H; inversion H; subst.
    apply (predict_cosine_type_error _ _ _ (eq_trans (length_map _ _) (eq_sym (length_map _ _))) Ec).
Qed.

Section Batch.

Import GenerateAllScores.

Variable model : Model.
Variables needs ngos : DataFrame.

Lemma in_results (us ds : list string) (r : score) :
  In r (fst (loops model needs ngos us ds)) ->
  In (NGO r) us /\ In (district r) ds /\
  try_body model needs ngos (NGO r) (district r) = Ok r.
Proof.
  rewrite loops_spec. cbn [fst]. intros H.
  apply in_flat_map in H. destruct H as [ngo [Hn H]].
  apply in_flat_map in H. destruct H as [d [Hd H]].
  unfold scored in H. destruct (try_body model needs ngos ngo d) as [r'|e] eqn:E;
    [|destruct H].
  destruct H as [<-|[]].
  assert (Hr : NGO r' = ngo /\ district r' = d).
  { unfold try_body in E. apply bind_ok_inv in E. destruct E as [mu [_ E]].
    apply bind_ok_inv in E. destruct E as [f [_ E]]. inversion E. split; reflexivity. }
  destruct Hr as [-> ->]. repeat split; assumption.
Qed.

Lemma in_messages (us ds : list string) (ngo d : string) (e : exn) :
  In (ErrorProcessing ngo d e) (snd (loops model needs ngos us ds)) ->
  In ngo us /\ In d ds /\ try_body model needs ngos ngo d = Raise e.
Proof.
  rewrite loops_spec. cbn [snd]. intros H.
  apply in_flat_map in H. destruct H as [ngo' [Hn H]].
  apply in_flat_map in H. destruct H as [d' [Hd H]].
  unfold reported in H. destruct (try_body model needs ngos ngo' d') as [r'|e'] eqn:E;
    [destruct H|].
  destruct H as [H|[]]. inversion H; subst. repeat split; assumption.
Qed.

(** X2.  Every row of the frame [generate_all_scores] saves carries the
    match and the urgency that [calculate_match_and_urgency] returns for its
    organisation and district, and the fitness score that [predict_fitness]
    (of the same script and of [predict.py]) returns for them. *)
Theorem batch_rows_are_single_predictions (results : list score) (msgs : list message)
    (r : score) :
  generate_all_scores model needs ngos = Ok (results, msgs) ->
  In r results ->
  calculate_match_and_urgency needs ngos (NGO r) (district r) = Ok (match_ r, urgency r) /\
  Predict.predict_fitness model needs ngos (NGO r) (district r) = Ok (fitness_score r) /\
  predict_fitness model needs ngos (NGO r) (district r) = Ok (fitness_score r).
Proof.
  intros H Hr. unfold generate_all_scores in H.
  apply bind_ok_inv in H. destruct H as [us [_ H]].
  apply bind_ok_inv in H. destruct H as [ds [_ H]].
  inversion H as [Hl]. clear H.
  assert (Hin : In r (fst (loops model needs ngos us ds))) by (rewrite Hl; exact Hr).
  apply in_results in Hin. destruct Hin as [_ [_ E]].
  unfold try_body in E. apply bind_ok_inv in E. destruct E as [[m u] [Hmu E]].
  apply bind_ok_inv in E. destruct E as [f [Hf E]]. cbn [fst snd] in *.
  injection E as <-. cbn [NGO district match_ urgency fitness_score] in *.
  split; [exact Hmu|].
  rewrite predict_fitness_factors. unfold predict_fitness. rewrite Hmu. cbn [bind fst snd].
  split; exact Hf.
Qed.

(** X3.  The names [generate_all_scores] loops over come from the two
    tables, so a lookup never fails there: a combination it reports failed
    either with the [TypeError] of a text cell in a shared column, or inside
    [model.predict]. *)
Theorem reported_errors_come_from_text_or_model (results : list score)
    (msgs : list message) (ngo d : string) (e : exn) :
  generate_all_scores model needs ngos = Ok (results, msgs) ->
  In (ErrorProcessing ngo d e) msgs ->
  (calculate_match_and_urgency needs ngos ngo d = Raise TypeError /\ e = TypeError) \/
  (exists m u, calculate_match_and_urgency needs ngos ngo d = Ok (m, u) /\
               model m u = Raise e).
Proof.
  intros H Hm. unfold generate_all_scores in H.
  apply bind_ok_inv in H. destruct H as [us [Hus H]].
  apply bind_ok_inv in H. destruct H as [ds [Hds H]].
  inversion H as [Hl]. clear H.
  assert (Hin : In (ErrorProcessing ngo d e) (snd (loops model needs ngos us ds)))
    by (rewrite Hl; exact Hm).
  apply in_messages in Hin. destruct Hin as [Hn [Hd E]].
  destruct (unique_names_are_known _ _ _ _ Hus Hn) as [Hkn Hrn].
  destruct (unique_names_are_known _ _ _ _ Hds Hd) as [Hkd Hrd].
  unfold try_body in E.
  destruct (calculate_match_and_urgency needs ngos ngo d) as [[m u]|e'] eqn:Ec; cbn [bind] in E.
  - right. exists m, u. split; [reflexivity|]. cbn [fst snd] in E.
    destruct (model m u) as [f|e''] eqn:Ef; cbn [bind] in E; [discriminate|].
    inversion E; subst. reflexivity.
  - left. inversion E; subst e'.
    pose proof (calculate_known_raises_type_error _ _ _ _ _ Hkn Hkd Hrn Hrd Ec). subst e.
    split; reflexivity.
Qed.

End Batch.

(** ** The command line of predict.py *)

(** [IndexError] from [predict_fitness] comes from an unknown name or from
    the model. *)
Lemma index_error_sources (model : Model) (needs ngos : DataFrame)
    (ngo_name district_name : string) :
  Predict.predict_fitness model needs ngos ngo_name district_name = Raise IndexError ->
  unknown ngos "NGO" ngo_name \/ unknown needs "district" district_name \/
  exists m u, model m u = Raise IndexError.
Proof.
  unfold Predict.predict_fitness.
  destruct (v <- loc_eq ngos "NGO" ngo_name (Predict.cats needs ngos) ;; first v)
    as [ngo_vec|e] eqn:En; cbn [bind].
  - destruct (v <- loc_eq needs "district" district_name (Predict.cats needs ngos) ;; first v)
      as [reg_vec|e] eqn:Ed; cbn [bind].
    + destruct (Predict.cosine ngo_vec reg_vec) as [m|e] eqn:Ec; cbn [bind].
      * unfold Predict.urgency_of.
        destruct (numeric reg_vec) as [n|e] eqn:Eu; cbn [bind].
        -- intros H. right. right. eexists; eexists; exact H.
        -- intros H. inversion H; subst. apply numeric_raise in Eu. discriminate.
      * intros H. inversion H; subst. exfalso.
        exact (predict_cosine_raise _ _ _ Ec eq_refl).
    + intros H. inversion H; subst. right. left.
      apply lookup_index_error with (cats := Predict.cats needs ngos). exact Ed.
  - intros H. inversion H; subst. left.
    apply lookup_index_error with (cats := Predict.cats needs ngos). exact En.
Qed.

Lemma isin_false_unknown (df : DataFrame) (key name : string) :
  isin df key name = Ok false -> unknown df key name.
Proof.
  intros E r Hr Hn. pose proof (proj2 (isin_spec _ _ _ _ E)) as H.
  assert (false = true) by (apply H; exists r; split; assumption). discriminate.
Qed.

Lemma isin_true_known (df : DataFrame) (key name : string) :
  isin df key name = Ok true -> ~ unknown df key name.
Proof.
  intros E Hu. destruct (proj1 (isin_spec _ _ _ _ E) eq_refl) as [r [Hr Hn]].
  exact (Hu r Hr Hn).
Qed.

Lemma isin_raise (df : DataFrame) (key name : string) (e : exn) :
  isin df key name = Raise e -> e = KeyError key.
Proof.
  unfold isin, col. destruct (has_col df key); cbn [bind]; [discriminate|].
  intros H; inversion H; reflexivity.
Qed.

Lemma head10_raise (df : DataFrame) (key : string) (e : exn) :
  Predict.head10 df key = Raise e -> e <> IndexError.
Proof.
  unfold Predict.head10, col. destruct (has_col df key); cbn [bind];
    [|intros H; inversion H; discriminate].
  destruct (text _) as [t|e'] eqn:Et; cbn [bind]; [discriminate|].
  intros H; inversion H; subst e'. unfold text in Et.
  apply mapM_raise_inv in Et. destruct Et as [c [_ Hc]].
  destruct c; inversion Hc. discriminate.
Qed.

(** X4.  Called with an organisation and a district, the command line of
    [predict.py] ends in one of four ways: it prints the score
    [predict_fitness] returned; the organisation is in no row and it exits
    with status 1 after the not-found message; the same for the district; or
    an exception escapes, which is an [IndexError] only when the model itself
    raises one (the two membership tests make the lookups safe). *)
Theorem command_line_outcomes (model : Model) (needs ngos : DataFrame)
    (prog ngo_name district_name : string) :
  (exists score,
     Predict.predict_fitness model needs ngos ngo_name district_name = Ok score /\
     Predict.main model needs ngos [prog; ngo_name; district_name]
     = Predict.Finished [Predict.PredictedFitnessScore score; Predict.NgoLine ngo_name;
                         Predict.DistrictLine district_name]) \/
  (exists names,
     unknown ngos "NGO" ngo_name /\
     Predict.main model needs ngos [prog; ngo_name; district_name]
     = Predict.SysExit 1 [Predict.NgoNotFound ngo_name; Predict.AvailableNgos names]) \/
  (exists names,
     unknown needs "district" district_name /\
     Predict.main model needs ngos [prog; ngo_name; district_name]
     = Predict.SysExit 1 [Predict.DistrictNotFound district_name;
                          Predict.AvailableDistricts names]) \/
  (exists e out,
     Predict.main model needs ngos [prog; ngo_name; district_name] = Predict.Uncaught e out /\
     (e = IndexError -> exists m u, model m u = Raise IndexError)).
Proof.
  unfold Predict.main.
  destruct (isin ngos "NGO" ngo_name) as [[|]|e] eqn:En; cbn [Predict.try_ negb].
  - destruct (isin needs "district" district_name) as [[|]|e] eqn:Ed; cbn [Predict.try_ negb].
    + destruct (Predict.predict_fitness model needs ngos ngo_name district_name)
        as [score|e] eqn:Ep; cbn [Predict.try_].
      * left. exists score. split; reflexivity.
      * right. right. right. exists e, []. split; [reflexivity|]. intros ->.
        destruct (index_error_sources _ _ _ _ _ Ep) as [Hu|[Hu|Hm]].
        -- exfalso. exact (isin_true_known _ _ _ En Hu).
        -- exfalso. exact (isin_true_known _ _ _ Ed Hu).
        -- exact Hm.
    + destruct (Predict.head10 needs "district") as [names|e] eqn:Eh; cbn [Predict.try_].
      * right. right. left. exists names. split; [|reflexivity].
        apply isin_false_unknown, Ed.
      * right. right. right. do 2 eexists. split; [reflexivity|]. intros ->.
        exfalso. exact (head10_raise _ _ _ Eh eq_refl).
    + right. right. right. do 2 eexists. split; [reflexivity|]. intros ->.
      apply isin_raise in Ed. discriminate.
  - destruct (Predict.head10 ngos "NGO") as [names|e] eqn:Eh; cbn [Predict.try_].
    + right. left. exists names. split; [|reflexivity]. apply isin_false_unknown, En.
    + right. right. right. do 2 eexists. split; [reflexivity|]. intros ->.
      exfalso. exact (head10_raise _ _ _ Eh eq_refl).
  - right. right. right. do 2 eexists. split; [reflexivity|]. intros ->.
    apply isin_raise in En. discriminate.
Qed.

(** Any other number of arguments prints the usage and exits with status 1. *)
Lemma usage_on_other_arguments (model : Model) (needs ngos : DataFrame) (argv : list string) :
  List.length argv <> 1%nat -> List.length argv <> 3%nat ->
  Predict.main model needs ngos argv = Predict.SysExit 1 [Predict.Usage].
Proof.
  intros H1 H3. destruct argv as [|a [|b [|c [|d argv]]]]; simpl in *;
    try reflexivity; congruence.
Qed.

(** ** The answers of the web endpoint *)

Lemma astype_float_raise (a : ndarray) (e : exn) :
  astype_float a = Raise e -> e <> IndexError.
Proof.
  intros H. apply mapM_raise_inv in H. destruct H as [c [_ Hc]].
  destruct c; inversion Hc. discriminate.
Qed.

(** The endpoint's [except IndexError] is reached only for an unknown
    name. *)
Lemma dashboard_lookup_raise (needs ngos : DataFrame) (ngo d : string)
    (cats : list string) :
  Dashboard.lookup needs ngos ngo d cats = Raise IndexError ->
  unknown ngos "NGO" ngo \/ unknown needs "district" d.
Proof.
  unfold Dashboard.lookup. rewrite !bind_assoc.
  destruct (v <- loc_eq ngos "NGO" ngo cats ;; first v) as [a|e] eqn:En; cbn [bind].
  - destruct (astype_float a) as [x|e] eqn:Ex; cbn [bind].
    + destruct (v <- loc_eq needs "district" d cats ;; first v) as [b|e] eqn:Ed; cbn [bind].
      * destruct (astype_float b) as [y|e] eqn:Ey; cbn [bind]; [discriminate|].
        intros H; inversion H; subst. exfalso. exact (astype_float_raise _ _ Ey eq_refl).
      * intros H; inversion H; subst. right.
        apply lookup_index_error with (cats := cats). exact Ed.
    + intros H; inversion H; subst. exfalso. exact (astype_float_raise _ _ Ex eq_refl).
  - intros H; inversion H; subst. left.
    apply lookup_index_error with (cats := cats). exact En.
Qed.

Lemma dashboard_cosine_raise (a b : array) (e : exn) :
  Dashboard.cosine a b = Raise e -> e <> IndexError.
Proof.
  unfold Dashboard.cosine. destruct (_ || _); [discriminate|].
  unfold dot. destruct (zip_mul a b) as [p|e'] eqn:E; cbn [bind]; [discriminate|].
  intros H; inversion H; subst. exact (zip_mul_raise _ _ _ E).
Qed.

(** X5.  The answers of the [predict] endpoint: status 400 exactly when
    the organisation or the district is missing or empty; otherwise status
    500 when the tables share no category; otherwise status 404 only for a
    name no row carries; otherwise the fitness the model gives for the
    guarded match and the urgency; or an exception, which is an [IndexError]
    only when the model itself raises one. *)
Theorem endpoint_answers (model : Model) (needs ngos : DataFrame)
    (body_ngo body_district : option string) :
  (Dashboard.falsy body_ngo || Dashboard.falsy body_district = true /\
   Dashboard.predict model needs ngos body_ngo body_district
   = Ok (Dashboard.Error "Provide 'ngo' and 'district'." 400)) \/
  exists ngo district,
    body_ngo = Some ngo /\ body_district = Some district /\
    ngo <> EmptyString /\ district <> EmptyString /\
    ((shared_cats needs ngos = [] /\
      Dashboard.predict model needs ngos body_ngo body_district
      = Ok (Dashboard.Error "No overlapping categories between needs and NGO capabilities."
              500)) \/
     (shared_cats needs ngos <> [] /\
      (unknown ngos "NGO" ngo \/ unknown needs "district" district) /\
      Dashboard.predict model needs ngos body_ngo body_district
      = Ok (Dashboard.Error "Unknown NGO or district." 404)) \/
     (exists ngo_vec reg_vec m pred,
        Dashboard.lookup needs ngos ngo district (shared_cats needs ngos)
        = Ok (ngo_vec, reg_vec) /\
        Dashboard.cosine ngo_vec reg_vec = Ok m /\
        model m (mean_urgency reg_vec) = Ok pred /\
        Dashboard.predict model needs ngos body_ngo body_district
        = Ok (Dashboard.Fitness ngo district pred)) \/
     (exists e,
        Dashboard.predict model needs ngos body_ngo body_district = Raise e /\
        (e = IndexError -> exists m u, model m u = Raise IndexError))).
Proof.
  destruct body_ngo as [[|a ngo]|]; destruct body_district as [[|b district]|];
    try (left; split; reflexivity).
  right. exists (String a ngo), (String b district).
  split; [reflexivity|]. split; [reflexivity|]. split; [discriminate|]. split; [discriminate|].
  unfold Dashboard.predict. cbn [Dashboard.falsy orb].
  destruct (shared_cats needs ngos) as [|c cats] eqn:Ec; [left; split; reflexivity|].
  right.
  destruct (Dashboard.lookup needs ngos (String a ngo) (String b district) (c :: cats))
    as [[ngo_vec reg_vec]|e] eqn:El.
  - right. destruct (Dashboard.cosine ngo_vec reg_vec) as [m|e] eqn:Em; cbn [bind].
    + destruct (model m (mean_urgency reg_vec)) as [pred|e] eqn:Ep; cbn [bind].
      * left. exists ngo_vec, reg_vec, m, pred. repeat split; assumption.
      * right. exists e. split; [reflexivity|]. intros ->. eexists; eexists; exact Ep.
    + right. exists e. split; [reflexivity|]. intros ->.
      exfalso. exact (dashboard_cosine_raise _ _ _ Em eq_refl).
  - destruct e as [|l| |msg].
    + left. split; [discriminate|]. split; [|reflexivity].
      apply dashboard_lookup_raise with (cats := c :: cats). exact El.
    + right. right. eexists. split; [reflexivity|]. discriminate.
    + right. right. eexists. split; [reflexivity|]. discriminate.
    + right. right. eexists. split; [reflexivity|]. discriminate.
Qed.

(** ** The web endpoint and predict.py *)






(** ** Symmetry and scale of the match *)

Lemma mul_sign_comm (s t : comparison) : mul_sign s t = mul_sign t s.
Proof. destruct s, t; reflexivity. Qed.

Lemma fmul_comm (a b : float64) : fmul a b = fmul b a.
Proof.
  destruct a as [x| | |], b as [y| | |]; simpl; try reflexivity;
    try (f_equal; ring); rewrite mul_sign_comm; reflexivity.
Qed.

Lemma zip_mul_comm (a b : array) :
  List.length a = List.length b -> zip_mul a b = zip_mul b a.
Proof.
  revert b; induction a as [|x a IH]; intros [|y b] Hl; simpl in *; try discriminate;
    [reflexivity|].
  rewrite IH by lia. rewrite fmul_comm. reflexivity.
Qed.

(** X7.  The match of two vectors of one length does not depend on the
    order of the arguments, in all three variants of [cosine], [nan] and
    infinite entries included. *)
Theorem match_is_symmetric (a b : array) :
  List.length a = List.length b ->
  ComputeFitness.cosine a b = ComputeFitness.cosine b a /\
  Dashboard.cosine a b = Dashboard.cosine b a /\
  Predict.cosine (map Num a) (map Num b) = Predict.cosine (map Num b) (map Num a).
Proof.
  intros Hl.
  assert (E : ComputeFitness.cosine a b = ComputeFitness.cosine b a).
  { unfold ComputeFitness.cosine, dot.
    rewrite (orb_comm (feqb (norm a) (Fin 0))), (zip_mul_comm a b Hl),
      (fmul_comm (norm a)). reflexivity. }
  split; [exact E|]. split; [exact E|].
  unfold Predict.cosine, dot. rewrite !numeric_nums. cbn [bind].
  rewrite (zip_mul_comm a b Hl), (fmul_comm (norm a)). reflexivity.
Qed.

Lemma match_is_symmetric_witness :
  ComputeFitness.cosine (fins [1; 0]) (fins [60; 80])
  = ComputeFitness.cosine (fins [60; 80]) (fins [1; 0]) /\
  Dashboard.cosine (fins [1; 0]) (fins [60; 80])
  = Dashboard.cosine (fins [60; 80]) (fins [1; 0]) /\
  Predict.cosine (map Num (fins [1; 0])) (map Num (fins [60; 80]))
  = Predict.cosine (map Num (fins [60; 80])) (map Num (fins [1; 0])).
Proof. apply (match_is_symmetric (fins [1; 0]) (fins [60; 80])). reflexivity. Defined.

Lemma Rdot_scale (k : R) (a b : list R) : Rdot (map (Rmult k) a) b = k * Rdot a b.
Proof.
  revert b; induction a as [|x a IH]; intros [|y b]; simpl; try ring.
  rewrite IH. ring.
Qed.

Lemma Rsumsq_scale (k : R) (a : list R) : Rsumsq (map (Rmult k) a) = k * k * Rsumsq a.
Proof.
  unfold Rsumsq. induction a as [|x a IH]; simpl; [ring|].
  rewrite IH. ring.
Qed.

Lemma sqrt_scale (k s : R) : 0 < k -> 0 <= s -> sqrt (k * k * s) = k * sqrt s.
Proof.
  intros Hk Hs. rewrite sqrt_mult by nra. rewrite sqrt_square by lra. reflexivity.
Qed.

(** X8.  On finite vectors the match ignores the scale of the capability
    vector: multiplying every capability score by the same positive factor
    leaves the cosine as it is, with and without the zero-norm guard. *)
Theorem match_ignores_capability_scale (k : R) (a b : list R) :
  0 < k -> List.length a = List.length b ->
  ComputeFitness.cosine (fins (map (Rmult k) a)) (fins b)
  = ComputeFitness.cosine (fins a) (fins b) /\
  Predict.cosine (map Num (fins (map (Rmult k) a))) (map Num (fins b))
  = Predict.cosine (map Num (fins a)) (map Num (fins b)).
Proof.
  intros Hk Hl.
  assert (Hl' : List.length (map (Rmult k) a) = List.length b)
    by (rewrite length_map; exact Hl).
  pose proof (Rsumsq_nonneg a) as Ha. pose proof (Rsumsq_nonneg b) as Hb.
  pose proof (sqrt_pos (Rsumsq a)) as Sa. pose proof (sqrt_pos (Rsumsq b)) as Sb.
  rewrite !compute_cosine_fins, !predict_cosine_fins by assumption.
  rewrite Rdot_scale, Rsumsq_scale, sqrt_scale by assumption.
  destruct (Req_dec_T (sqrt (Rsumsq a) * sqrt (Rsumsq b)) 0) as [E|E].
  - assert (E' : k * sqrt (Rsumsq a) * sqrt (Rsumsq b) = 0) by (rewrite Rmult_assoc, E; ring).
    rewrite E'. destruct (Req_dec_T 0 0) as [_|N]; [|lra].
    split; [reflexivity|]. rewrite E.
    assert (D : Rdot a b = 0).
    { apply Rmult_integral in E. destruct E as [E|E].
      - apply Rsumsq_zero. apply sqrt_eq_0 in E; assumption.
      - rewrite Rdot_comm. apply Rsumsq_zero. apply sqrt_eq_0 in E; assumption. }
    rewrite D, Rmult_0_r. reflexivity.
  - assert (E' : k * sqrt (Rsumsq a) * sqrt (Rsumsq b) <> 0).
    { rewrite Rmult_assoc. apply Rmult_integral_contrapositive. split; [lra | exact E]. }
    destruct (Req_dec_T (k * sqrt (Rsumsq a) * sqrt (Rsumsq b)) 0) as [N|_]; [contradiction|].
    assert (Q : k * Rdot a b / (k * sqrt (Rsumsq a) * sqrt (Rsumsq b))
                = Rdot a b / (sqrt (Rsumsq a) * sqrt (Rsumsq b))).
    { replace (k * sqrt (Rsumsq a) * sqrt (Rsumsq b))
        with (k * (sqrt (Rsumsq a) * sqrt (Rsumsq b))) by ring.
      set (n := sqrt (Rsumsq a) * sqrt (Rsumsq b)) in *. field. split; [exact E | lra]. }
    rewrite !fdiv_fin by assumption. rewrite Q. split; reflexivity.
Qed.

Lemma match_ignores_capability_scale_witness :
  ComputeFitness.cosine (fins (map (Rmult 10) [1; 0])) (fins [60; 80])
  = ComputeFitness.cosine (fins [1; 0]) (fins [60; 80]) /\
  Predict.cosine (map Num (fins (map (Rmult 10) [1; 0]))) (map Num (fins [60; 80]))
  = Predict.cosine (map Num (fins [1; 0])) (map Num (fins [60; 80])).
Proof.
  apply (match_ignores_capability_scale 10 [1; 0] [60; 80]); [lra | reflexivity].
Defined.

(** ** compute_fitness.py on finite tables, and the training data *)

Section FiniteTables.

Import ComputeFitness.

Variables needs ngos : DataFrame.

Hypothesis overlap : shared_cats needs ngos <> [].
Hypothesis ngo_key : has_col ngos "NGO" = true.
Hypothesis district_key : has_col needs "district" = true.
Hypothesis finite_needs :
  forall reg, In reg (rows needs) -> forall c, In c (shared_cats needs ngos) ->
    exists x, reg c = Num (Fin x).
Hypothesis finite_capabilities :
  forall ngo, In ngo (rows ngos) -> forall c, In c (shared_cats needs ngos) ->
    exists x, ngo c = Num (Fin x).

Lemma finite_row (df : DataFrame) (row : Series) :
  (forall c, In c (shared_cats needs ngos) -> has_col df c = true) ->
  (forall c, In c (shared_cats needs ngos) -> exists x, row c = Num (Fin x)) ->
  exists xs, row_vector needs ngos df row = Ok (fins xs) /\
             List.length xs = List.length (shared_cats needs ngos).
Proof.
  intros Hc Hf.
  destruct (finite_cells (fun _ => True) row (shared_cats needs ngos)) as [xs [E [Hl _]]].
  { intros c Hin. destruct (Hf c Hin) as [x Hx]. exists x. split; [exact Hx | exact I]. }
  exists xs. split; [|exact Hl]. apply row_vector_fins; assumption.
Qed.

Lemma score_pair_finite (ngo reg : Series) (a : list R) :
  In reg (rows needs) ->
  List.length a = List.length (shared_cats needs ngos) ->
  exists p, score_pair needs ngos ngo (fins a) reg = Ok (Some p).
Proof.
  intros Hr Ha.
  destruct (finite_row needs reg (shared_cats_in_needs needs ngos) (finite_needs reg Hr))
    as [b [Eb Hb]].
  unfold score_pair. rewrite Eb. cbn [bind].
  destruct (compute_cosine_range a b) as [m [Em _]]; [congruence|].
  rewrite Em. cbn [bind].
  assert (Hne : b <> []).
  { destruct b; [|discriminate]. destruct (shared_cats needs ngos); [contradiction|discriminate]. }
  rewrite (mean_urgency_fins b Hne). cbn [fmul fadd isnan].
  unfold get. rewrite ngo_key, district_key. cbn [bind]. eexists; reflexivity.
Qed.

Lemma inner_finite (ngo : Series) (a : list R) (regs : list Series) (pairs : list pair) :
  (forall reg, In reg regs -> In reg (rows needs)) ->
  List.length a = List.length (shared_cats needs ngos) ->
  exists pairs', inner needs ngos ngo (fins a) regs pairs = Ok pairs' /\
    List.length pairs' = (List.length pairs + List.length regs)%nat.
Proof.
  intros Hin Ha. revert pairs. induction regs as [|reg regs IH]; intros pairs.
  - exists pairs. split; [reflexivity | simpl; lia].
  - cbn [inner].
    destruct (score_pair_finite ngo reg a (Hin reg (or_introl eq_refl)) Ha) as [p Ep].
    rewrite Ep. cbn [bind].
    destruct (IH (fun r Hr => Hin r (or_intror Hr)) (pairs ++ [p])%list) as [pairs' [E L]].
    exists pairs'. split; [exact E|]. rewrite L, length_app. simpl. lia.
Qed.

Lemma outer_finite (ngo_rows : list Series) (pairs : list pair) :
  (forall ngo, In ngo ngo_rows -> In ngo (rows ngos)) ->
  exists pairs', outer needs ngos ngo_rows pairs = Ok pairs' /\
    List.length pairs'
    = (List.length pairs + List.length ngo_rows * List.length (rows needs))%nat.
Proof.
  intros Hin. revert pairs. induction ngo_rows as [|ngo ngo_rows IH]; intros pairs.
  - exists pairs. split; [reflexivity | simpl; lia].
  - cbn [outer].
    destruct (finite_row ngos ngo (shared_cats_in_ngos needs ngos)
                (finite_capabilities ngo (Hin ngo (or_introl eq_refl)))) as [a [Ea Ha]].
    rewrite Ea. cbn [bind].
    destruct (inner_finite ngo a (rows needs) pairs (fun _ H => H) Ha) as [mid [Em Lm]].
    rewrite Em. cbn [bind].
    destruct (IH (fun r Hr => Hin r (or_intror Hr)) mid) as [pairs' [E L]].
    exists pairs'. split; [exact E|]. rewrite L, Lm. simpl. lia.
Qed.

(** X9.  On tables that share a category, have their key columns and hold
    finite numbers in every shared column, [compute_fitness.py] runs to its
    end and writes one row for every organisation and district: no pair is
    dropped. *)
Theorem finite_tables_score_every_pair :
  exists pairs, run needs ngos = Ok pairs /\
    List.length pairs = (List.length (rows ngos) * List.length (rows needs))%nat.
Proof.
  assert (R : run needs ngos = outer needs ngos (rows ngos) []).
  { unfold run, cats. pose proof overlap as H.
    destruct (shared_cats needs ngos); [contradiction | reflexivity]. }
  rewrite R. apply (outer_finite (rows ngos) [] (fun _ H => H)).
Qed.

End FiniteTables.

Lemma finite_tables_score_every_pair_witness :
  exists pairs, ComputeFitness.run Examples.needs_gorkha Examples.ngos_idle = Ok pairs /\
    List.length pairs
    = (List.length (rows Examples.ngos_idle) * List.length (rows Examples.needs_gorkha))%nat.
Proof.
  apply (finite_tables_score_every_pair Examples.needs_gorkha Examples.ngos_idle).
  - discriminate.
  - reflexivity.
  - reflexivity.
  - intros reg [<-|[]] c [<-|[<-|[]]]; eexists; reflexivity.
  - intros ngo [<-|[<-|[]]] c [<-|[<-|[]]]; eexists; reflexivity.
Defined.

Section Training.

Import TrainModel.

Lemma dropna_kept (data : list ComputeFitness.pair) :
  (forall p, In p data -> isnan (ComputeFitness.fitness_score p) = false) ->
  dropna data = data.
Proof.
  intros H. unfold dropna. induction data as [|p data IH]; [reflexivity|].
  cbn [filter]. rewrite (H p (or_introl eq_refl)). cbn [negb].
  rewrite IH; [reflexivity|]. intros q Hq. apply H. right; exact Hq.
Qed.

Lemma in_training_set (data : list ComputeFitness.pair) (x : float64 * float64)
    (label : float64) :
  In (x, label) (combine (X data) (y data)) ->
  exists p, In p data /\ x = (ComputeFitness.match_ p, ComputeFitness.urgency p) /\
            label = ComputeFitness.fitness_score p.
Proof.
  unfold X, y. induction data as [|p data IH]; simpl; [tauto|].
  intros [H|H].
  - inversion H. exists p. repeat split. left; reflexivity.
  - destruct (IH H) as [q [Hq E]]. exists q. split; [right; exact Hq | exact E].
Qed.

(** X11.  The rows [compute_fitness.py] writes are all kept by the [dropna]
    of [train_model.py], and the label of every training example is
    0.7 * match + 0.3 * urgency of its own two features, never [nan]. *)
Theorem training_labels_are_the_weighted_sum (needs ngos : DataFrame)
    (pairs : list ComputeFitness.pair) (x : float64 * float64) (label : float64) :
  ComputeFitness.run needs ngos = Ok pairs ->
  In (x, label) (training_set pairs) ->
  dropna pairs = pairs /\
  label = fadd (fmul (Fin 0.7) (fst x)) (fmul (Fin 0.3) (snd x)) /\
  isnan label = false.
Proof.
  intros Hrun Hin.
  assert (Hnan : forall p, In p pairs -> isnan (ComputeFitness.fitness_score p) = false
                 /\ ComputeFitness.fitness_score p
                    = fadd (fmul (Fin 0.7) (ComputeFitness.match_ p))
                           (fmul (Fin 0.3) (ComputeFitness.urgency p))).
  { intros p Hp.
    destruct (in_pairs needs ngos pairs p Hrun Hp) as [ngo [reg [C [_ [_ [_ Hs]]]]]].
    apply score_pair_some in Hs. destruct Hs as [N [_ [_ [_ [Hf Hn]]]]].
    split; assumption. }
  assert (Hd : dropna pairs = pairs) by (apply dropna_kept; intros p Hp; apply Hnan, Hp).
  split; [exact Hd|].
  unfold training_set in Hin. rewrite Hd in Hin.
  apply in_training_set in Hin. destruct Hin as [p [Hp [-> ->]]].
  destruct (Hnan p Hp) as [Hn Hf]. cbn [fst snd]. split; [exact Hf | exact Hn].
Qed.

Lemma training_labels_are_the_weighted_sum_witness :
  dropna [Examples.pair_food] = [Examples.pair_food] /\
  Fin (3 / 20) = fadd (fmul (Fin 0.7) (fst (Fin 0, Fin (1 / 2))))
                      (fmul (Fin 0.3) (snd (Fin 0, Fin (1 / 2)))) /\
  isnan (Fin (3 / 20)) = false.
Proof.
  apply (training_labels_are_the_weighted_sum Examples.needs_food Examples.ngos_shelter
           [Examples.pair_food] (Fin 0, Fin (1 / 2)) (Fin (3 / 20)) run_food).
  left. reflexivity.
Defined.

End Training.

(** ** Stripping and changing case *)

Section Strings.

Local Open Scope string_scope.

Import PyStr.

Lemma str_append_nil_r (s : string) : s ++ "" = s.
Proof. induction s as [|c s IH]; simpl; [reflexivity | rewrite IH; reflexivity]. Qed.

Lemma str_append_assoc (s t u : string) : (s ++ t) ++ u = s ++ (t ++ u).
Proof. induction s as [|c s IH]; simpl; [reflexivity | rewrite IH; reflexivity]. Qed.

Lemma str_rev_append (s t : string) : rev (s ++ t) = rev t ++ rev s.
Proof.
  induction s as [|c s IH]; simpl.
  - rewrite str_append_nil_r. reflexivity.
  - rewrite IH, str_append_assoc. reflexivity.
Qed.

Lemma str_rev_involutive (s : string) : rev (rev s) = s.
Proof.
  induction s as [|c s IH]; simpl; [reflexivity|].
  rewrite str_rev_append, IH. reflexivity.
Qed.

Lemma lstrip_clean (s : string) : starts_clean (lstrip s).
Proof.
  induction s as [|c s IH]; simpl; [exact I|].
  destruct (is_space c) eqn:E; [exact IH | exact E].
Qed.

Lemma lstrip_fixed (s : string) : starts_clean s -> lstrip s = s.
Proof. destruct s as [|c s]; simpl; [reflexivity|]. intros ->. reflexivity. Qed.

Lemma lstrip_suffix (s : string) : exists p, s = p ++ lstrip s.
Proof.
  induction s as [|c s [p IH]]; simpl.
  - exists "". reflexivity.
  - destruct (is_space c).
    + exists (String c p). simpl. rewrite <- IH. reflexivity.
    + exists "". reflexivity.
Qed.

Lemma starts_clean_append (s t : string) :
  s <> "" -> starts_clean (s ++ t) -> starts_clean s.
Proof. destruct s as [|c s]; [contradiction | intros _ H; exact H]. Qed.

Lemma strip_ends_clean (s : string) :
  starts_clean (strip s) /\ starts_clean (rev (strip s)).
Proof.
  unfold strip. set (t := lstrip s). set (u := lstrip (rev t)).
  assert (Ht : starts_clean t) by apply lstrip_clean.
  assert (Hu : starts_clean u) by apply lstrip_clean.
  split; [|rewrite str_rev_involutive; exact Hu].
  destruct (lstrip_suffix (rev t)) as [p Hp]. fold u in Hp.
  assert (E : t = rev u ++ rev p).
  { rewrite <- (str_rev_involutive t), Hp, str_rev_append. reflexivity. }
  destruct (string_dec (rev u) "") as [Z|NZ]; [rewrite Z; exact I|].
  apply (starts_clean_append (rev u) (rev p) NZ). rewrite <- E. exact Ht.
Qed.

Lemma strip_fixed (s : string) :
  starts_clean s -> starts_clean (rev s) -> strip s = s.
Proof.
  intros H1 H2. unfold strip. rewrite (lstrip_fixed s H1), (lstrip_fixed _ H2).
  apply str_rev_involutive.
Qed.

Lemma strip_idempotent (s : string) : strip (strip s) = strip s.
Proof. destruct (strip_ends_clean s) as [H1 H2]. apply strip_fixed; assumption. Qed.

















End Strings.

(** ** Cleaning the column labels *)

Section LabelCleaning.

Local Open Scope string_scope.

Import PyStr ComputeFitness.

Lemma every_append (keep : ascii -> bool) (s t : string) :
  every keep (s ++ t) = every keep s && every keep t.
Proof.
  induction s as [|c s IH]; simpl; [reflexivity|]. rewrite IH, andb_assoc. reflexivity.
Qed.

Lemma every_rev (keep : ascii -> bool) (s : string) : every keep (rev s) = every keep s.
Proof.
  induction s as [|c s IH]; simpl; [reflexivity|].
  rewrite every_append, IH. simpl. rewrite andb_true_r, andb_comm. reflexivity.
Qed.

Lemma every_lstrip (keep : ascii -> bool) (s : string) :
  every keep s = true -> every keep (lstrip s) = true.
Proof.
  induction s as [|c s IH]; simpl; [reflexivity|]. intros H.
  apply andb_true_iff in H. destruct H as [Hc Hs].
  destruct (is_space c); [exact (IH Hs)|]. simpl. rewrite Hc, Hs. reflexivity.
Qed.

Lemma every_strip (keep : ascii -> bool) (s : string) :
  every keep s = true -> every keep (strip s) = true.
Proof.
  intros H. unfold strip. rewrite every_rev. apply every_lstrip.
  rewrite every_rev. apply every_lstrip, H.
Qed.

Lemma every_keep_chars (keep : ascii -> bool) (s : string) :
  every keep (keep_chars keep s) = true.
Proof.
  induction s as [|c s IH]; simpl; [reflexivity|].
  destruct (keep c) eqn:E; [simpl; rewrite E, IH; reflexivity | exact IH].
Qed.

Lemma keep_chars_fixed (keep : ascii -> bool) (s : string) :
  every keep s = true -> keep_chars keep s = s.
Proof.
  induction s as [|c s IH]; simpl; [reflexivity|]. intros H.
  apply andb_true_iff in H. destruct H as [Hc Hs]. rewrite Hc, (IH Hs). reflexivity.
Qed.

(** X10.  [clean_cols] is idempotent on the labels: a cleaned label holds
    only letters, digits, blanks and [&], neither starts nor ends with a
    blank, and cleaning it again returns it; the frame keeps its numbers of
    columns and rows. *)
Theorem cleaning_labels_twice_changes_nothing (c : string) (df : DataFrame) :
  clean_label (clean_label c) = clean_label c /\
  every allowed (clean_label c) = true /\
  starts_clean (clean_label c) /\ starts_clean (rev (clean_label c)) /\
  columns (clean_cols (clean_cols df)) = columns (clean_cols df) /\
  List.length (columns (clean_cols df)) = List.length (columns df) /\
  List.length (rows (clean_cols df)) = List.length (rows df).
Proof.
  assert (A : forall c, every allowed (clean_label c) = true).
  { intros c0. unfold clean_label. apply every_strip, every_keep_chars. }
  assert (I : forall c, clean_label (clean_label c) = clean_label c).
  { intros c0. unfold clean_label at 1. rewrite (keep_chars_fixed _ _ (A c0)).
    unfold clean_label. apply strip_idempotent. }
  split; [apply I|]. split; [apply A|].
  split; [apply strip_ends_clean|]. split; [apply strip_ends_clean|].
  unfold clean_cols. cbn [columns rows]. rewrite map_map, !length_map.
  split; [|split; reflexivity].
  apply map_ext. exact I.
Qed.

End LabelCleaning.

(** ** The rows of the need matrix *)

Section NeedMatrixRows.

Import Sklearn BuildNeedMatrix.

Lemma merge_spec (damage : list damage_row) (pop : list pop_row)
    (d : damage_row) (p : pop_row) :
  In (d, p) (merge damage pop) <->
  In d damage /\ In p pop /\ pop_district p = district d.
Proof.
  unfold merge. rewrite in_flat_map. split.
  - intros [d' [Hd H]]. apply in_map_iff in H. destruct H as [p' [E Hp]].
    inversion E; subst d' p'. apply filter_In in Hp. destruct Hp as [Hp Hk].
    apply String.eqb_eq in Hk. repeat split; assumption.
  - intros [Hd [Hp Hk]]. exists d. split; [exact Hd|].
    apply in_map_iff. exists p. split; [reflexivity|].
    apply filter_In. split; [exact Hp | apply String.eqb_eq, Hk].
Qed.

Lemma merge_nil (damage : list damage_row) (pop : list pop_row) :
  (forall d p, In d damage -> In p pop -> pop_district p <> district d) ->
  merge damage pop = [].
Proof.
  intros H. destruct (merge damage pop) as [|[d p] l] eqn:E; [reflexivity|].
  exfalso. assert (Hin : In (d, p) (merge damage pop)) by (rewrite E; left; reflexivity).
  apply merge_spec in Hin. destruct Hin as [Hd [Hp Hk]]. exact (H d p Hd Hp Hk).
Qed.

(** X12.  When no district of the damage table has a row of the same name
    in the population table, the inner join is empty and
    [build_need_matrix.py] ends with the [ValueError] of the scaler instead of
    writing a matrix. *)
Theorem disjoint_district_names_are_refused (damage : list damage_row)
    (pop : list pop_row) :
  (forall d p, In d damage -> In p pop -> pop_district p <> district d) ->
  build_need_matrix damage pop = Raise (ValueError "Found array with 0 sample(s)").
Proof.
  intros H. unfold build_need_matrix. rewrite (merge_nil damage pop H).
  unfold fit_transform. cbn [fst snd].
  destruct (Rle_dec 100 0) as [C|_]; [lra|]. reflexivity.
Qed.

Lemma fit_transform_ok (X scaled : list array) :
  fit_transform (0, 100) X = Ok scaled ->
  scaled = map (fun c => transform_column (fit_column (0, 100) c) c) X /\
  n_samples X <> 0%nat.
Proof.
  unfold fit_transform. cbn [fst snd].
  destruct (Rle_dec 100 0); [discriminate|].
  destruct (Nat.eqb (n_samples X) 0) eqn:En; [discriminate|].
  destruct (existsb (existsb isinf) X); [discriminate|].
  intros H; inversion H. split; [reflexivity|]. apply Nat.eqb_neq, En.
Qed.

(** X13.  When [build_need_matrix.py] succeeds, the matrix has a row for
    exactly the districts named in both input tables (a district without a
    population row is left out), at least one, and the eleven labelled need
    columns each hold one value per row. *)
Theorem need_matrix_rows_are_the_joined_districts (damage : list damage_row)
    (pop : list pop_row) (m : need_matrix) :
  build_need_matrix damage pop = Ok m ->
  districts m = map (fun r => district (fst r)) (merge damage pop) /\
  districts m <> [] /\
  map fst (needs m) = labels /\
  (forall c, In c (needs m) -> List.length (snd c) = List.length (districts m)) /\
  (forall name, In name (districts m) <->
     exists d p, In d damage /\ In p pop /\ district d = name /\ pop_district p = name).
Proof.
  unfold build_need_matrix. intros H.
  apply bind_ok_inv in H. destruct H as [scaled [Hs H]]. inversion H; subst m. clear H.
  apply fit_transform_ok in Hs. destruct Hs as [-> Hn].
  cbn [districts needs]. set (df := merge damage pop) in *.
  split; [reflexivity|]. split.
  { destruct df; [|discriminate]. exfalso. apply Hn. reflexivity. }
  split; [reflexivity|]. split.
  - intros c Hc. unfold need_cols in Hc. cbn [map combine labels] in Hc.
    rewrite length_map.
    repeat (destruct Hc as [<-|Hc];
            [cbn [snd]; unfold transform_column, shelter_need, wash_need, food_need,
               logistics_need, rescue_need, health_need, cash_need, comms_need,
               psych_need, infra_need, agri_need, column;
             rewrite !length_map; reflexivity|]).
    destruct Hc.
  - intros name. rewrite in_map_iff. split.
    + intros [[d p] [E Hin]]. cbn [fst] in E. apply merge_spec in Hin.
      destruct Hin as [Hd [Hp Hk]]. exists d, p. repeat split; try assumption.
      rewrite Hk. exact E.
    + intros [d [p [Hd [Hp [E1 E2]]]]]. exists (d, p). split; [exact E1|].
      apply merge_spec. repeat split; try assumption. rewrite E1, E2. reflexivity.
Qed.

Lemma Rscale_increasing (m M : R) : m <= M -> forall v w, v <= w -> Rscale m M v <= Rscale m M w.
Proof.
  intros Hm v w Hvw. unfold Rscale. pose proof eps_pos as He.
  destruct (Rlt_dec (M - m) (10 * Sklearn.eps)) as [E|E].
  - lra.
  - assert (0 < M - m) by lra.
    unfold Rdiv. apply Rmult_le_compat_r; [left; apply Rinv_0_lt_compat; lra | lra].
Qed.

Lemma Rminl_le_Rmaxl (x : R) (l : list R) : Rminl x l <= Rmaxl x l.
Proof.
  destruct (Rminl_spec x l) as [_ Hle]. destruct (Rmaxl_spec x l) as [_ Hge].
  pose proof (Hle x (or_introl eq_refl)). pose proof (Hge x (or_introl eq_refl)). lra.
Qed.

Lemma rescaled_fins (c : list R) :
  c <> [] -> rescaled (fins c) (transform_column (fit_column (0, 100) (fins c)) (fins c)).
Proof.
  destruct c as [|x l]; [contradiction|]. intros _. rewrite transform_fins.
  exists (Rscale (Rminl x l) (Rmaxl x l)). split.
  - apply Rscale_increasing, Rminl_le_Rmaxl.
  - unfold fins. generalize (x :: l). intros c.
    induction c as [|v c IH]; simpl; constructor; [|exact IH].
    exists v. split; reflexivity.
Qed.

(** X14.  Over a non-empty joined table whose largest population density is
    not zero, every scaled need column is its raw column under an increasing
    map: scaling never reverses the order of two districts in a need. *)
Theorem scaling_keeps_the_order_of_districts (damage : list damage_row)
    (pop : list pop_row) :
  merge damage pop <> [] ->
  col_max (map (fun r => pop_density (snd r)) (merge damage pop)) <> Fin 0 ->
  exists m,
    build_need_matrix damage pop = Ok m /\
    Forall2 rescaled (need_cols (merge damage pop)) (map snd (needs m)).
Proof.
  intros Hne Hp. unfold build_need_matrix.
  set (df := merge damage pop) in *.
  destruct df as [|r df'] eqn:Edf; [contradiction|]. rewrite <- Edf in *.
  assert (Hp' : exists p, col_max (map (fun r => pop_density (snd r)) df) = Fin p /\ p <> 0).
  { rewrite Edf in *. cbn [map col_max] in *. eexists. split; [reflexivity|].
    intros E. apply Hp. rewrite E. reflexivity. }
  destruct Hp' as [p [Ep Hnz]].
  rewrite (need_cols_fins df p Ep Hnz).
  assert (Hcols : forall c, In c (raw_need_cols df p) -> c <> []).
  { intros c Hc. unfold raw_need_cols in Hc. rewrite Edf in Hc. cbn [map] in Hc.
    repeat (destruct Hc as [<-|Hc]; [discriminate|]). destruct Hc. }
  unfold raw_need_cols in *.
  rewrite fit_transform_fins by (apply Hcols; left; reflexivity).
  cbn [bind]. eexists. split; [reflexivity|].
  cbn [needs labels map combine fst snd].
  repeat (constructor; [apply rescaled_fins, Hcols; cbn [In]; tauto|]).
  constructor.
Qed.

End NeedMatrixRows.

Lemma disjoint_district_names_are_refused_witness :
  BuildNeedMatrix.build_need_matrix Examples.damage_two Examples.pop_elsewhere
  = Raise (ValueError "Found array with 0 sample(s)").
Proof.
  apply disjoint_district_names_are_refused.
  intros d p [<-|[<-|[]]] [<-|[]]; discriminate.
Defined.

(** ** generate_ngo_scores.py: match, urgency and fitness *)

Section NgoScores.

Import BuildNeedMatrix GenerateNgoScores.

Lemma fltb_fin (x y : R) : fltb (Fin x) (Fin y) = if Rlt_dec x y then true else false.
Proof. reflexivity. Qed.

Lemma block_fin (caps : list capability) (pct : R) (label : string) (a b : R) :
  block caps pct label (Fin a, Fin b)
  = (Fin (a + (if Rlt_dec 50 pct then if covers caps label then 0.2 else 0 else 0)),
     Fin (b + (if Rlt_dec 50 pct then 0.2 else 0))).
Proof.
  unfold block, covers. rewrite fltb_fin. destruct (Rlt_dec 50 pct); cbn [fst snd].
  - destruct (filter _ caps) as [|c l]; cbn [fadd].
    + f_equal; f_equal; ring.
    + destruct (fltb (Fin 0) (capacity_score c)); cbn [fadd]; f_equal; f_equal; ring.
  - f_equal; f_equal; ring.
Qed.

Lemma blocks_fin (caps : list capability) (l : list (R * string)) (a b : R) :
  fold_left (fun acc i => block caps (fst i) (snd i) acc) l (Fin a, Fin b)
  = (Fin (a + 0.2 * INR (List.length
                           (filter (fun i => covers caps (snd i))
                              (filter (fun i => if Rlt_dec 50 (fst i) then true else false) l)))),
     Fin (b + 0.2 * INR (List.length
                           (filter (fun i => if Rlt_dec 50 (fst i) then true else false) l)))).
Proof.
  revert a b. induction l as [|[pct label] l IH]; intros a b.
  - simpl. f_equal; f_equal; ring.
  - cbn [fold_left fst snd]. rewrite block_fin, IH. cbn [filter fst snd].
    destruct (Rlt_dec 50 pct).
    + cbn [filter snd]. destruct (covers caps label).
      * cbn [List.length]. rewrite !S_INR. f_equal; f_equal; ring.
      * cbn [List.length]. rewrite !S_INR. f_equal; f_equal; ring.
    + f_equal; f_equal; ring.
Qed.

Lemma weigh_fin (caps : list capability) (d : damage_row) :
  weigh caps d = (Fin (0.2 * INR (List.length (covered caps d))),
                  Fin (0.2 * INR (List.length (severe d)))).
Proof.
  change (weigh caps d)
    with (fold_left (fun acc i => block caps (fst i) (snd i) acc) (indicators d)
                    (Fin 0, Fin 0)).
  rewrite blocks_fin. unfold covered, severe. f_equal; f_equal; ring.
Qed.

Lemma filter_length_le {A : Type} (f : A -> bool) (l : list A) :
  (List.length (filter f l) <= List.length l)%nat.
Proof.
  induction l as [|x l IH]; simpl; [lia|]. destruct (f x); simpl; lia.
Qed.

(** The share of the severe indicators that the organisation covers; one
    half when no indicator is severe. *)
Lemma match_score_fin (caps : list capability) (d : damage_row) :
  match_score caps d
  = Fin (if Nat.eqb (List.length (severe d)) 0 then 0.5
         else INR (List.length (covered caps d)) / INR (List.length (severe d))).
Proof.
  unfold match_score. rewrite weigh_fin. cbn [fst snd]. rewrite fltb_fin.
  destruct (severe d) as [|i l] eqn:E.
  - cbn [List.length INR Nat.eqb]. destruct (Rlt_dec 0 (0.2 * 0)); [lra | reflexivity].
  - set (n := List.length (i :: l)).
    assert (Hn : 0 < INR n) by (apply lt_0_INR; unfold n; simpl; lia).
    destruct (Rlt_dec 0 (0.2 * INR n)); [|lra].
    rewrite fdiv_fin by lra. unfold n at 2. cbn [List.length Nat.eqb]. fold n.
    f_equal. field. lra.
Qed.

Lemma share_in_unit_interval (k n : nat) :
  (k <= n)%nat -> (0 < n)%nat -> 0 <= INR k / INR n <= 1.
Proof.
  intros Hk Hn. assert (0 < INR n) by (apply lt_0_INR, Hn).
  assert (0 <= INR k <= INR n) by (split; [apply pos_INR | apply le_INR, Hk]).
  split.
  - apply Rmult_le_pos; [lra | left; apply Rinv_0_lt_compat; lra].
  - apply Rmult_le_reg_r with (INR n); [assumption|].
    unfold Rdiv. rewrite Rmult_assoc, Rinv_l by lra. lra.
Qed.

Lemma covered_le_severe (caps : list capability) (d : damage_row) :
  (List.length (covered caps d) <= List.length (severe d))%nat.
Proof. unfold covered. apply filter_length_le. Qed.

(** X15.  In [generate_ngo_scores.py] the match of an organisation and a
    district is a number between 0 and 1: the share of the district's severe
    indicators (those above 50) whose category the organisation covers with a
    positive score, and one half when no indicator is severe. *)
Theorem match_score_is_the_covered_share (ngo_capabilities : list capability)
    (district_data : damage_row) :
  exists m,
    match_score ngo_capabilities district_data = Fin m /\
    0 <= m <= 1 /\
    (severe district_data = [] -> m = 0.5) /\
    (severe district_data <> [] ->
     m = INR (List.length (covered ngo_capabilities district_data))
         / INR (List.length (severe district_data))).
Proof.
  rewrite match_score_fin. eexists. split; [reflexivity|].
  pose proof (covered_le_severe ngo_capabilities district_data) as Hle.
  destruct (severe district_data) as [|i l] eqn:E.
  - cbn [List.length Nat.eqb]. split; [lra|]. split; [reflexivity | contradiction].
  - cbn [List.length Nat.eqb] in *. split; [|split; [discriminate | reflexivity]].
    apply (share_in_unit_interval _ (S (List.length l))); [exact Hle | lia].
Qed.

Lemma urgency_fin (d : damage_row) :
  urgency d
  = Fin ((houses_destroyed_pct d * 0.2 + health_facilities_damaged_pct d * 0.15
          + water_facilities_damaged_pct d * 0.15 + food_insecure_households_pct d * 0.2
          + displaced_pop_pct d * 0.15 + (100 - road_accessibility_score d) * 0.15) / 100).
Proof.
  unfold urgency. cbn [fmul fadd fsub fneg]. rewrite fdiv_fin by lra.
  reflexivity.
Qed.

(** X16.  For damage indicators between 0 and 100, the urgency of
    [generate_ngo_scores.py] lies between 0 and 1 and its fitness score,
    (0.6 * match + 0.4 * urgency) * 100, between 0 and 100. *)
Theorem urgency_and_fitness_are_percent_scaled (ngo_capabilities : list capability)
    (d : damage_row) :
  0 <= houses_destroyed_pct d <= 100 ->
  0 <= health_facilities_damaged_pct d <= 100 ->
  0 <= water_facilities_damaged_pct d <= 100 ->
  0 <= food_insecure_households_pct d <= 100 ->
  0 <= displaced_pop_pct d <= 100 ->
  0 <= road_accessibility_score d <= 100 ->
  exists m u,
    match_score ngo_capabilities d = Fin m /\
    urgency d = Fin u /\
    fitness_score ngo_capabilities d = Fin ((m * 0.6 + u * 0.4) * 100) /\
    0 <= u <= 1 /\
    0 <= (m * 0.6 + u * 0.4) * 100 <= 100.
Proof.
  intros H1 H2 H3 H4 H5 H6.
  assert (Bm : 0 <= (if Nat.eqb (List.length (severe d)) 0 then 0.5
                     else INR (List.length (covered ngo_capabilities d))
                          / INR (List.length (severe d))) <= 1).
  { destruct (Nat.eqb (List.length (severe d)) 0) eqn:E; [lra|].
    apply Nat.eqb_neq in E.
    apply share_in_unit_interval; [apply covered_le_severe | lia]. }
  eexists. eexists. split; [apply match_score_fin|]. split; [apply urgency_fin|].
  unfold fitness_score. rewrite match_score_fin, urgency_fin. cbn [fmul fadd].
  split; [reflexivity|]. split; lra.
Qed.

End NgoScores.

(** ** generate_ngo_scores.py: the loops *)

Section NgoScoresScript.

Import BuildNeedMatrix GenerateNgoScores.

Variable round2 : float64 -> float64.
Variable damage_df : list damage_row.
Variable ngo_df : list capability.

Lemma mapM_total {A B : Type} (f : A -> result B) (l : list A) :
  (forall a, In a l -> exists b, f a = Ok b) ->
  exists v, mapM f l = Ok v /\ Forall2 (fun a b => f a = Ok b) l v.
Proof.
  induction l as [|a l IH]; intros H.
  - exists []. split; [reflexivity | constructor].
  - destruct (H a (or_introl eq_refl)) as [b Eb].
    destruct IH as [v [Ev Fv]]; [intros; apply H; right; assumption|].
    exists (b :: v). cbn [mapM]. rewrite Eb. cbn [bind]. rewrite Ev. cbn [bind].
    split; [reflexivity | constructor; assumption].
Qed.

Lemma body_total (ngo d : string) :
  In d (districts damage_df) ->
  exists district_data,
    In district_data damage_df /\ district district_data = d /\
    body round2 damage_df ngo_df ngo d
    = Ok (mkScore ngo d
            (round2 (fmul (match_score (filter (fun c => String.eqb (ngo_name c) ngo) ngo_df)
                                       district_data) (Fin 100)))
            (round2 (fmul (urgency district_data) (Fin 100)))
            (round2 (fitness_score (filter (fun c => String.eqb (ngo_name c) ngo) ngo_df)
                                   district_data))).
Proof.
  intros Hd. unfold districts in Hd.
  apply (proj1 (in_sorted _ _)) in Hd. apply (proj1 (in_unique _ _)) in Hd.
  apply in_map_iff in Hd. destruct Hd as [r0 [E0 H0]].
  unfold body.
  destruct (filter (fun r => String.eqb (district r) d) damage_df) as [|r l] eqn:E.
  - exfalso. assert (Hin : In r0 (filter (fun r => String.eqb (district r) d) damage_df))
      by (apply filter_In; split; [exact H0 | apply String.eqb_eq, E0]).
    rewrite E in Hin. destruct Hin.
  - assert (Hin : In r (filter (fun r => String.eqb (district r) d) damage_df))
      by (rewrite E; left; reflexivity).
    apply filter_In in Hin. destruct Hin as [Hr Hk]. apply String.eqb_eq in Hk.
    exists r. split; [exact Hr|]. split; [exact Hk|]. reflexivity.
Qed.

Lemma Forall2_length_eq {A B : Type} (P : A -> B -> Prop) (l : list A) (v : list B) :
  Forall2 P l v -> List.length v = List.length l.
Proof. induction 1; simpl; congruence. Qed.

Lemma length_concat_const {A : Type} (ll : list (list A)) (n : nat) :
  (forall l, In l ll -> List.length l = n) ->
  List.length (List.concat ll) = (List.length ll * n)%nat.
Proof.
  induction ll as [|l ll IH]; intros H; [reflexivity|].
  cbn [List.concat]. rewrite length_app, (H l (or_introl eq_refl)), IH
    by (intros; apply H; right; assumption). simpl. lia.
Qed.

Lemma Forall2_in_r {A B : Type} (P : A -> B -> Prop) (l : list A) (v : list B) (b : B) :
  Forall2 P l v -> In b v -> exists a, In a l /\ P a b.
Proof.
  induction 1 as [|a b' l v Hab _ IH]; intros Hin; [destruct Hin|].
  destruct Hin as [<-|Hin].
  - exists a. split; [left; reflexivity | exact Hab].
  - destruct (IH Hin) as [a' [Ha' Hp]]. exists a'. split; [right; exact Ha' | exact Hp].
Qed.

(** X17.  [generate_ngo_scores.py] never fails on a lookup: it produces one
    row for every pair of a distinct organisation name and a distinct
    district name, each computed from the capability rows of that organisation
    and from a damage row of that district. *)
Theorem every_listed_pair_gets_a_score :
  exists rows,
    results round2 damage_df ngo_df = Ok rows /\
    List.length rows
    = (List.length (ngos ngo_df) * List.length (districts damage_df))%nat /\
    forall r, In r rows ->
      In (NGO r) (map ngo_name ngo_df) /\
      exists district_data,
        In district_data damage_df /\ district district_data = score_district r /\
        match_ r
        = round2 (fmul (match_score
                          (filter (fun c => String.eqb (ngo_name c) (NGO r)) ngo_df)
                          district_data) (Fin 100)) /\
        score_urgency r = round2 (fmul (urgency district_data) (Fin 100)) /\
        score_fitness r
        = round2 (fitness_score
                    (filter (fun c => String.eqb (ngo_name c) (NGO r)) ngo_df)
                    district_data).
Proof.
  unfold results.
  destruct (mapM_total (fun ngo => mapM (body round2 damage_df ngo_df ngo)
                                        (districts damage_df)) (ngos ngo_df))
    as [per_ngo [E F]].
  { intros ngo _.
    destruct (mapM_total (body round2 damage_df ngo_df ngo) (districts damage_df))
      as [v [Ev _]]; [|exists v; exact Ev].
    intros d Hd. destruct (body_total ngo d Hd) as [dd [_ [_ Eb]]].
    eexists; exact Eb. }
  rewrite E. cbn [bind]. exists (List.concat per_ngo). split; [reflexivity|]. split.
  - rewrite (length_concat_const per_ngo (List.length (districts damage_df))).
    + rewrite (Forall2_length_eq _ _ _ F). reflexivity.
    + intros l Hl. destruct (Forall2_in_r _ _ _ _ F Hl) as [ngo [_ El]].
      apply mapM_length in El. exact El.
  - intros r Hr. apply in_concat in Hr. destruct Hr as [l [Hl Hr]].
    destruct (Forall2_in_r _ _ _ _ F Hl) as [ngo [Hn El]].
    apply mapM_ok_inv in El.
    destruct (Forall2_in_r _ _ _ _ El Hr) as [d [Hd Eb]].
    destruct (body_total ngo d Hd) as [dd [Hdd [Ek Eb']]].
    rewrite Eb' in Eb. injection Eb as <-. cbn [NGO score_district match_ score_urgency
                                                 score_fitness].
    split.
    + unfold ngos in Hn. apply (proj1 (in_sorted _ _)) in Hn.
      apply (proj1 (in_unique _ _)) in Hn. exact Hn.
    + exists dd. repeat split; assumption.
Qed.

End NgoScoresScript.

(** ** Dicts *)

Section Dicts.

Import PyDict.

Context {V : Type}.

Lemma contains_keys (d : dict V) (k : string) :
  contains d k = true <-> In k (keys d).
Proof.
  unfold contains, keys. rewrite existsb_exists, in_map_iff. split.
  - intros [p [Hp E]]. apply String.eqb_eq in E. exists p. split; assumption.
  - intros [p [E Hp]]. exists p. split; [exact Hp | apply String.eqb_eq, E].
Qed.

Lemma keys_setitem (d : dict V) (k : string) (v : V) :
  keys (setitem d k v) = if contains d k then keys d else (keys d ++ [k])%list.
Proof.
  unfold keys, contains. induction d as [|[k' v'] d IH]; [reflexivity|].
  cbn [setitem existsb map fst]. destruct (String.eqb k' k) eqn:E; cbn [orb map fst].
  - reflexivity.
  - rewrite IH. destruct (existsb _ d); reflexivity.
Qed.

Lemma get_setitem_same (d : dict V) (k : string) (v : V) :
  get (setitem d k v) k = Some v.
Proof.
  induction d as [|[k' v'] d IH]; cbn [setitem get].
  - rewrite String.eqb_refl. reflexivity.
  - destruct (String.eqb k' k) eqn:E; cbn [get]; rewrite E; [reflexivity | exact IH].
Qed.

Lemma get_setitem_other (d : dict V) (k k' : string) (v : V) :
  k' <> k -> get (setitem d k v) k' = get d k'.
Proof.
  intros Hk. induction d as [|[k0 v0] d IH]; cbn [setitem get].
  - destruct (String.eqb k k') eqn:E; [|reflexivity].
    apply String.eqb_eq in E. congruence.
  - destruct (String.eqb k0 k) eqn:E; cbn [get].
    + apply String.eqb_eq in E. subst k0.
      destruct (String.eqb k k') eqn:E'; [|reflexivity].
      apply String.eqb_eq in E'. congruence.
    + rewrite IH. reflexivity.
Qed.

Lemma get_none (d : dict V) (k : string) : get d k = None <-> ~ In k (keys d).
Proof.
  unfold keys. induction d as [|[k' v'] d IH]; cbn [get map fst In]; [tauto|].
  destruct (String.eqb k' k) eqn:E.
  - apply String.eqb_eq in E. split; [discriminate | intros H; exfalso; apply H; left; exact E].
  - apply String.eqb_neq in E. rewrite IH. tauto.
Qed.

Lemma get_in (d : dict V) (k : string) (v : V) : get d k = Some v -> In (k, v) d.
Proof.
  induction d as [|[k' v'] d IH]; cbn [get]; [discriminate|].
  destruct (String.eqb k' k) eqn:E.
  - apply String.eqb_eq in E. intros H; inversion H; subst. left; reflexivity.
  - intros H. right. exact (IH H).
Qed.

End Dicts.

(** ** convert_to_vivaan.py: the shape of the matrix *)

Section Convert.

Import PyDict GenerateNgoScores ConvertToVivaan.

Lemma in_setitem {V : Type} (d : dict V) (k : string) (v : V) (p : string * V) :
  In p (setitem d k v) -> In p d \/ snd p = v.
Proof.
  induction d as [|[k' v'] d IH]; cbn [setitem].
  - intros [<-|[]]. right; reflexivity.
  - destruct (String.eqb k' k).
    + intros [<-|H]; [right; reflexivity | left; right; exact H].
    + intros [<-|H]; [left; left; reflexivity|].
      destruct (IH H) as [H'|H']; [left; right; exact H' | right; exact H'].
Qed.

Lemma binary_blank : binary blank.
Proof.
  split.
  - unfold blank, keys. rewrite map_map. cbn [fst]. apply map_id.
  - intros p Hp. unfold blank in Hp. apply in_map_iff in Hp.
    destruct Hp as [c [<- _]]. left; reflexivity.
Qed.

Lemma binary_assign (caps : dict Z) (category : string) (score : float64) :
  binary caps ->
  binary (if contains caps category
          then setitem caps category (if fltb (Fin 0) score then 1%Z else 0%Z)
          else caps).
Proof.
  intros [Hk Hv]. destruct (contains caps category) eqn:E; [|split; assumption].
  split.
  - rewrite keys_setitem, E. exact Hk.
  - intros p Hp. apply in_setitem in Hp. destruct Hp as [Hp|Hp]; [apply Hv, Hp|].
    rewrite Hp. destruct (fltb (Fin 0) score); [right | left]; reflexivity.
Qed.

Lemma keys_update (output : dict (dict Z)) (ngo : string) (f : dict Z -> dict Z) :
  keys (update output ngo f) = keys output.
Proof.
  unfold keys, update. rewrite map_map. apply map_ext.
  intros [k v]. cbn [fst]. destruct (String.eqb k ngo); reflexivity.
Qed.

Lemma in_update (output : dict (dict Z)) (ngo : string) (f : dict Z -> dict Z)
    (p : string * dict Z) :
  In p (update output ngo f) ->
  exists q, In q output /\ fst p = fst q /\ (snd p = snd q \/ snd p = f (snd q)).
Proof.
  unfold update. intros H. apply in_map_iff in H. destruct H as [q [E Hq]].
  exists q. split; [exact Hq|]. destruct (String.eqb (fst q) ngo); subst p; cbn [fst snd]; auto.
Qed.

Lemma keys_step (output : dict (dict Z)) (row : capability) :
  keys (step output row)
  = if contains output (PyStr.strip (ngo_name row)) then keys output
    else (keys output ++ [PyStr.strip (ngo_name row)])%list.
Proof.
  unfold step. rewrite keys_update.
  destruct (contains output (PyStr.strip (ngo_name row))) eqn:E; [reflexivity|].
  rewrite keys_setitem, E. reflexivity.
Qed.

Lemma consistent_step (output : dict (dict Z)) (row : capability) :
  consistent output -> consistent (step output row).
Proof.
  intros [Hnd Hb]. split.
  - rewrite keys_step. destruct (contains output _) eqn:E; [exact Hnd|].
    apply NoDup_app; [exact Hnd | repeat constructor; intros [] | ].
    intros k Hk [<-|[]]. apply contains_keys in Hk. congruence.
  - intros p Hp. unfold step in Hp. apply in_update in Hp.
    destruct Hp as [q [Hq [_ Hs]]].
    assert (Bq : binary (snd q)).
    { destruct (contains output (PyStr.strip (ngo_name row))); [apply Hb, Hq|].
      apply in_setitem in Hq. destruct Hq as [Hq|Hq]; [apply Hb, Hq|].
      rewrite Hq. apply binary_blank. }
    destruct Hs as [->| ->]; [exact Bq | apply binary_assign, Bq].
Qed.

Lemma consistent_fold (df : list capability) (output : dict (dict Z)) :
  consistent output -> consistent (fold_left step df output).
Proof.
  revert output. induction df as [|row df IH]; intros output H; [exact H|].
  cbn [fold_left]. apply IH, consistent_step, H.
Qed.

Lemma keys_step_incl (output : dict (dict Z)) (row : capability) (k : string) :
  In k (keys output) -> In k (keys (step output row)).
Proof.
  intros H. rewrite keys_step. destruct (contains output _); [exact H|].
  apply in_or_app. left; exact H.
Qed.

Lemma keys_fold_incl (df : list capability) (output : dict (dict Z)) (k : string) :
  In k (keys output) -> In k (keys (fold_left step df output)).
Proof.
  revert output. induction df as [|row df IH]; intros output H; [exact H|].
  cbn [fold_left]. apply IH, keys_step_incl, H.
Qed.

Lemma keys_fold_rows (df : list capability) (output : dict (dict Z)) (row : capability) :
  In row df -> In (PyStr.strip (ngo_name row)) (keys (fold_left step df output)).
Proof.
  revert output. induction df as [|r df IH]; intros output H; [destruct H|].
  cbn [fold_left]. destruct H as [->|H]; [|apply IH, H].
  apply keys_fold_incl. rewrite keys_step.
  destruct (contains output (PyStr.strip (ngo_name row))) eqn:E.
  - apply contains_keys, E.
  - apply in_or_app. right. left. reflexivity.
Qed.

Lemma consistent_nil : consistent [].
Proof. split; [constructor | intros p []]. Qed.

(** The frame before the loop over [all_ngos]. *)
Lemma to_frame_ok (output : dict (dict Z)) (t : list matrix_row) :
  to_frame output = Ok t ->
  output <> [] /\
  t = map (fun p => (fst p,
                     map (fun c => match get (snd p) c with
                                   | Some v => v
                                   | None => 0%Z
                                   end) categories)) output.
Proof.
  unfold to_frame. destruct output as [|p output]; [discriminate|].
  intros H; inversion H. split; [discriminate | reflexivity].
Qed.

Lemma add_missing_spec (names : list string) (t : list matrix_row) :
  NoDup (map fst t) -> (forall r, In r t -> zero_or_one r) ->
  NoDup (map fst (fold_left (fun df ngo =>
               if existsb (fun r => String.eqb (fst r) ngo) df then df
               else (df ++ [(ngo, map (fun _ => 0%Z) categories)])%list) names t)) /\
  (forall r, In r (fold_left (fun df ngo =>
               if existsb (fun r => String.eqb (fst r) ngo) df then df
               else (df ++ [(ngo, map (fun _ => 0%Z) categories)])%list) names t) ->
             zero_or_one r) /\
  (forall k, In k (map fst t) \/ In k names ->
             In k (map fst (fold_left (fun df ngo =>
               if existsb (fun r => String.eqb (fst r) ngo) df then df
               else (df ++ [(ngo, map (fun _ => 0%Z) categories)])%list) names t))) /\
  exists added, fold_left (fun df ngo =>
               if existsb (fun r => String.eqb (fst r) ngo) df then df
               else (df ++ [(ngo, map (fun _ => 0%Z) categories)])%list) names t
                = (t ++ added)%list /\
    forall r, In r added -> snd r = map (fun _ => 0%Z) categories.
Proof.
  revert t. induction names as [|ngo names IH]; intros t Hnd Hz; cbn [fold_left].
  - split; [exact Hnd|]. split; [exact Hz|]. split.
    + intros k [H|[]]. exact H.
    + exists []. rewrite app_nil_r. split; [reflexivity | intros r []].
  - destruct (existsb (fun r => String.eqb (fst r) ngo) t) eqn:E.
    + destruct (IH t Hnd Hz) as [H1 [H2 [H3 [added H5]]]].
      split; [exact H1|]. split; [exact H2|]. split; [|exists added; exact H5].
      intros k [Hk|[<-|Hk]]; [apply H3; left; exact Hk| |apply H3; right; exact Hk].
      apply H3. left.
      apply existsb_exists in E. destruct E as [r [Hr Er]].
      apply String.eqb_eq in Er. apply in_map_iff. exists r. split; assumption.
    + assert (Hnew : ~ In ngo (map fst t)).
      { intros Hin. apply in_map_iff in Hin. destruct Hin as [r [Er Hr]].
        assert (existsb (fun r => String.eqb (fst r) ngo) t = true).
        { apply existsb_exists. exists r. split; [exact Hr | apply String.eqb_eq, Er]. }
        congruence. }
      destruct (IH (t ++ [(ngo, map (fun _ => 0%Z) categories)])%list)
        as [H1 [H2 [H3 [added [H5 H6]]]]].
      * rewrite map_app. apply NoDup_app; [exact Hnd | repeat constructor; intros [] |].
        intros k Hk [<-|[]]. exact (Hnew Hk).
      * intros r Hr. apply in_app_or in Hr. destruct Hr as [Hr|[<-|[]]]; [apply Hz, Hr|].
        split; [cbn [snd]; rewrite length_map; reflexivity|].
        cbn [snd]. intros v Hv. apply in_map_iff in Hv. destruct Hv as [c [<- _]].
        left; reflexivity.
      * split; [exact H1|]. split; [exact H2|]. split.
        -- intros k [Hk|[<-|Hk]]; apply H3.
           ++ left. rewrite map_app. apply in_or_app. left; exact Hk.
           ++ left. rewrite map_app. apply in_or_app. right. left. reflexivity.
           ++ right. exact Hk.
        -- exists ((ngo, map (fun _ => 0%Z) categories) :: added).
           rewrite <- app_assoc in H5. split; [exact H5|].
           intros r [<-|Hr]; [reflexivity | apply H6, Hr].
Qed.

Lemma frame_rows (output : dict (dict Z)) :
  consistent output ->
  forall r, In r (map (fun p => (fst p,
                     map (fun c => match get (snd p) c with
                                   | Some v => v
                                   | None => 0%Z
                                   end) categories)) output) -> zero_or_one r.
Proof.
  intros [_ Hb] r Hr. apply in_map_iff in Hr. destruct Hr as [p [<- Hp]].
  split; [cbn [snd]; rewrite length_map; reflexivity|].
  cbn [snd]. intros v Hv. apply in_map_iff in Hv. destruct Hv as [c [<- _]].
  destruct (get (snd p) c) as [v|] eqn:E; [|left; reflexivity].
  apply get_in in E. destruct (Hb p Hp) as [_ Hv]. exact (Hv (c, v) E).
Qed.

(** X18.  The matrix [convert_to_vivaan.py] writes names every organisation
    once, holds eleven values per row, each 0 or 1, and has a row for each of
    the nine default organisations and for every organisation of the input
    (its name stripped). *)
Theorem converted_matrix_is_well_formed (df : list capability) (t : list matrix_row) :
  convert df = Ok t ->
  NoDup (map fst t) /\
  (forall r, In r t ->
     List.length (snd r) = List.length categories /\
     forall v, In v (snd r) -> v = 0%Z \/ v = 1%Z) /\
  (forall ngo, In ngo all_ngos -> In ngo (map fst t)) /\
  (forall row, In row df -> In (PyStr.strip (ngo_name row)) (map fst t)).
Proof.
  unfold convert. intros H. apply bind_ok_inv in H. destruct H as [t0 [Ht0 H]].
  inversion H; subst t. clear H.
  apply to_frame_ok in Ht0. destruct Ht0 as [_ ->].
  pose proof (consistent_fold df [] consistent_nil) as Hc.
  set (output := fold_left step df []) in *.
  set (t0 := map _ output).
  assert (Hk : map fst t0 = keys output).
  { unfold t0, keys. rewrite map_map. reflexivity. }
  destruct (add_missing_spec all_ngos t0) as [H1 [H2 [H3 _]]].
  - rewrite Hk. apply Hc.
  - apply frame_rows, Hc.
  - split; [exact H1|]. split; [exact H2|]. split.
    + intros ngo Hn. apply H3. right; exact Hn.
    + intros row Hrow. apply H3. left. rewrite Hk. apply keys_fold_rows, Hrow.
Qed.

Lemma fold_step_nonempty (df : list capability) (output : dict (dict Z)) :
  output <> [] -> fold_left step df output <> [].
Proof.
  revert output. induction df as [|row df IH]; intros output H; [exact H|].
  cbn [fold_left]. apply IH. intros E.
  assert (K : keys (step output row) = []) by (rewrite E; reflexivity).
  rewrite keys_step in K. destruct (contains output _).
  - destruct output; [contradiction | discriminate].
  - destruct (keys output); discriminate.
Qed.

(** X19.  [convert_to_vivaan.py] fails on an input without rows, where the
    frame has no category column to select ([KeyError]), and succeeds on
    every other input. *)
Theorem only_an_empty_capability_file_is_refused (df : list capability) :
  (df = [] -> exists label, convert df = Raise (KeyError label)) /\
  (df <> [] -> exists t, convert df = Ok t).
Proof.
  split.
  - intros ->. eexists. reflexivity.
  - intros Hne. destruct df as [|row df]; [contradiction|].
    unfold convert. cbn [fold_left].
    assert (H : fold_left step df (step [] row) <> []).
    { apply fold_step_nonempty. intros E.
      assert (K : keys (step [] row) = []) by (rewrite E; reflexivity).
      rewrite keys_step in K. discriminate. }
    unfold to_frame. destruct (fold_left step df (step [] row)); [contradiction|].
    cbn [bind]. eexists; reflexivity.
Qed.

End Convert.

(** ** convert_to_vivaan.py: the values of the matrix *)

Section LastRow.

Import PyDict GenerateNgoScores ConvertToVivaan.

Lemma last_score_snoc (df : list capability) (row : capability) (ngo cat : string) :
  last_score (df ++ [row]) ngo cat
  = if String.eqb (PyStr.strip (ngo_name row)) ngo
       && String.eqb (PyStr.strip (category row)) cat
    then (if fltb (Fin 0) (capacity_score row) then 1%Z else 0%Z)
    else last_score df ngo cat.
Proof. unfold last_score. rewrite fold_left_app. reflexivity. Qed.

Lemma last_score_absent (df : list capability) (ngo cat : string) :
  (forall r, In r df -> PyStr.strip (ngo_name r) <> ngo) -> last_score df ngo cat = 0%Z.
Proof.
  induction df as [|row df IH] using rev_ind; intros H; [reflexivity|].
  rewrite last_score_snoc.
  assert (E : String.eqb (PyStr.strip (ngo_name row)) ngo = false).
  { apply String.eqb_neq, H, in_or_app. right; left; reflexivity. }
  rewrite E. cbn [andb]. apply IH. intros r Hr. apply H, in_or_app. left; exact Hr.
Qed.

Lemma get_update (output : dict (dict Z)) (ngo k : string) (f : dict Z -> dict Z) :
  get (update output ngo f) k
  = if String.eqb k ngo then option_map f (get output k) else get output k.
Proof.
  unfold update. induction output as [|[k' v'] output IH]; cbn [map get fst snd].
  - destruct (String.eqb k ngo); reflexivity.
  - destruct (String.eqb k' ngo) eqn:E1; cbn [get fst snd];
      destruct (String.eqb k' k) eqn:E2.
    + apply String.eqb_eq in E1, E2. subst. rewrite String.eqb_refl. reflexivity.
    + exact IH.
    + apply String.eqb_eq in E2. subst k'. rewrite E1. reflexivity.
    + exact IH.
Qed.

Lemma get_blank (cat : string) : In cat categories -> get blank cat = Some 0%Z.
Proof.
  unfold blank. induction categories as [|c l IH]; intros H; [destruct H|].
  cbn [map get]. destruct (String.eqb c cat) eqn:E; [reflexivity|].
  destruct H as [->|H]; [rewrite String.eqb_refl in E; discriminate | exact (IH H)].
Qed.

Lemma records_step (output : dict (dict Z)) (df : list capability) (row : capability) :
  consistent output -> records output df -> records (step output row) (df ++ [row]).
Proof.
  intros [Hnd Hb] [Hk Hv].
  set (name := PyStr.strip (ngo_name row)).
  split.
  - intros ngo. rewrite keys_step. fold name. split.
    + intros Hin.
      assert (Hcase : In ngo (keys output) \/ ngo = name).
      { destruct (contains output name); [left; exact Hin|].
        apply in_app_or in Hin.
        destruct Hin as [H|[<-|[]]]; [left; exact H | right; reflexivity]. }
      destruct Hcase as [H| ->].
      * destruct (proj1 (Hk ngo) H) as [r [Hr E]]. exists r. split; [|exact E].
        apply in_or_app. left; exact Hr.
      * exists row. split; [apply in_or_app; right; left; reflexivity | reflexivity].
    + intros [r [Hr E]]. apply in_app_or in Hr.
      destruct (contains output name) eqn:Ec.
      * destruct Hr as [Hr|[<-|[]]].
        -- apply Hk. exists r. split; assumption.
        -- rewrite <- E. apply contains_keys, Ec.
      * apply in_or_app. destruct Hr as [Hr|[<-|[]]].
        -- left. apply Hk. exists r. split; assumption.
        -- right. left. exact E.
  - intros ngo caps Hg cat Hcat. rewrite last_score_snoc. fold name.
    unfold step in Hg. fold name in Hg. rewrite get_update in Hg.
    destruct (String.eqb ngo name) eqn:En.
    + apply String.eqb_eq in En. subst ngo.
      rewrite (String.eqb_refl name). cbn [andb].
      assert (Hcaps0 : exists caps0,
                 get (if contains output name then output else setitem output name blank)
                     name = Some caps0 /\ binary caps0 /\
                 forall c, In c categories -> get caps0 c = Some (last_score df name c)).
      { destruct (contains output name) eqn:Ec.
        - destruct (get output name) as [caps0|] eqn:Eg.
          + exists caps0. split; [reflexivity|]. split.
            * apply (Hb (name, caps0)). apply get_in, Eg.
            * intros c Hc. apply (Hv name caps0 Eg c Hc).
          + exfalso. apply get_none in Eg. apply Eg. apply contains_keys, Ec.
        - exists blank. split; [apply get_setitem_same|]. split; [apply binary_blank|].
          intros c Hc. rewrite (get_blank c Hc). f_equal. symmetry.
          apply last_score_absent. intros r Hr E.
          assert (H : In name (keys output)) by (apply Hk; exists r; split; assumption).
          apply contains_keys in H. congruence. }
      destruct Hcaps0 as [caps0 [Eg [[Hkeys Hbin] Hlast]]].
      rewrite Eg in Hg. cbn [option_map] in Hg. injection Hg as <-.
      set (category := PyStr.strip (GenerateNgoScores.category row)).
      assert (Hc : forall c, In c categories -> contains caps0 c = true).
      { intros c Hin. apply contains_keys. rewrite Hkeys. exact Hin. }
      destruct (contains caps0 category) eqn:Ecat.
      * destruct (String.eqb category cat) eqn:E.
        -- apply String.eqb_eq in E. subst cat. apply get_setitem_same.
        -- rewrite get_setitem_other; [apply Hlast, Hcat|].
           intros ->. rewrite String.eqb_refl in E. discriminate.
      * destruct (String.eqb category cat) eqn:E.
        -- apply String.eqb_eq in E. subst cat. rewrite (Hc _ Hcat) in Ecat. discriminate.
        -- apply Hlast, Hcat.
    + assert (Hne : ngo <> name) by (apply String.eqb_neq, En).
      rewrite String.eqb_sym, En. cbn [andb].
      apply (Hv ngo caps); [|exact Hcat].
      destruct (contains output name); [exact Hg|].
      rewrite get_setitem_other in Hg by exact Hne. exact Hg.
Qed.

Lemma records_fold (rows df : list capability) (output : dict (dict Z)) :
  consistent output -> records output df ->
  records (fold_left step rows output) (df ++ rows).
Proof.
  revert df output. induction rows as [|row rows IH]; intros df output Hc Hr.
  - rewrite app_nil_r. exact Hr.
  - cbn [fold_left]. replace (df ++ row :: rows)%list with ((df ++ [row]) ++ rows)%list
      by (rewrite <- app_assoc; reflexivity).
    apply IH; [apply consistent_step, Hc | apply records_step; assumption].
Qed.

Lemma records_nil : records [] [].
Proof.
  split.
  - intros ngo. split; [intros [] | intros [r [[] _]]].
  - intros ngo caps H. discriminate.
Qed.

Lemma find_combine (g : string -> Z) (l : list string) (c : string) :
  In c l ->
  find (fun cv => String.eqb (fst cv) c) (combine l (map g l)) = Some (c, g c).
Proof.
  induction l as [|x l IH]; intros H; [destruct H|].
  cbn [map combine find fst]. destruct (String.eqb x c) eqn:E.
  - apply String.eqb_eq in E. subst x. reflexivity.
  - destruct H as [->|H]; [rewrite String.eqb_refl in E; discriminate | exact (IH H)].
Qed.

Lemma find_frame (output : dict (dict Z)) (added : list (string * list Z)) (ngo : string)
    (caps : dict Z) (F : string * dict Z -> string * list Z) :
  (forall p, fst (F p) = fst p) ->
  get output ngo = Some caps ->
  find (fun r => String.eqb (fst r) ngo) (map F output ++ added)
  = Some (F (match find (fun p => String.eqb (fst p) ngo) output with
             | Some p => p | None => (ngo, caps) end)) /\
  exists k, find (fun p => String.eqb (fst p) ngo) output = Some (k, caps).
Proof.
  intros HF. induction output as [|[k v] output IH]; cbn [get]; [discriminate|].
  cbn [map app find]. rewrite HF. cbn [fst].
  destruct (String.eqb k ngo) eqn:E.
  - intros H; injection H as <-. split; [reflexivity | exists k; reflexivity].
  - exact IH.
Qed.

(** X20.  Each value of the converted matrix is what the last input row for
    that organisation and category said (names stripped): 1 for a positive
    score, 0 otherwise, and 0 when there is no such row. *)
Theorem last_row_of_a_category_decides (df : list capability)
    (t : list matrix_row) (ngo cat : string) :
  convert df = Ok t ->
  In ngo (map fst t) -> In cat categories ->
  value t ngo cat = Some (last_score df ngo cat).
Proof.
  unfold convert. intros H Hn Hc. apply bind_ok_inv in H. destruct H as [t0 [Ht0 H]].
  inversion H; subst t. clear H.
  apply to_frame_ok in Ht0. destruct Ht0 as [_ ->].
  pose proof (consistent_fold df [] consistent_nil) as Hcons.
  pose proof (records_fold df [] [] consistent_nil records_nil) as Hrec.
  cbn [app] in Hrec.
  set (output := fold_left step df []) in *.
  set (F := fun p : string * dict Z =>
              (fst p, map (fun c => match get (snd p) c with
                                    | Some v => v
                                    | None => 0%Z
                                    end) categories)) in *.
  assert (Hk : map fst (map F output) = keys output).
  { unfold keys. rewrite map_map. reflexivity. }
  destruct (add_missing_spec all_ngos (map F output)) as [_ [_ [_ [added [Ea Hzero]]]]].
  { rewrite Hk. apply Hcons. }
  { apply frame_rows, Hcons. }
  unfold add_missing in *. rewrite Ea in *. clear Ea.
  unfold value, matrix_row in *.
  destruct (get output ngo) as [caps|] eqn:Eg.
  - destruct (find_frame output added ngo caps F (fun p => eq_refl) Eg) as [Ef [k Ek]].
    rewrite Ef, Ek. unfold F at 1. cbn [fst snd].
    rewrite (find_combine (fun c => match get caps c with Some v => v | None => 0%Z end)
               categories cat Hc).
    cbn [snd]. f_equal. destruct Hrec as [_ Hv]. rewrite (Hv ngo caps Eg cat Hc). reflexivity.
  - (* a name that came from the loop over all_ngos *)
    apply get_none in Eg.
    assert (Hz : last_score df ngo cat = 0%Z).
    { apply last_score_absent. intros r Hr E. apply Eg. apply Hrec.
      exists r. split; assumption. }
    rewrite Hz.
    assert (Hfind : find (fun r => String.eqb (fst r) ngo) (map F output ++ added)
                    = find (fun r => String.eqb (fst r) ngo) added).
    { clear - Eg. unfold keys in Eg. induction output as [|p output IH]; [reflexivity|].
      cbn [map app find]. unfold F at 1. cbn [fst].
      destruct (String.eqb (fst p) ngo) eqn:E.
      - exfalso. apply Eg. left. apply String.eqb_eq, E.
      - apply IH. intros H. apply Eg. right; exact H. }
    rewrite Hfind.
    assert (Ha : In ngo (map fst added)).
    { rewrite map_app in Hn. apply in_app_or in Hn. destruct Hn as [Hn|Hn]; [|exact Hn].
      rewrite Hk in Hn. contradiction. }
    destruct (find (fun r => String.eqb (fst r) ngo) added) as [r|] eqn:Er.
    + apply find_some in Er. destruct Er as [Hr _]. rewrite (Hzero r Hr).
      rewrite (find_combine (fun _ => 0%Z) categories cat Hc). reflexivity.
    + exfalso. apply in_map_iff in Ha. destruct Ha as [r [E Hr]].
      pose proof (find_none _ _ Er r Hr) as Hf. cbn beta in Hf.
      rewrite E, String.eqb_refl in Hf. discriminate.
Qed.

End LastRow.

(** ** color_map_nepal.py *)

Section Colours.

Import ColorMapNepal.

Lemma Int_part_range (x : R) (lo hi : Z) :
  IZR lo <= x -> x <= IZR hi -> (lo <= Int_part x <= hi)%Z.
Proof.
  intros Hlo Hhi. destruct (base_Int_part x) as [H1 H2]. split.
  - assert (IZR lo < IZR (Int_part x + 1)) by (rewrite plus_IZR; simpl; lra).
    apply lt_IZR in H. lia.
  - apply le_IZR. lra.
Qed.

Lemma Int_part_le (x y : R) : x <= y -> (Int_part x <= Int_part y)%Z.
Proof.
  intros H. destruct (base_Int_part x) as [H1 _]. destruct (base_Int_part y) as [_ H2].
  assert (IZR (Int_part x) < IZR (Int_part y + 1)) by (rewrite plus_IZR; simpl; lra).
  apply lt_IZR in H0. lia.
Qed.

Lemma trunc_nonneg (x : R) : 0 <= x -> trunc x = Int_part x.
Proof. intros H. unfold trunc. destruct (Rle_dec 0 x); [reflexivity | contradiction]. Qed.

Lemma format_02x_bytes :
  forallb (fun k => Nat.eqb (String.length (format_02x (Z.of_nat k))) 2) (seq 0 256) = true.
Proof. vm_compute. reflexivity. Qed.

Lemma format_02x_length (n : Z) :
  (0 <= n <= 255)%Z -> String.length (format_02x n) = 2%nat.
Proof.
  intros H. pose proof format_02x_bytes as B. rewrite forallb_forall in B.
  specialize (B (Z.to_nat n)). rewrite Z2Nat.id in B by lia.
  apply Nat.eqb_eq, B. apply in_seq. lia.
Qed.

Lemma str_length_append (s t : string) :
  String.length (s ++ t) = (String.length s + String.length t)%nat.
Proof. induction s as [|c s IH]; simpl; [reflexivity | rewrite IH; reflexivity]. Qed.

Lemma value_to_color_fin (v : R) :
  value_to_color (Fin v)
  = inl ("#" ++ format_02x (red v) ++ format_02x (green v) ++ format_02x 0)%string.
Proof.
  unfold value_to_color, red, green. cbn [fsub fneg fadd].
  rewrite fdiv_fin by lra. cbn [fsub fneg fadd fmul int]. reflexivity.
Qed.

Lemma channels (v : R) :
  1 <= v <= 100 ->
  0 <= 255 * ((v - 1) / 99) <= 255 /\ 0 <= 255 * (1 - (v - 1) / 99) <= 255.
Proof. intros H. lra. Qed.

(** X21.  For a value between 1 and 100, [value_to_color] returns a colour of
    seven characters, [#rrgg00], whose red and green channels lie between 0
    and 255; the value 1 gives [#ff0000] and the value 100 gives
    [#00ff00]. *)
Theorem colour_of_a_value_in_range (v : R) :
  1 <= v <= 100 ->
  value_to_color (Fin v)
  = inl ("#" ++ format_02x (red v) ++ format_02x (green v) ++ "00")%string /\
  (0 <= red v <= 255)%Z /\ (0 <= green v <= 255)%Z /\
  String.length ("#" ++ format_02x (red v) ++ format_02x (green v) ++ "00") = 7%nat /\
  value_to_color (Fin 1) = inl "#ff0000"%string /\
  value_to_color (Fin 100) = inl "#00ff00"%string.
Proof.
  intros H. destruct (channels v H) as [Hg Hr].
  assert (Br : (0 <= red v <= 255)%Z).
  { unfold red. rewrite trunc_nonneg by lra. apply Int_part_range; simpl; lra. }
  assert (Bg : (0 <= green v <= 255)%Z).
  { unfold green. rewrite trunc_nonneg by lra. apply Int_part_range; simpl; lra. }
  split; [apply value_to_color_fin|]. split; [exact Br|]. split; [exact Bg|]. split.
  - cbn [append String.length]. rewrite !str_length_append.
    rewrite !format_02x_length by assumption. reflexivity.
  - rewrite !value_to_color_fin. unfold red, green. rewrite !trunc_nonneg by lra.
    replace (Int_part (255 * (1 - (1 - 1) / 99))) with 255%Z
      by (apply Int_part_spec; simpl; lra).
    replace (Int_part (255 * ((1 - 1) / 99))) with 0%Z
      by (apply Int_part_spec; simpl; lra).
    replace (Int_part (255 * (1 - (100 - 1) / 99))) with 0%Z
      by (apply Int_part_spec; simpl; lra).
    replace (Int_part (255 * ((100 - 1) / 99))) with 255%Z
      by (apply Int_part_spec; simpl; lra).
    split; reflexivity.
Qed.

(** X22.  Between 1 and 100 a larger value never has more red nor less
    green. *)
Theorem colour_runs_from_red_to_green (v w : R) :
  1 <= v -> v <= w -> w <= 100 ->
  (red w <= red v)%Z /\ (green v <= green w)%Z.
Proof.
  intros H1 H2 H3. unfold red, green. rewrite !trunc_nonneg by lra.
  split; apply Int_part_le; lra.
Qed.

(** X23.  [value_to_color] fails in [int] on what is no number: on [nan]
    with the [ValueError] of the conversion, on either infinity with its
    [OverflowError]; a value it returns a colour for is finite. *)
Theorem colour_fails_on_what_is_no_number :
  value_to_color NaN = inr CannotConvertNaN /\
  value_to_color PInf = inr CannotConvertInfinity /\
  value_to_color NInf = inr CannotConvertInfinity /\
  forall value s, value_to_color value = inl s -> exists v, value = Fin v.
Proof.
  assert (HP : value_to_color PInf = inr CannotConvertInfinity).
  { unfold value_to_color. cbn [fsub fneg fadd]. unfold fdiv.
    destruct (Rlt_dec 99 0); [lra|]. cbn [fsub fneg fadd fmul fsign mul_sign].
    unfold Rsign. destruct (Rlt_dec 0 255); [|lra]. reflexivity. }
  assert (HN : value_to_color NInf = inr CannotConvertInfinity).
  { unfold value_to_color. cbn [fsub fneg fadd]. unfold fdiv.
    destruct (Rlt_dec 99 0); [lra|]. cbn [fsub fneg fadd fmul fsign mul_sign].
    unfold Rsign. destruct (Rlt_dec 0 255); [|lra]. reflexivity. }
  split; [reflexivity|]. split; [exact HP|]. split; [exact HN|].
  intros value s H. destruct value as [v| | |]; [exists v; reflexivity| | |].
  - rewrite HP in H. discriminate.
  - rewrite HN in H. discriminate.
  - discriminate.
Qed.

End Colours.

(** ** map_nepal.py *)

Section Map.

Import PyDict MapNepal.





Lemma name_key_cases (features : list (dict string)) :
  match features with
  | [] => name_key features = Raise IndexError
  | sample_props :: _ =>
      (contains sample_props "DISTRICT" = true -> name_key features = Ok "DISTRICT"%string) /\
      (contains sample_props "DISTRICT" = false ->
       match sample_props with
       | [] => name_key features = Raise IndexError
       | (k, _) :: _ => name_key features = Ok k
       end)
  end.
Proof.
  destruct features as [|sample_props rest]; [reflexivity|].
  unfold name_key. cbn [first bind]. split; intros ->; [reflexivity|].
  destruct sample_props as [|[k v] l]; reflexivity.
Qed.

End Map.

(** ** app.py: names, joins and ranking *)

Section DashboardData.

Import App.



Lemma merge_left_spec {A B : Type} (key_a : A -> string) (key_b : B -> string)
    (left : list A) (right : list B) (a : A) (ob : option B) :
  In (a, ob) (merge_left key_a key_b left right) <->
  In a left /\
  match ob with
  | Some b => In b right /\ key_b b = key_a a
  | None => forall b, In b right -> key_b b <> key_a a
  end.
Proof.
  unfold merge_left. rewrite in_flat_map. split.
  - intros [a' [Ha H]].
    destruct (filter (fun b => String.eqb (key_b b) (key_a a')) right) as [|b0 l] eqn:E.
    + destruct H as [H|[]]. inversion H; subst a' ob. split; [exact Ha|].
      intros b Hb Hk.
      assert (Hin : In b (filter (fun b => String.eqb (key_b b) (key_a a)) right))
        by (apply filter_In; split; [exact Hb | apply String.eqb_eq, Hk]).
      rewrite E in Hin. destruct Hin.
    + apply in_map_iff in H. destruct H as [b [Eb Hb]]. inversion Eb; subst a' ob.
      split; [exact Ha|]. rewrite <- E in Hb. apply filter_In in Hb.
      destruct Hb as [Hb Hk]. apply String.eqb_eq in Hk. split; assumption.
  - intros [Ha H]. exists a. split; [exact Ha|].
    destruct (filter (fun b => String.eqb (key_b b) (key_a a)) right) as [|b0 l] eqn:E.
    + destruct ob as [b|].
      * destruct H as [Hb Hk].
        assert (Hin : In b (filter (fun b => String.eqb (key_b b) (key_a a)) right))
          by (apply filter_In; split; [exact Hb | apply String.eqb_eq, Hk]).
        rewrite E in Hin. destruct Hin.
      * left; reflexivity.
    + destruct ob as [b|].
      * destruct H as [Hb Hk]. apply in_map_iff. exists b. split; [reflexivity|].
        rewrite <- E. apply filter_In. split; [exact Hb | apply String.eqb_eq, Hk].
      * exfalso. assert (Hin : In b0 (filter (fun b => String.eqb (key_b b) (key_a a)) right))
          by (rewrite E; left; reflexivity).
        apply filter_In in Hin. destruct Hin as [Hb Hk]. apply String.eqb_eq in Hk.
        exact (H b0 Hb Hk).
Qed.

Lemma merge_left_keeps {A B : Type} (key_a : A -> string) (key_b : B -> string)
    (left : list A) (right : list B) (a : A) :
  In a left -> exists ob, In (a, ob) (merge_left key_a key_b left right).
Proof.
  intros Ha. unfold merge_left.
  destruct (filter (fun b => String.eqb (key_b b) (key_a a)) right) as [|b0 l] eqn:E.
  - exists None. apply in_flat_map. exists a. split; [exact Ha|]. rewrite E. left; reflexivity.
  - exists (Some b0). apply in_flat_map. exists a. split; [exact Ha|]. rewrite E.
    left; reflexivity.
Qed.

Lemma merge_left_length {A B : Type} (key_a : A -> string) (key_b : B -> string)
    (left : list A) (right : list B) :
  (List.length left <= List.length (merge_left key_a key_b left right))%nat.
Proof.
  unfold merge_left. induction left as [|a left IH]; [simpl; lia|].
  cbn [flat_map]. rewrite length_app.
  destruct (filter (fun b => String.eqb (key_b b) (key_a a)) right); simpl in *; lia.
Qed.

(** X26.  [get_merged_data_with_ngo] keeps every row of the damage table,
    whatever the selected organisation: each merged row pairs a damage row
    with a population row of its district, or with none when there is none,
    and with a score row of the selected organisation for the district, or
    with none. *)
Theorem merged_data_keeps_every_district
    (damage_df : list BuildNeedMatrix.damage_row) (pop_df : list BuildNeedMatrix.pop_row)
    (scores_df : list GenerateNgoScores.score) (selected_ngo : string) :
  (forall d, In d damage_df ->
     exists p s, In ((d, p), s)
                    (get_merged_data_with_ngo damage_df pop_df scores_df selected_ngo)) /\
  (List.length damage_df
   <= List.length (get_merged_data_with_ngo damage_df pop_df scores_df selected_ngo))%nat /\
  forall d p s,
    In ((d, p), s) (get_merged_data_with_ngo damage_df pop_df scores_df selected_ngo) ->
    In d damage_df /\
    match p with
    | Some p => In p pop_df /\ BuildNeedMatrix.pop_district p = BuildNeedMatrix.district d
    | None => forall p, In p pop_df ->
                BuildNeedMatrix.pop_district p <> BuildNeedMatrix.district d
    end /\
    match s with
    | Some s => In s scores_df /\ GenerateNgoScores.NGO s = selected_ngo /\
                GenerateNgoScores.score_district s = BuildNeedMatrix.district d
    | None => forall s, In s scores_df -> GenerateNgoScores.NGO s = selected_ngo ->
                GenerateNgoScores.score_district s <> BuildNeedMatrix.district d
    end.
Proof.
  unfold get_merged_data_with_ngo. split; [|split].
  - intros d Hd.
    destruct (merge_left_keeps BuildNeedMatrix.district BuildNeedMatrix.pop_district
                damage_df pop_df d Hd) as [p Hp].
    destruct (merge_left_keeps (fun m => BuildNeedMatrix.district (fst m))
                GenerateNgoScores.score_district _
                (filter (fun r => String.eqb (GenerateNgoScores.NGO r) selected_ngo) scores_df)
                (d, p) Hp) as [s Hs].
    exists p, s. exact Hs.
  - eapply Nat.le_trans; [|apply merge_left_length]. apply merge_left_length.
  - intros d p s H. apply merge_left_spec in H. destruct H as [H Hs].
    apply merge_left_spec in H. destruct H as [Hd Hp].
    split; [exact Hd|]. split; [exact Hp|]. cbn [fst] in Hs.
    destruct s as [s|].
    + destruct Hs as [Hin Hk]. apply filter_In in Hin. destruct Hin as [Hin Hn].
      apply String.eqb_eq in Hn. repeat split; assumption.
    + intros s Hin Hn. apply Hs. apply filter_In. split; [exact Hin|].
      apply String.eqb_eq, Hn.
Qed.

Lemma before_descending (y x : float64) : before y x = true -> descending y x.
Proof.
  unfold before, descending.
  destruct y as [a| | |], x as [b| | |]; cbn; try discriminate; try (split; [reflexivity|discriminate]).
  - destruct (Rlt_dec b a); [|discriminate]. intros _.
    destruct (Rlt_dec a b); [lra|]. split; [reflexivity | discriminate].
Qed.

Lemma not_before_descending (y x : float64) : before y x = false -> descending x y.
Proof.
  unfold before, descending.
  destruct y as [a| | |], x as [b| | |]; cbn; try discriminate;
    try (split; [reflexivity | first [discriminate | reflexivity]]).
  destruct (Rlt_dec b a); [discriminate|]. intros _.
  destruct (Rlt_dec b a); [contradiction|]. split; [reflexivity | discriminate].
Qed.

Lemma descending_trans (x y z : float64) :
  descending x y -> descending y z -> descending x z.
Proof.
  unfold descending.
  destruct x as [a| | |], y as [b| | |], z as [c| | |]; cbn;
    intros [H1 H1'] [H2 H2']; split; try reflexivity; try discriminate; try tauto;
    try (exfalso; discriminate (H1' eq_refl)); try (exfalso; discriminate (H2' eq_refl)).
  destruct (Rlt_dec a b); [discriminate|]. destruct (Rlt_dec b c); [discriminate|].
  destruct (Rlt_dec a c); [lra | reflexivity].
Qed.

Lemma insert_desc_perm (x : GenerateNgoScores.score) (l : list GenerateNgoScores.score) :
  Permutation (x :: l) (insert_desc x l).
Proof.
  induction l as [|y l IH]; cbn [insert_desc]; [reflexivity|].
  destruct (before _ _); [|reflexivity].
  rewrite perm_swap. apply perm_skip, IH.
Qed.

Lemma sort_perm (l : list GenerateNgoScores.score) : Permutation l (sort_values_desc l).
Proof.
  unfold sort_values_desc. induction l as [|x l IH]; cbn [fold_right]; [reflexivity|].
  rewrite <- insert_desc_perm. apply perm_skip, IH.
Qed.

Lemma insert_desc_sorted (x : GenerateNgoScores.score) (l : list GenerateNgoScores.score) :
  StronglySorted by_score l -> StronglySorted by_score (insert_desc x l).
Proof.
  induction 1 as [|y l Hs IH Hall]; cbn [insert_desc].
  - constructor; constructor.
  - destruct (before (GenerateNgoScores.score_fitness y) (GenerateNgoScores.score_fitness x))
      eqn:E.
    + constructor; [exact IH|].
      apply Forall_forall. intros z Hz.
      apply (Permutation_in _ (Permutation_sym (insert_desc_perm x l))) in Hz.
      destruct Hz as [<-|Hz]; [apply before_descending, E|].
      rewrite Forall_forall in Hall. apply Hall, Hz.
    + assert (Hxy : by_score x y) by (apply not_before_descending, E).
      constructor; [constructor; assumption|].
      constructor; [exact Hxy|].
      rewrite Forall_forall in *. intros z Hz.
      eapply descending_trans; [exact Hxy | apply Hall, Hz].
Qed.

Lemma sort_sorted (l : list GenerateNgoScores.score) :
  StronglySorted by_score (sort_values_desc l).
Proof.
  unfold sort_values_desc. induction l as [|x l IH]; cbn [fold_right]; [constructor|].
  apply insert_desc_sorted, IH.
Qed.

Lemma sorted_firstn {A : Type} (R : A -> A -> Prop) (n : nat) (l : list A) :
  StronglySorted R l ->
  StronglySorted R (firstn n l) /\
  forall a b, In a (firstn n l) -> In b (skipn n l) -> R a b.
Proof.
  intros H. revert n. induction H as [|x l Hs IH Hall]; intros n.
  - rewrite firstn_nil, skipn_nil. split; [constructor | intros a b []].
  - destruct n as [|n]; cbn [firstn skipn].
    + split; [constructor | intros a b []].
    + destruct (IH n) as [H1 H2]. split.
      * constructor; [exact H1|]. rewrite Forall_forall in *.
        intros z Hz. apply Hall. rewrite <- (firstn_skipn n l). apply in_or_app. left; exact Hz.
      * intros a b [<-|Ha] Hb; [|apply H2; assumption].
        rewrite Forall_forall in Hall. apply Hall.
        rewrite <- (firstn_skipn n l). apply in_or_app. right; exact Hb.
Qed.

(** X27.  [get_top_priority_districts] returns at most [n] rows, all of
    them rows of the selected organisation, in descending order of fitness
    score ([nan] last); a row of that organisation it leaves out scores no
    higher than any row it keeps, and an organisation without rows gets an
    empty frame, not an error. *)
Theorem top_priority_districts_are_the_best_of_the_ngo
    (scores_df : list GenerateNgoScores.score) (selected_ngo : string) (n : nat) :
  (List.length (get_top_priority_districts scores_df selected_ngo n) <= n)%nat /\
  (forall r, In r (get_top_priority_districts scores_df selected_ngo n) ->
     In r scores_df /\ GenerateNgoScores.NGO r = selected_ngo) /\
  StronglySorted by_score (get_top_priority_districts scores_df selected_ngo n) /\
  (forall r, In r scores_df -> GenerateNgoScores.NGO r = selected_ngo ->
     In r (get_top_priority_districts scores_df selected_ngo n) \/
     forall kept, In kept (get_top_priority_districts scores_df selected_ngo n) ->
       by_score kept r) /\
  ((forall r, In r scores_df -> GenerateNgoScores.NGO r <> selected_ngo) ->
   get_top_priority_districts scores_df selected_ngo n = []).
Proof.
  unfold get_top_priority_districts.
  set (ngo_scores := filter (fun r => String.eqb (GenerateNgoScores.NGO r) selected_ngo)
                            scores_df).
  pose proof (sort_perm ngo_scores) as P. pose proof (sort_sorted ngo_scores) as S.
  destruct (sorted_firstn by_score n _ S) as [S1 S2].
  split; [apply firstn_le_length|]. split; [|split; [exact S1|split]].
  - intros r Hr. apply firstn_incl in Hr.
    apply (Permutation_in _ (Permutation_sym P)) in Hr.
    apply filter_In in Hr. destruct Hr as [Hr Hn]. apply String.eqb_eq in Hn.
    split; assumption.
  - intros r Hr Hn.
    assert (Hin : In r (sort_values_desc ngo_scores)).
    { apply (Permutation_in _ P). apply filter_In. split; [exact Hr | apply String.eqb_eq, Hn]. }
    rewrite <- (firstn_skipn n (sort_values_desc ngo_scores)) in Hin.
    apply in_app_or in Hin. destruct Hin as [Hin|Hin]; [left; exact Hin|].
    right. intros kept Hk. apply S2; assumption.
  - intros Hnone.
    assert (E : ngo_scores = []).
    { destruct ngo_scores as [|r l] eqn:E; [reflexivity|]. exfalso.
      assert (Hr : In r ngo_scores) by (rewrite E; left; reflexivity).
      apply filter_In in Hr. destruct Hr as [Hr Hn]. apply String.eqb_eq in Hn.
      exact (Hnone r Hr Hn). }
    rewrite E. destruct n; reflexivity.
Qed.

End DashboardData.

(** ** The properties on the example tables *)

Section WorkedExamples.

Import Examples.

Lemma generate_idle :
  GenerateAllScores.generate_all_scores strict_model needs_gorkha ngos_idle
  = Ok ([GenerateAllScores.mkScore "Red Cross" "Gorkha"
           (Fin (3 / 5)) (Fin (7 / 10)) (Fin (63 / 100))],
        [GenerateAllScores.ErrorProcessing "FAO" "Gorkha"
           (ValueError "Input X contains NaN.")]).
Proof.
  unfold GenerateAllScores.generate_all_scores.
  change (v <- col ngos_idle "NGO" ;; t <- text v ;; Ok (sorted (unique t)))
    with (Ok ["FAO"; "Red Cross"]%string).
  change (v <- col needs_gorkha "district" ;; t <- text v ;; Ok (sorted (unique t)))
    with (Ok ["Gorkha"]%string).
  cbn [bind]. rewrite loops_spec. cbn [flat_map]. unfold scored, reported.
  rewrite try_body_idle, try_body_red_cross. reflexivity.
Qed.

Lemma batch_rows_are_single_predictions_witness :
  GenerateAllScores.calculate_match_and_urgency needs_gorkha ngos_idle "Red Cross" "Gorkha"
  = Ok (Fin (3 / 5), Fin (7 / 10)) /\
  Predict.predict_fitness strict_model needs_gorkha ngos_idle "Red Cross" "Gorkha"
  = Ok (Fin (63 / 100)) /\
  GenerateAllScores.predict_fitness strict_model needs_gorkha ngos_idle "Red Cross" "Gorkha"
  = Ok (Fin (63 / 100)).
Proof.
  exact (batch_rows_are_single_predictions strict_model needs_gorkha ngos_idle _ _
           (GenerateAllScores.mkScore "Red Cross" "Gorkha"
              (Fin (3 / 5)) (Fin (7 / 10)) (Fin (63 / 100)))
           generate_idle (or_introl eq_refl)).
Defined.

Lemma reported_errors_come_from_text_or_model_witness :
  (GenerateAllScores.calculate_match_and_urgency needs_gorkha ngos_idle "FAO" "Gorkha"
   = Raise TypeError /\ ValueError "Input X contains NaN." = TypeError) \/
  (exists m u,
     GenerateAllScores.calculate_match_and_urgency needs_gorkha ngos_idle "FAO" "Gorkha"
     = Ok (m, u) /\
     strict_model m u = Raise (ValueError "Input X contains NaN.")).
Proof.
  exact (reported_errors_come_from_text_or_model strict_model needs_gorkha ngos_idle
           _ _ "FAO" "Gorkha" _ generate_idle (or_introl eq_refl)).
Defined.

Lemma build_matrix_two :
  BuildNeedMatrix.build_need_matrix damage_two pop_two = Ok matrix_two.
Proof.
  unfold BuildNeedMatrix.build_need_matrix, matrix_two.
  rewrite (need_cols_fins _ 1 col_max_two) by lra.
  rewrite merge_two. unfold raw_need_cols.
  rewrite fit_transform_fins by discriminate. reflexivity.
Qed.

Lemma need_matrix_rows_are_the_joined_districts_witness :
  BuildNeedMatrix.districts matrix_two
  = map (fun r => BuildNeedMatrix.district (fst r)) (BuildNeedMatrix.merge damage_two pop_two) /\
  BuildNeedMatrix.districts matrix_two <> [] /\
  map fst (BuildNeedMatrix.needs matrix_two) = BuildNeedMatrix.labels /\
  (forall c, In c (BuildNeedMatrix.needs matrix_two) ->
     List.length (snd c) = List.length (BuildNeedMatrix.districts matrix_two)) /\
  (forall name, In name (BuildNeedMatrix.districts matrix_two) <->
     exists d p, In d damage_two /\ In p pop_two /\
       BuildNeedMatrix.district d = name /\ BuildNeedMatrix.pop_district p = name).
Proof.
  exact (need_matrix_rows_are_the_joined_districts damage_two pop_two matrix_two
           build_matrix_two).
Defined.

Lemma scaling_keeps_the_order_of_districts_witness :
  exists m,
    BuildNeedMatrix.build_need_matrix damage_two pop_two = Ok m /\
    Forall2 rescaled (BuildNeedMatrix.need_cols (BuildNeedMatrix.merge damage_two pop_two))
            (map snd (BuildNeedMatrix.needs m)).
Proof.
  apply scaling_keeps_the_order_of_districts.
  - rewrite merge_two. discriminate.
  - rewrite col_max_two. intros E. inversion E. lra.
Defined.

Lemma urgency_and_fitness_are_percent_scaled_witness :
  exists m u,
    GenerateNgoScores.match_score capabilities_long gorkha = Fin m /\
    GenerateNgoScores.urgency gorkha = Fin u /\
    GenerateNgoScores.fitness_score capabilities_long gorkha
    = Fin ((m * 0.6 + u * 0.4) * 100) /\
    0 <= u <= 1 /\ 0 <= (m * 0.6 + u * 0.4) * 100 <= 100.
Proof.
  apply (urgency_and_fitness_are_percent_scaled capabilities_long gorkha); simpl; lra.
Defined.

Lemma convert_long : ConvertToVivaan.convert capabilities_long = Ok matrix_long.
Proof.
  unfold ConvertToVivaan.convert, capabilities_long. cbn [fold_left].
  unfold ConvertToVivaan.step at 2.
  cbn [GenerateNgoScores.ngo_name GenerateNgoScores.category GenerateNgoScores.capacity_score].
  change (PyStr.strip " Red Cross") with "Red Cross"%string.
  change (PyStr.strip "Emergency Health Response") with "Emergency Health Response"%string.
  cbn [fltb]. destruct (Rlt_dec 0 0) as [C|_]; [lra|].
  unfold ConvertToVivaan.step.
  cbn [GenerateNgoScores.ngo_name GenerateNgoScores.category GenerateNgoScores.capacity_score].
  change (PyStr.strip "Red Cross") with "Red Cross"%string.
  change (PyStr.strip "Emergency Health Response ") with "Emergency Health Response"%string.
  cbn [fltb]. destruct (Rlt_dec 0 3) as [_|C]; [|lra].
  reflexivity.
Qed.

Lemma converted_matrix_is_well_formed_witness :
  NoDup (map fst matrix_long) /\
  (forall r, In r matrix_long ->
     List.length (snd r) = List.length ConvertToVivaan.categories /\
     forall v, In v (snd r) -> v = 0%Z \/ v = 1%Z) /\
  (forall ngo, In ngo ConvertToVivaan.all_ngos -> In ngo (map fst matrix_long)) /\
  (forall row, In row capabilities_long ->
     In (PyStr.strip (GenerateNgoScores.ngo_name row)) (map fst matrix_long)).
Proof.
  exact (converted_matrix_is_well_formed capabilities_long matrix_long convert_long).
Defined.

Lemma last_row_of_a_category_decides_witness :
  ConvertToVivaan.value matrix_long "Red Cross" "Emergency Health Response"
  = Some (ConvertToVivaan.last_score capabilities_long "Red Cross"
            "Emergency Health Response").
Proof.
  apply (last_row_of_a_category_decides capabilities_long matrix_long
           "Red Cross" "Emergency Health Response" convert_long).
  - left. reflexivity.
  - do 5 right. left. reflexivity.
Defined.

Lemma colour_of_a_value_in_range_witness :
  ColorMapNepal.value_to_color (Fin 1)
  = inl ("#" ++ ColorMapNepal.format_02x (ColorMapNepal.red 1)
             ++ ColorMapNepal.format_02x (ColorMapNepal.green 1) ++ "00")%string /\
  (0 <= ColorMapNepal.red 1 <= 255)%Z /\ (0 <= ColorMapNepal.green 1 <= 255)%Z /\
  String.length ("#" ++ ColorMapNepal.format_02x (ColorMapNepal.red 1)
                     ++ ColorMapNepal.format_02x (ColorMapNepal.green 1) ++ "00") = 7%nat /\
  ColorMapNepal.value_to_color (Fin 1) = inl "#ff0000"%string /\
  ColorMapNepal.value_to_color (Fin 100) = inl "#00ff00"%string.
Proof. apply (colour_of_a_value_in_range 1). lra. Defined.

Lemma colour_runs_from_red_to_green_witness :
  (ColorMapNepal.red 100 <= ColorMapNepal.red 1)%Z /\
  (ColorMapNepal.green 1 <= ColorMapNepal.green 100)%Z.
Proof. apply (colour_runs_from_red_to_green 1 100); lra. Defined.

End WorkedExamples.

(** ** generate_all_scores.py: each combination once *)







Section Pairs.

Import GenerateAllScores.

Variable model : Model.
Variables needs ngos : DataFrame.




End Pairs.

(** ** app.py: one merged row per district *)

Section OneRow.

Import App.

Lemma filter_unique_key {B : Type} (key_b : B -> string) (right : list B) (k : string) :
  NoDup (map key_b right) ->
  (List.length (filter (fun b => String.eqb (key_b b) k) right) <= 1)%nat.
Proof.
  induction right as [|b right IH]; intros H; [simpl; lia|].
  inversion H as [|? ? Hb Hnd]; subst. cbn [filter].
  destruct (String.eqb (key_b b) k) eqn:E; [|apply IH, Hnd].
  apply String.eqb_eq in E.
  assert (Z : filter (fun b => String.eqb (key_b b) k) right = []).
  { destruct (filter (fun b => String.eqb (key_b b) k) right) as [|b' l] eqn:F;
      [reflexivity|]. exfalso.
    assert (Hin : In b' (filter (fun b => String.eqb (key_b b) k) right))
      by (rewrite F; left; reflexivity).
    apply filter_In in Hin. destruct Hin as [Hin Hk]. apply String.eqb_eq in Hk.
    apply Hb. rewrite E, <- Hk. apply in_map, Hin. }
  rewrite Z. simpl. lia.
Qed.

Lemma merge_left_unique {A B : Type} (key_a : A -> string) (key_b : B -> string)
    (left : list A) (right : list B) :
  NoDup (map key_b right) ->
  map fst (merge_left key_a key_b left right) = left.
Proof.
  intros H. unfold merge_left. induction left as [|a left IH]; [reflexivity|].
  cbn [flat_map]. rewrite map_app, IH.
  pose proof (filter_unique_key key_b right (key_a a) H) as L.
  destruct (filter (fun b => String.eqb (key_b b) (key_a a)) right) as [|b [|b' l]];
    [reflexivity | reflexivity | simpl in L; lia].
Qed.

(** X29.  When no district occurs twice in the population table, nor
    twice among the score rows of the selected organisation,
    [get_merged_data_with_ngo] returns exactly one row for each row of the
    damage table, in the order of the damage table; [merge_all_data] does so
    for any score table. *)
Theorem one_merged_row_per_district
    (damage_df : list BuildNeedMatrix.damage_row) (pop_df : list BuildNeedMatrix.pop_row)
    (scores_df : list GenerateNgoScores.score) (selected_ngo : string) :
  NoDup (map BuildNeedMatrix.pop_district pop_df) ->
  NoDup (map GenerateNgoScores.score_district
             (filter (fun r => String.eqb (GenerateNgoScores.NGO r) selected_ngo) scores_df)) ->
  map (fun m => fst (fst m))
      (get_merged_data_with_ngo damage_df pop_df scores_df selected_ngo)
  = damage_df /\
  map fst (merge_all_data damage_df pop_df scores_df) = damage_df.
Proof.
  intros Hp Hs. unfold get_merged_data_with_ngo, merge_all_data. split.
  - rewrite <- (map_map fst fst).
    rewrite (merge_left_unique (fun m => BuildNeedMatrix.district (fst m))
               GenerateNgoScores.score_district _ _ Hs).
    apply merge_left_unique, Hp.
  - apply merge_left_unique, Hp.
Qed.

Lemma one_merged_row_per_district_witness :
  map (fun m => fst (fst m))
      (get_merged_data_with_ngo Examples.damage_two Examples.pop_two Examples.scores_one
         "Red Cross")
  = Examples.damage_two /\
  map fst (merge_all_data Examples.damage_two Examples.pop_two Examples.scores_one)
  = Examples.damage_two.
Proof.
  apply one_merged_row_per_district.
  - repeat constructor; simpl; intuition discriminate.
  - repeat constructor; simpl; intuition discriminate.
Defined.

End OneRow.

Section MoreExamples.

Import Examples.


End MoreExamples.
